(** * node-tweet-stream: a model of [lib/twitter.js]

    The streaming client of [lib/twitter.js] is embedded as a state machine:
    the fields of a [Twitter] instance together with the part of the Node.js
    host it talks to (pending timers, the [process.nextTick] queue, the
    request objects it creates) form a [World]; every method and every event
    handler of the source is a computation in a small state-and-exception
    monad over that world.

    Modelling conventions.
    - JavaScript numbers are exact: the integer backoff values are [Z], the
      jittered delays are rationals [Q].  [Math.random()] is an argument of
      the handler that calls it.
    - The objects used as keyword maps ([this._filters[kind]]) are object
      literals: a list of own properties in the order of their creation,
      read through the prototype chain, so that a keyword that names a
      member of [Object.prototype] (such as [constructor]) is found there
      when the object has no property of its own by that name.
      [Object.keys] lists the own properties in JavaScript's order: array
      indices first, ascending, then the other names in the order of their
      creation.  Keywords are strings, as property names are.
    - The credentials are not modelled: [new_Twitter] is the instance after
      a construction that did not throw.
    - [this.stale] and the other fields that start out [undefined] are read
      only through truthiness tests, so [undefined] is [false] / [None].
    - Subscribers of the emitted events are external: [emit] records the
      notification in the world's log. *)

From Stdlib Require Import ZArith NArith QArith Lqa Lia Ascii String List Sorted Permutation.
From stdpp Require Import base option strings list.
Import ListNotations.

Set Default Proof Using "Type".

(** ** Decoded records *)

(** What [JSON.parse] returns for one line of the response body. *)
#[warnings="-register-all"]
Inductive JSON :=
| JNull
| JBool (b : bool)
| JNumber (q : Q)
| JString (s : string)
| JArray (items : list JSON)
| JObject (fields : list (string * JSON)).

(** [data.name]: own property of a parsed object ([JSON.parse] keeps the last
    of several members with one name); [undefined], here [None], on numbers,
    strings, booleans and arrays for the eight names [_write] reads. *)
Fixpoint get_member (fields : list (string * JSON)) (name : string) : option JSON :=
  match fields with
  | [] => None
  | (k, v) :: rest =>
      match get_member rest name with
      | Some v' => Some v'
      | None => if String.eqb k name then Some v else None
      end
  end.

Definition prop (data : JSON) (name : string) : option JSON :=
  match data with
  | JObject fields => get_member fields name
  | _ => None
  end.

(** JavaScript truthiness of a property read. *)
Definition truthy (v : option JSON) : bool :=
  match v with
  | None => false
  | Some JNull => false
  | Some (JBool b) => b
  | Some (JNumber q) => negb (Qeq_bool q 0)
  | Some (JString s) => negb (String.eqb s "")
  | Some (JArray _) => true
  | Some (JObject _) => true
  end.

(** ** Notifications, effects, timers *)

Inductive Kind := FILTER_TYPE_TRACKING | FILTER_TYPE_LOCATION | FILTER_TYPE_FOLLOW | FILTER_TYPE_LANGUAGE.

#[global] Instance Kind_eq_dec : EqDecision Kind.
Proof. solve_decision. Defined.

Record Explanation := { type : string; long : string }.

(** [Twitter.prototype.errorExplanation] *)
Definition errorExplanation (code : Z) : option Explanation :=
  if (code =? 401)%Z then Some {| type := "unauthorized"; long := "HTTP authentication failed." |}
  else if (code =? 403)%Z then Some {| type := "forbidden"; long := "The connecting account is not permitted to access this endpoint." |}
  else if (code =? 404)%Z then Some {| type := "not-found"; long := "There is nothing at this URL." |}
  else if (code =? 406)%Z then Some {| type := "not-acceptable"; long := "At least one request parameter is invalid." |}
  else if (code =? 413)%Z then Some {| type := "too-long"; long := "A parameter list is too long." |}
  else if (code =? 416)%Z then Some {| type := "range-unacceptable"; long := "Returned if user does not have access to use the count parameter or a count parameter is outside of the max/min allowable values." |}
  else if (code =? 420)%Z then Some {| type := "rate-limit"; long := "The client has connected too frequently." |}
  else if (code =? 503)%Z then Some {| type := "service-unavailable"; long := "A streaming server is temporarily overloaded." |}
  else None.

(** The arguments of [this.emit(name, this, ...)]. *)
Inductive Event :=
| tweet (data : JSON)
| delete_ (payload : JSON)
| scrub_geo (payload : JSON)
| limit (payload : JSON)
| status_withheld (payload : JSON)
| user_withheld (payload : JSON)
| disconnect (payload : JSON)
| warning (payload : JSON)
| connect_
| reconnect_ (type : string) (explain : option Explanation) (delay : Q)
| error_ (type : string) (code : Z) (explain : option Explanation).

(** The functions the source hands to [setTimeout] and [process.nextTick]. *)
Inductive Callback :=
| response_retry   (* lines 286-289: [self.connectBackoff = 0; self.connect()] *)
| error_retry      (* lines 357-362: [self.inConnectBackoff = 0; self.connect()] *)
| close            (* lines 329-333: the stall handler *)
| bound_connect.   (* line 331: [this.connect.bind(this)] *)

(** The form of the POST request. *)
Module Form.
Record t := { track : string; locations : string; follow : string; language : string }.
End Form.

(** What the client does to its environment, in the order it does it. *)
Inductive Effect :=
| Emit (e : Event)
| Post (id : nat) (form : Form.t)
| StreamAbort (id : nat)
| ParserDestroy (id : nat)
| SetTimeout (id : nat) (cb : Callback) (delay : Q)
| ClearTimeout (id : nat)
| NextTick (cb : Callback).

(** ** Backoff sequences (lines 8-17) *)

(** The variables captured by the closure that [backoff] returns. *)
Record Backoff := { current : Z; max : Z; step : Z -> Z }.

Inductive Exception :=
| Error (message : string)
| TypeError (message : string).

Definition backoff (current max : Z) (step : Z -> Z) : Backoff :=
  {| current := current; max := max; step := step |}.

(** One call of the closure: the exception, or the returned [_value] and the
    closure with [current] advanced. *)
Definition next (b : Backoff) : Exception + Z * Backoff :=
  let _value := current b in
  if (_value >? max b)%Z then inl (Error "Exceeded twitter rate limit")
  else inr (_value, {| current := step b (current b); max := max b; step := step b |}).

(** The values returned by [n] successive calls; a call that throws leaves
    the closure as it was, so every later call throws as well. *)
Fixpoint returned (n : nat) (b : Backoff) : list Z :=
  match n with
  | O => []
  | S n' =>
      match next b with
      | inl _ => []
      | inr (v, b') => v :: returned n' b'
      end
  end.

(** Whether the [n]-th call (counting from 0) throws. *)
Fixpoint throws_at (n : nat) (b : Backoff) : bool :=
  match next b with
  | inl _ => true
  | inr (_, b') => match n with O => false | S n' => throws_at n' b' end
  end.

(** The three closures [Twitter.prototype.backoffs] creates (lines 58-65). *)
Definition network_backoff : Backoff := backoff 0 (16 * 1000) (fun x => x + 250)%Z.
Definition http_backoff : Backoff := backoff 1000 (320 * 1000) (fun x => x * 2)%Z.
Definition rate_backoff : Backoff := backoff 1000 2147483647 (fun x => x * 2)%Z.

(** ** The instance and its host *)

(** *** Keyword objects *)

(** The numbers the source keeps under a keyword: a count, or [NaN], which
    [++] and [--] give when what they read is not a number. *)
Inductive JsNumber := num (c : Z) | NaN.

#[global] Instance JsNumber_eq_dec : EqDecision JsNumber.
Proof. solve_decision. Defined.

(** An object literal [{}] used as a map from keywords to numbers: its own
    properties, one entry for each name, in the order in which they were
    created.  (Should a list hold several entries for one name, the first
    one is the property.) *)
Record Object := { properties : list (string * JsNumber) }.

#[global] Instance Object_eq_dec : EqDecision Object.
Proof. solve_decision. Defined.

(** [{}] *)
#[global] Instance Object_empty : Empty Object := {| properties := [] |}.

Fixpoint own (ps : list (string * JsNumber)) (k : string) : option JsNumber :=
  match ps with
  | [] => None
  | (k', n) :: rest => if String.eqb k' k then Some n else own rest k
  end.

(** [o !! k] is the own property [k] of [o], if it has one. *)
#[global] Instance Object_lookup : Lookup string JsNumber Object :=
  fun k o => own (properties o) k.

(** The own property names of [Object.prototype] in Node.js, which every
    object literal inherits: eleven methods and the accessor [__proto__]. *)
Definition Object_prototype : list string :=
  ["constructor"; "__defineGetter__"; "__defineSetter__"; "hasOwnProperty";
   "__lookupGetter__"; "__lookupSetter__"; "isPrototypeOf"; "propertyIsEnumerable";
   "toString"; "valueOf"; "__proto__"; "toLocaleString"].

Definition inherited (k : string) : bool := existsb (String.eqb k) Object_prototype.

(** What reading [o[k]] gives: [undefined], a number of the object's own, or
    a member of [Object.prototype] (a function, or the prototype object
    itself for [__proto__]). *)
Inductive Value := undefined | number (n : JsNumber) | member.

(** [o[k]] *)
Definition get_property (o : Object) (k : string) : Value :=
  match o !! k with
  | Some n => number n
  | None => if inherited k then member else undefined
  end.

Fixpoint update (ps : list (string * JsNumber)) (k : string) (n : JsNumber) :
    list (string * JsNumber) :=
  match ps with
  | [] => [(k, n)]
  | (k', n') :: rest =>
      if String.eqb k' k then (k', n) :: rest else (k', n') :: update rest k n
  end.

(** [o[k] = n]: an own property keeps its place, a new one is created last.
    On an object without an own property of that name, [o.__proto__ = n]
    runs the setter of [Object.prototype], which ignores a number. *)
Definition set_property (k : string) (n : JsNumber) (o : Object) : Object :=
  if String.eqb k "__proto__" && negb (bool_decide (is_Some (o !! k))) then o
  else {| properties := update (properties o) k n |}.

(** [delete o[k]] *)
Definition delete_property (k : string) (o : Object) : Object :=
  {| properties := List.filter (fun p => negb (String.eqb (fst p) k)) (properties o) |}.

(** Truthiness, [typeof v === 'undefined'], and the conversion to a number
    that [++] and [--] apply to what they read. *)
Definition truthy_value (v : Value) : bool :=
  match v with
  | undefined => false
  | number (num c) => negb (c =? 0)%Z
  | number NaN => false
  | member => true
  end.

Definition is_undefined (v : Value) : bool :=
  match v with undefined => true | _ => false end.

Definition ToNumber (v : Value) : JsNumber :=
  match v with
  | number n => n
  | undefined | member => NaN
  end.

Definition plus (n : JsNumber) (d : Z) : JsNumber :=
  match n with
  | num c => num (c + d)
  | NaN => NaN
  end.

(** [n === 0] *)
Definition is_zero (n : JsNumber) : bool :=
  match n with
  | num c => (c =? 0)%Z
  | NaN => false
  end.

(** The array index that a property name is, if it is one: a decimal numeral
    without a leading zero, below [2^32 - 1]. *)
Definition digit (a : ascii) : option N :=
  let n := N_of_ascii a in
  if (48 <=? n)%N && (n <=? 57)%N then Some (n - 48)%N else None.

Fixpoint numeral (s : string) (acc : N) : option N :=
  match s with
  | EmptyString => Some acc
  | String a rest =>
      match digit a with
      | Some d => numeral rest (10 * acc + d)%N
      | None => None
      end
  end.

Definition array_index (k : string) : option N :=
  match k with
  | EmptyString => None
  | String a rest =>
      if Ascii.eqb a "0" && negb (String.eqb rest "") then None
      else
        match numeral k 0 with
        | Some i => if (i <? 2 ^ 32 - 1)%N then Some i else None
        | None => None
        end
  end.

Definition is_index (k : string) : bool := bool_decide (is_Some (array_index k)).

Fixpoint insert_ascending (k : string) (l : list string) : list string :=
  match l with
  | [] => [k]
  | k' :: rest =>
      if (default 0 (array_index k) <=? default 0 (array_index k'))%N then k :: l
      else k' :: insert_ascending k rest
  end.

Definition ascending (l : list string) : list string := foldr insert_ascending [] l.

(** [Object.keys(o)]: the names of the own properties, each once, array
    indices first, in ascending order, then the other names in the order of
    creation. *)
Definition keys (o : Object) : list string :=
  let names := remove_dups (properties o).*1 in
  ascending (List.filter is_index names)
  ++ List.filter (fun k => negb (is_index k)) names.

(** *** The instance *)

(** [this._filters]: one keyword object per kind (lines 34-39). *)
Module Filters.
Record t := {
  tracking : Object;
  location : Object;
  follow : Object;
  language : Object
}.
End Filters.

(** [filters[kind]] and [filters[kind] = m] *)
Definition get_kind (filter : Kind) (fs : Filters.t) : Object :=
  match filter with
  | FILTER_TYPE_TRACKING => Filters.tracking fs
  | FILTER_TYPE_LOCATION => Filters.location fs
  | FILTER_TYPE_FOLLOW => Filters.follow fs
  | FILTER_TYPE_LANGUAGE => Filters.language fs
  end.

Definition set_kind (filter : Kind) (m : Object) (fs : Filters.t) : Filters.t :=
  match filter with
  | FILTER_TYPE_TRACKING =>
      {| Filters.tracking := m; Filters.location := Filters.location fs;
         Filters.follow := Filters.follow fs; Filters.language := Filters.language fs |}
  | FILTER_TYPE_LOCATION =>
      {| Filters.tracking := Filters.tracking fs; Filters.location := m;
         Filters.follow := Filters.follow fs; Filters.language := Filters.language fs |}
  | FILTER_TYPE_FOLLOW =>
      {| Filters.tracking := Filters.tracking fs; Filters.location := Filters.location fs;
         Filters.follow := m; Filters.language := Filters.language fs |}
  | FILTER_TYPE_LANGUAGE =>
      {| Filters.tracking := Filters.tracking fs; Filters.location := Filters.location fs;
         Filters.follow := Filters.follow fs; Filters.language := m |}
  end.

(** The fields of a [Twitter] instance.  [stream], [parser] and [timeout]
    hold the identity of the request, the line parser and the stall timer;
    [onceError] counts the listeners that [connect] has registered with
    [this.once('error', ...)] and that have not run yet. *)
Record Twitter := {
  _filters : Filters.t;
  stale : bool;
  stream : option nat;
  parser : option nat;
  timeout : option nat;
  connectBackoff : Q;
  inConnectBackoff : option Q;
  networkBackoff : Backoff;
  httpBackoff : Backoff;
  rateBackoff : Backoff;
  onceError : nat
}.

(** The instance in its host: the timers that are pending (identity,
    callback, delay), the [process.nextTick] queue, the next unused object
    identity and the log of effects so far. *)
Record World := {
  self : Twitter;
  timers : list (nat * Callback * Q);
  ticks : list Callback;
  fresh : nat;
  log : list Effect
}.

Definition with_self (f : Twitter -> Twitter) (w : World) : World :=
  {| self := f (self w); timers := timers w; ticks := ticks w; fresh := fresh w; log := log w |}.

Definition with_timers (f : list (nat * Callback * Q) -> list (nat * Callback * Q)) (w : World) : World :=
  {| self := self w; timers := f (timers w); ticks := ticks w; fresh := fresh w; log := log w |}.

Definition with_ticks (f : list Callback -> list Callback) (w : World) : World :=
  {| self := self w; timers := timers w; ticks := f (ticks w); fresh := fresh w; log := log w |}.

Definition with_fresh (f : nat -> nat) (w : World) : World :=
  {| self := self w; timers := timers w; ticks := ticks w; fresh := f (fresh w); log := log w |}.

Definition with_log (f : list Effect -> list Effect) (w : World) : World :=
  {| self := self w; timers := timers w; ticks := ticks w; fresh := fresh w; log := f (log w) |}.

Definition set_filters (v : Filters.t) (t : Twitter) : Twitter :=
  {| _filters := v; stale := stale t; stream := stream t; parser := parser t;
     timeout := timeout t; connectBackoff := connectBackoff t;
     inConnectBackoff := inConnectBackoff t; networkBackoff := networkBackoff t;
     httpBackoff := httpBackoff t; rateBackoff := rateBackoff t; onceError := onceError t |}.

Definition set_stale (v : bool) (t : Twitter) : Twitter :=
  {| _filters := _filters t; stale := v; stream := stream t; parser := parser t;
     timeout := timeout t; connectBackoff := connectBackoff t;
     inConnectBackoff := inConnectBackoff t; networkBackoff := networkBackoff t;
     httpBackoff := httpBackoff t; rateBackoff := rateBackoff t; onceError := onceError t |}.

Definition set_stream (v : option nat) (t : Twitter) : Twitter :=
  {| _filters := _filters t; stale := stale t; stream := v; parser := parser t;
     timeout := timeout t; connectBackoff := connectBackoff t;
     inConnectBackoff := inConnectBackoff t; networkBackoff := networkBackoff t;
     httpBackoff := httpBackoff t; rateBackoff := rateBackoff t; onceError := onceError t |}.

Definition set_parser (v : option nat) (t : Twitter) : Twitter :=
  {| _filters := _filters t; stale := stale t; stream := stream t; parser := v;
     timeout := timeout t; connectBackoff := connectBackoff t;
     inConnectBackoff := inConnectBackoff t; networkBackoff := networkBackoff t;
     httpBackoff := httpBackoff t; rateBackoff := rateBackoff t; onceError := onceError t |}.

Definition set_timeout (v : option nat) (t : Twitter) : Twitter :=
  {| _filters := _filters t; stale := stale t; stream := stream t; parser := parser t;
     timeout := v; connectBackoff := connectBackoff t;
     inConnectBackoff := inConnectBackoff t; networkBackoff := networkBackoff t;
     httpBackoff := httpBackoff t; rateBackoff := rateBackoff t; onceError := onceError t |}.

Definition set_connectBackoff (v : Q) (t : Twitter) : Twitter :=
  {| _filters := _filters t; stale := stale t; stream := stream t; parser := parser t;
     timeout := timeout t; connectBackoff := v;
     inConnectBackoff := inConnectBackoff t; networkBackoff := networkBackoff t;
     httpBackoff := httpBackoff t; rateBackoff := rateBackoff t; onceError := onceError t |}.

Definition set_inConnectBackoff (v : option Q) (t : Twitter) : Twitter :=
  {| _filters := _filters t; stale := stale t; stream := stream t; parser := parser t;
     timeout := timeout t; connectBackoff := connectBackoff t;
     inConnectBackoff := v; networkBackoff := networkBackoff t;
     httpBackoff := httpBackoff t; rateBackoff := rateBackoff t; onceError := onceError t |}.

Definition set_networkBackoff (v : Backoff) (t : Twitter) : Twitter :=
  {| _filters := _filters t; stale := stale t; stream := stream t; parser := parser t;
     timeout := timeout t; connectBackoff := connectBackoff t;
     inConnectBackoff := inConnectBackoff t; networkBackoff := v;
     httpBackoff := httpBackoff t; rateBackoff := rateBackoff t; onceError := onceError t |}.

Definition set_httpBackoff (v : Backoff) (t : Twitter) : Twitter :=
  {| _filters := _filters t; stale := stale t; stream := stream t; parser := parser t;
     timeout := timeout t; connectBackoff := connectBackoff t;
     inConnectBackoff := inConnectBackoff t; networkBackoff := networkBackoff t;
     httpBackoff := v; rateBackoff := rateBackoff t; onceError := onceError t |}.

Definition set_rateBackoff (v : Backoff) (t : Twitter) : Twitter :=
  {| _filters := _filters t; stale := stale t; stream := stream t; parser := parser t;
     timeout := timeout t; connectBackoff := connectBackoff t;
     inConnectBackoff := inConnectBackoff t; networkBackoff := networkBackoff t;
     httpBackoff := httpBackoff t; rateBackoff := v; onceError := onceError t |}.

Definition set_onceError (v : nat) (t : Twitter) : Twitter :=
  {| _filters := _filters t; stale := stale t; stream := stream t; parser := parser t;
     timeout := timeout t; connectBackoff := connectBackoff t;
     inConnectBackoff := inConnectBackoff t; networkBackoff := networkBackoff t;
     httpBackoff := httpBackoff t; rateBackoff := rateBackoff t; onceError := v |}.

(** ** The monad of methods and handlers *)

(** A call either returns normally or throws; both leave a world behind. *)
Inductive Outcome (A : Type) :=
| Returned (a : A) (w : World)
| Thrown (e : Exception) (w : World).
Arguments Returned {A} a w.
Arguments Thrown {A} e w.

Definition Js (A : Type) : Type := World -> Outcome A.

Definition ret {A} (a : A) : Js A := fun w => Returned a w.

Definition bind {A B} (m : Js A) (k : A -> Js B) : Js B :=
  fun w =>
    match m w with
    | Returned a w' => k a w'
    | Thrown e w' => Thrown e w'
    end.

Definition throw {A} (e : Exception) : Js A := fun w => Thrown e w.

Definition get : Js World := fun w => Returned w w.

Definition modify (f : World -> World) : Js unit := fun w => Returned tt (f w).

Declare Scope js_scope.
Delimit Scope js_scope with js.
Notation "'let!' x ':=' m 'in' k" := (bind m (fun x => k))
  (at level 10, x name, m at level 100, k at level 200) : js_scope.
Notation "m '>>' k" := (bind m (fun _ => k))
  (at level 100, k at level 200, right associativity) : js_scope.
Local Open Scope js_scope.

Definition when (b : bool) (m : Js unit) : Js unit := if b then m else ret tt.

(** [this.field = v] *)
Definition assign (set : Twitter -> Twitter) : Js unit := modify (with_self set).

(** [this.field] *)
Definition this {A} (field : Twitter -> A) : Js A := fun w => Returned (field (self w)) w.

Definition effect (e : Effect) : Js unit := modify (with_log (fun l => l ++ [e])).

(** [this.emit(...)] *)
Definition emit (e : Event) : Js unit := effect (Emit e).

(** A new request, parser or timer object. *)
Definition new_id : Js nat := fun w => Returned (fresh w) (with_fresh S w).

Definition remove_timer (id : nat) (ts : list (nat * Callback * Q)) : list (nat * Callback * Q) :=
  List.filter (fun t => negb (Nat.eqb (fst (fst t)) id)) ts.

Definition find_timer (id : nat) (ts : list (nat * Callback * Q)) : option Callback :=
  match List.find (fun t => Nat.eqb (fst (fst t)) id) ts with
  | Some t => Some (snd (fst t))
  | None => None
  end.

Definition setTimeout (cb : Callback) (delay : Q) : Js nat :=
  let! id := new_id in
  modify (with_timers (fun ts => ts ++ [(id, cb, delay)])) >>
  effect (SetTimeout id cb delay) >>
  ret id.

(** [clearTimeout(undefined)] does nothing. *)
Definition clearTimeout (t : option nat) : Js unit :=
  match t with
  | Some id => modify (with_timers (remove_timer id)) >> effect (ClearTimeout id)
  | None => ret tt
  end.

Definition nextTick (cb : Callback) : Js unit :=
  modify (with_ticks (fun q => q ++ [cb])) >> effect (NextTick cb).

(** Calling one of the three backoff closures of the instance. *)
Definition call (field : Twitter -> Backoff) (set : Backoff -> Twitter -> Twitter) : Js Z :=
  fun w =>
    match next (field (self w)) with
    | inl e => Thrown e w
    | inr (v, b) => Returned v (with_self (set b) w)
    end.

(** ** Methods of [Twitter.prototype] *)

Definition timeoutInterval : Q := inject_Z (1000 * 90).

(** lines 58-65 *)
Definition backoffs : Js unit :=
  assign (set_networkBackoff network_backoff) >>
  assign (set_httpBackoff http_backoff) >>
  assign (set_rateBackoff rate_backoff).

(** lines 110-124 *)
Definition tracking (t : Twitter) : list string := keys (get_kind FILTER_TYPE_TRACKING (_filters t)).
Definition locations (t : Twitter) : list string := keys (get_kind FILTER_TYPE_LOCATION (_filters t)).
Definition following (t : Twitter) : list string := keys (get_kind FILTER_TYPE_FOLLOW (_filters t)).
Definition languages (t : Twitter) : list string := keys (get_kind FILTER_TYPE_LANGUAGE (_filters t)).

(** lines 204-206 *)
Definition hasFilters (t : Twitter) : bool :=
  (0 <? length (tracking t))%nat || (0 <? length (locations t))%nat
  || (0 <? length (following t))%nat || (0 <? length (languages t))%nat.

(** lines 369-379 *)
Definition abort : Js unit :=
  let! p := this parser in
  match p with Some p => effect (ParserDestroy p) | None => ret tt end >>
  let! t := this timeout in
  clearTimeout t >>
  let! s := this stream in
  match s with Some s => effect (StreamAbort s) | None => ret tt end >>
  assign (set_stream None).

(** The form of lines 254-259. *)
Definition form (t : Twitter) : Form.t :=
  {| Form.track := String.concat "," (keys (get_kind FILTER_TYPE_TRACKING (_filters t)));
     Form.locations := String.concat "," (keys (get_kind FILTER_TYPE_LOCATION (_filters t)));
     Form.follow := String.concat "," (keys (get_kind FILTER_TYPE_FOLLOW (_filters t)));
     Form.language := String.concat "," (keys (get_kind FILTER_TYPE_LANGUAGE (_filters t))) |}.

(** lines 243-267: the request is posted and the handlers of lines 268 and
    343 are attached to it; they are [on_response] and [on_error] below. *)
Definition connect : Js unit :=
  assign (set_stale false) >>
  let! has := this hasFilters in
  if negb has then ret tt
  else
    let! f := this form in
    let! id := new_id in
    effect (Post id f) >>
    assign (set_stream (Some id)) >>
    let! n := this onceError in
    assign (set_onceError (S n)).

(** lines 126-133 *)
Definition reconnect : Js unit :=
  let! st := this stale in
  if st then
    let! s := this stream in
    when (bool_decide (is_Some s)) abort >>
    connect
  else ret tt.

(** The second argument of [addFilter]: one keyword or an array. *)
Inductive Keywords :=
| keyword (k : string)
| array (ks : list string).

(** [keywords.forEach(...)] with the variables its callback assigns. *)
Fixpoint forEach {A S} (l : list A) (body : A -> S -> Js S) (s : S) : Js S :=
  match l with
  | [] => ret s
  | x :: rest => let! s' := body x s in forEach rest body s'
  end.

(** [this._filters[filter][keyword]] *)
Definition read (filter : Kind) (keyword : string) : Js Value :=
  let! fs := this _filters in
  ret (get_property (get_kind filter fs) keyword).

(** [this._filters[filter][keyword] = n] *)
Definition store (filter : Kind) (keyword : string) (n : JsNumber) : Js unit :=
  let! fs := this _filters in
  assign (set_filters (set_kind filter (set_property keyword n (get_kind filter fs)) fs)).

(** [this._filters[filter][keyword]++], whose value the source does not use. *)
Definition increment (filter : Kind) (keyword : string) : Js unit :=
  let! v := read filter keyword in
  store filter keyword (plus (ToNumber v) 1).

(** [--this._filters[filter][keyword]], whose value is the new number. *)
Definition decrement (filter : Kind) (keyword : string) : Js JsNumber :=
  let! v := read filter keyword in
  let n := plus (ToNumber v) (-1) in
  store filter keyword n >>
  ret n.

(** lines 75-83: the callback of [keywords.forEach], with the variable
    [addedNewKeyword] it assigns. *)
Definition addFilter_each (filter : Kind) (keyword : string) (addedNewKeyword : bool) : Js bool :=
  let! v := read filter keyword in
  if truthy_value v then
    increment filter keyword >>
    ret addedNewKeyword
  else
    store filter keyword (num 1) >>
    assign (set_stale true) >>
    ret true.

(** lines 67-88; an absent [reconnect] argument is [None]. *)
Definition addFilter (filter : Kind) (keywords : Keywords) (reconnect_ : option bool) : Js unit :=
  let reconnect_ := default true reconnect_ in
  let keywords := match keywords with keyword k => [k] | array ks => ks end in
  let! addedNewKeyword := forEach keywords (addFilter_each filter) false in
  when (reconnect_ && addedNewKeyword) reconnect.

(** lines 90-108 *)
Definition track (k : Keywords) (r : option bool) : Js unit := addFilter FILTER_TYPE_TRACKING k r.
Definition trackMultiple (k : Keywords) (r : option bool) : Js unit := addFilter FILTER_TYPE_TRACKING k r.
Definition location (k : Keywords) (r : option bool) : Js unit := addFilter FILTER_TYPE_LOCATION k r.
Definition follow (k : Keywords) (r : option bool) : Js unit := addFilter FILTER_TYPE_FOLLOW k r.
Definition language (k : Keywords) (r : option bool) : Js unit := addFilter FILTER_TYPE_LANGUAGE k r.

(** lines 156-169 *)
Definition removeFilter (filter : Kind) (keyword : string) (reconnect_ : option bool) : Js unit :=
  let reconnect_ := default true reconnect_ in
  let! v := read filter keyword in
  if is_undefined v then ret tt
  else
    let! n := decrement filter keyword in
    if is_zero n then
      let! fs := this _filters in
      assign (set_filters (set_kind filter (delete_property keyword (get_kind filter fs)) fs)) >>
      assign (set_stale true) >>
      when reconnect_ reconnect
    else ret tt.

(** lines 171-182; [this._filters[filter]] is defined for each of the four kinds. *)
Definition removeAllFilters (filter : Kind) (reconnect_ : option bool) : Js unit :=
  let reconnect_ := default true reconnect_ in
  let! fs := this _filters in
  assign (set_filters (set_kind filter ∅ fs)) >>
  assign (set_stale true) >>
  when reconnect_ reconnect.

(** lines 184-202 *)
Definition untrack (k : string) (r : option bool) : Js unit := removeFilter FILTER_TYPE_TRACKING k r.
Definition untrackAll (r : option bool) : Js unit := removeAllFilters FILTER_TYPE_TRACKING r.
Definition unlocate (k : string) (r : option bool) : Js unit := removeFilter FILTER_TYPE_LOCATION k r.
Definition unfollow (k : string) (r : option bool) : Js unit := removeFilter FILTER_TYPE_FOLLOW k r.
Definition unlanguage (k : string) (r : option bool) : Js unit := removeFilter FILTER_TYPE_LANGUAGE k r.

(** lines 135-154; reading a property of [null] throws. *)
Definition _write (data : JSON) : Js unit :=
  match data with
  | JNull => throw (TypeError "Cannot read property 'text' of null")
  | _ =>
      if truthy (prop data "text") then emit (tweet data)
      else if truthy (prop data "delete") then emit (delete_ (default JNull (prop data "delete")))
      else if truthy (prop data "scrub_geo") then emit (scrub_geo (default JNull (prop data "scrub_geo")))
      else if truthy (prop data "limit") then emit (limit (default JNull (prop data "limit")))
      else if truthy (prop data "status_withheld") then emit (status_withheld (default JNull (prop data "status_withheld")))
      else if truthy (prop data "user_withheld") then emit (user_withheld (default JNull (prop data "user_withheld")))
      else if truthy (prop data "disconnect") then emit (disconnect (default JNull (prop data "disconnect")))
      else if truthy (prop data "warning") then emit (warning (default JNull (prop data "warning")))
      else ret tt
  end.

(** ** Event handlers *)

(** The jitter of lines 280 and 349, [u] being the value of [Math.random()]. *)
Definition jitter (backoff u : Q) : Q := (backoff * u * (1#2) - backoff * (1#4))%Q.

(** [this.emit('error', this, {...})] of line 303.  The listener that
    [connect] registered at line 262 receives the instance as [err] and
    throws on [err.explain.long]; without any listener [emit] itself
    throws. *)
Definition emit_error (code : Z) : Js unit :=
  emit (error_ "http" code (errorExplanation code)) >>
  let! n := this onceError in
  match n with
  | S n' =>
      assign (set_onceError n') >>
      throw (TypeError "Cannot read property 'long' of undefined")
  | O => throw (Error "Unhandled error")
  end.

(** lines 268-341: the ['response'] handler, for a response with status
    [statusCode]. *)
Definition on_response (statusCode : Z) (u : Q) : Js unit :=
  if (statusCode =? 420)%Z || (statusCode =? 503)%Z then
    let! backoff :=
      (if (statusCode =? 420)%Z then call rateBackoff set_rateBackoff
       else call httpBackoff set_httpBackoff) in
    abort >>
    let random := jitter (inject_Z backoff) u in
    let backoff := (inject_Z backoff + random)%Q in
    let! pending := this connectBackoff in
    when (Qeq_bool pending 0)
      (assign (set_connectBackoff backoff) >>
       let! _ := setTimeout response_retry backoff in ret tt) >>
    let! delay := this connectBackoff in
    emit (reconnect_ (default "" (type <$> errorExplanation statusCode))
                     (errorExplanation statusCode) delay)
  else if (statusCode >? 200)%Z then
    abort >>
    emit_error statusCode
  else
    backoffs >>
    emit connect_ >>
    let! p := new_id in
    assign (set_parser (Some p)) >>
    let! t := setTimeout close timeoutInterval in
    assign (set_timeout (Some t)).

(** lines 337-340: the ['data'] handler of a response. *)
Definition on_data : Js unit :=
  let! t := this timeout in
  clearTimeout t >>
  let! t := setTimeout close timeoutInterval in
  assign (set_timeout (Some t)).

(** lines 343-366: the ['error'] handler of the request. *)
Definition on_error (u : Q) : Js unit :=
  abort >>
  let! backoff := call networkBackoff set_networkBackoff in
  let random := jitter (inject_Z backoff) u in
  let backoff := (inject_Z backoff + random)%Q in
  let! pending := this connectBackoff in
  when (Qeq_bool pending 0)
    (assign (set_connectBackoff backoff) >>
     let! _ := setTimeout error_retry backoff in ret tt) >>
  let! delay := this connectBackoff in
  emit (reconnect_ "network" None delay).

(** The bodies of the callbacks. *)
Definition run_callback (cb : Callback) : Js unit :=
  match cb with
  | response_retry => assign (set_connectBackoff 0) >> connect
  | error_retry => assign (set_inConnectBackoff (Some 0%Q)) >> connect
  | close => abort >> nextTick bound_connect >> emit (reconnect_ "stall" None 0)
  | bound_connect => connect
  end.

(** ** The event loop *)

(** The calls a user of the module makes. *)
Inductive Method :=
| AddFilter (filter : Kind) (keywords : Keywords) (reconnect_ : option bool)
| RemoveFilter (filter : Kind) (keyword : string) (reconnect_ : option bool)
| RemoveAllFilters (filter : Kind) (reconnect_ : option bool)
| Reconnect
| Connect
| Abort.

Definition invoke (m : Method) : Js unit :=
  match m with
  | AddFilter f k r => addFilter f k r
  | RemoveFilter f k r => removeFilter f k r
  | RemoveAllFilters f r => removeAllFilters f r
  | Reconnect => reconnect
  | Connect => connect
  | Abort => abort
  end.

(** What can happen to an instance: a call from its user, a response or an
    error on a request, a chunk or a decoded line of a response body, a
    timer firing. *)
Inductive Input :=
| Call (m : Method)
| Response (statusCode : Z) (u : Q)
| RequestError (u : Q)
| Data
| Line (data : JSON)
| Timer (id : nat).

(** A timer that is no longer pending does not fire. *)
Definition fire (id : nat) : Js unit :=
  let! w := get in
  match find_timer id (timers w) with
  | Some cb => modify (with_timers (remove_timer id)) >> run_callback cb
  | None => ret tt
  end.

(** Line 318 and 324-325: the parser made by [split] hands every line that
    [JSON.parse] decodes to [_write].  A line that decodes to [null] ends
    the parser instead ([split] queues the value, and a queued [null] is the
    end of a stream): nothing is written.  The parser hands on none of the
    lines that follow it in that body; they are no inputs of the instance. *)
Definition deliver (data : JSON) : Js unit :=
  match data with
  | JNull => ret tt
  | _ => _write data
  end.

Definition handle (i : Input) : Js unit :=
  match i with
  | Call m => invoke m
  | Response statusCode u => on_response statusCode u
  | RequestError u => on_error u
  | Data => on_data
  | Line data => deliver data
  | Timer id => fire id
  end.

(** The [process.nextTick] queue is emptied once the current handler has
    returned.  The only callback the source ever queues is [bound_connect],
    which queues nothing itself. *)
Fixpoint run_each (cbs : list Callback) : Js unit :=
  match cbs with
  | [] => ret tt
  | cb :: rest => run_callback cb >> run_each rest
  end.

Definition run_ticks : Js unit :=
  let! w := get in
  modify (with_ticks (fun _ => [])) >>
  run_each (ticks w).

Definition turn (i : Input) : Js unit := handle i >> run_ticks.

Fixpoint run (inputs : list Input) : Js unit :=
  match inputs with
  | [] => ret tt
  | i :: rest => turn i >> run rest
  end.

(** lines 24-47: the instance after [new Twitter(oauth)], in a host with
    nothing pending. *)
Definition new_Twitter : World :=
  {| self :=
       {| _filters := {| Filters.tracking := ∅; Filters.location := ∅;
                         Filters.follow := ∅; Filters.language := ∅ |};
          stale := false; stream := None; parser := None; timeout := None;
          connectBackoff := 0; inConnectBackoff := None;
          networkBackoff := network_backoff; httpBackoff := http_backoff;
          rateBackoff := rate_backoff; onceError := 0 |};
     timers := []; ticks := []; fresh := 0; log := [] |}.

(** * Definitions used in the statements *)

(** What [abort] does to the environment. *)
Definition abort_effects (t : Twitter) : list Effect :=
  match parser t with Some p => [ParserDestroy p] | None => [] end
  ++ match timeout t with Some id => [ClearTimeout id] | None => [] end
  ++ match stream t with Some s => [StreamAbort s] | None => [] end.

(** The world after [abort()]. *)
Definition aborted (w : World) : World :=
  {| self := set_stream None (self w);
     timers := match timeout (self w) with
               | Some id => remove_timer id (timers w)
               | None => timers w
               end;
     ticks := ticks w; fresh := fresh w;
     log := log w ++ abort_effects (self w) |}.

(** The world after [connect()]. *)
Definition connected (w : World) : World :=
  if hasFilters (self w) then
    {| self := set_onceError (S (onceError (self w)))
                 (set_stream (Some (fresh w)) (set_stale false (self w)));
       timers := timers w; ticks := ticks w; fresh := S (fresh w);
       log := log w ++ [Post (fresh w) (form (self w))] |}
  else with_self (set_stale false) w.

(** The world after [reconnect()]. *)
Definition reconnected (w : World) : World :=
  if stale (self w) then connected (if bool_decide (is_Some (stream (self w))) then aborted w else w)
  else w.

(** The closure after [n] calls. *)
Fixpoint after (n : nat) (b : Backoff) : Backoff :=
  match n with
  | O => b
  | S n' =>
      match next b with
      | inl _ => b
      | inr (_, b') => after n' b'
      end
  end.

(** The closure after one call that returned. *)
Definition advance (b : Backoff) : Backoff :=
  {| current := step b (current b); max := max b; step := step b |}.

(** A step function that never decreases from the current value on. *)
Definition inflationary (b : Backoff) : Prop :=
  forall x, (current b <= x)%Z -> (x <= step b x)%Z.

(** The eight fields in the order [_write] reads them, each with the event
    it leads to: the whole record for [text], the field's value for the
    others. *)
Definition priority : list (string * (JSON -> JSON -> Event)) :=
  [ ("text", fun data _ => tweet data);
    ("delete", fun _ v => delete_ v);
    ("scrub_geo", fun _ v => scrub_geo v);
    ("limit", fun _ v => limit v);
    ("status_withheld", fun _ v => status_withheld v);
    ("user_withheld", fun _ v => user_withheld v);
    ("disconnect", fun _ v => disconnect v);
    ("warning", fun _ v => warning v) ].

(** The event of the first field of [table] that passes [test]. *)
Fixpoint first_match (test : option JSON -> bool) (data : JSON)
    (table : list (string * (JSON -> JSON -> Event))) : option Event :=
  match table with
  | [] => None
  | (name, event) :: rest =>
      if test (prop data name) then Some (event data (default JNull (prop data name)))
      else first_match test data rest
  end.

(** Classification as the specification words it: by presence of a field. *)
Definition present (v : option JSON) : bool := bool_decide (is_Some v).

(** The event the specification's classification gives a record. *)
Definition classify_by_presence (data : JSON) : option Event :=
  first_match present data priority.

(** Classification by the truthiness of a field's value. *)
Definition classify_by_truthiness (data : JSON) : option Event :=
  first_match truthy data priority.

(** The effect of emitting the event of a classification, if any. *)
Definition emitted (e : option Event) : list Effect :=
  match e with
  | Some e => [Emit e]
  | None => []
  end.

(** Whether the loop body of [addFilter] takes its [else] branch. *)
Definition is_fresh (m : Object) (k : string) : bool :=
  negb (truthy_value (get_property m k)).

(** The loop body of [addFilter] on the keyword object of one kind. *)
Definition add_count (m : Object) (k : string) : Object :=
  if truthy_value (get_property m k) then set_property k (plus (ToNumber (get_property m k)) 1) m
  else set_property k (num 1) m.

(** The object after the loop, and whether some keyword was freshly inserted. *)
Fixpoint add_all (m : Object) (ks : list string) : Object * bool :=
  match ks with
  | [] => (m, false)
  | k :: rest =>
      let r := add_all (add_count m k) rest in
      (fst r, is_fresh m k || snd r)
  end.

(** The number that [removeFilter] stores for [k], if it gets that far. *)
Definition decremented (m : Object) (k : string) : option JsNumber :=
  if is_undefined (get_property m k) then None
  else Some (plus (ToNumber (get_property m k)) (-1)).

(** The body of [removeFilter] on the keyword object of one kind. *)
Definition remove_count (m : Object) (k : string) : Object :=
  match decremented m k with
  | None => m
  | Some n =>
      if is_zero n then delete_property k (set_property k n m)
      else set_property k n m
  end.

(** A single keyword is a list of one (line 70). *)
Definition list_of (keywords : Keywords) : list string :=
  match keywords with
  | keyword k => [k]
  | array ks => ks
  end.

(** The instance with the keyword object of [filter] replaced. *)
Definition with_kind (filter : Kind) (m : Object) (t : Twitter) : Twitter :=
  set_filters (set_kind filter m (_filters t)) t.

(** The count stored for a keyword, [0] when there is none. *)
Definition count (m : Object) (k : string) : Z :=
  match m !! k with
  | Some (num c) => c
  | Some NaN | None => 0%Z
  end.

(** A keyword that names no member of [Object.prototype]. *)
Definition ordinary (k : string) : Prop := inherited k = false.

(** Every stored count is positive; [NaN] is stored under names of members
    of [Object.prototype] only. *)
Definition positive_counts (m : Object) : Prop :=
  forall k n, m !! k = Some n ->
    match n with
    | num c => (0 < c)%Z
    | NaN => inherited k = true
    end.

(** [m] stores, of the ordinary keywords, exactly those with a positive
    number in [n], each with that number. *)
Definition represents (m : Object) (n : string -> nat) : Prop :=
  forall k, ordinary k ->
    m !! k = match n k with O => None | S _ => Some (num (Z.of_nat (n k))) end.



(** Calls made one after the other. *)
Fixpoint invoke_all (ms : list Method) : Js unit :=
  match ms with
  | [] => ret tt
  | m :: rest => invoke m >> invoke_all rest
  end.



(** Whether no count is stored for [k]. *)
Definition absent (m : Object) (k : string) : bool := bool_decide (m !! k = None).


(** All four kinds are empty. *)
Definition all_empty (fs : Filters.t) : Prop :=
  Filters.tracking fs = ∅ /\ Filters.location fs = ∅
  /\ Filters.follow fs = ∅ /\ Filters.language fs = ∅.

#[global] Instance all_empty_dec (fs : Filters.t) : Decision (all_empty fs).
Proof. unfold all_empty. apply _. Defined.

(** The member of the form that each kind goes to. *)
Definition form_field (filter : Kind) (f : Form.t) : string :=
  match filter with
  | FILTER_TYPE_TRACKING => Form.track f
  | FILTER_TYPE_LOCATION => Form.locations f
  | FILTER_TYPE_FOLLOW => Form.follow f
  | FILTER_TYPE_LANGUAGE => Form.language f
  end.

(** The instance after [track('a', false); untrack('a', false)]: no filters,
    and stale. *)
Definition stale_without_filters : World := with_self (set_stale true) new_Twitter.

(** [n] responses with status 420, each followed by the firing of the retry
    timer it set; the timers have the identities [id], [id + 2], ... when a
    request is posted each time a timer fires. *)
Fixpoint rate_limited (n : nat) (id : nat) : list Input :=
  match n with
  | O => []
  | S n' => Response 420 0 :: Timer id :: rate_limited n' (id + 2)
  end.


(** Lines 282-295 and 354-364: the timer is set only when [connectBackoff]
    is [0]; the notification carries [connectBackoff] as it is afterwards. *)
Definition retry_scheduled (cb : Callback) (type : string) (explain : option Explanation)
    (d : Q) (w : World) : World :=
  if Qeq_bool (connectBackoff (self w)) 0 then
    {| self := set_connectBackoff d (self w);
       timers := timers w ++ [(fresh w, cb, d)];
       ticks := ticks w; fresh := S (fresh w);
       log := log w ++ [SetTimeout (fresh w) cb d; Emit (reconnect_ type explain d)] |}
  else with_log (fun l => l ++ [Emit (reconnect_ type explain (connectBackoff (self w)))]) w.

(** The raw delay with its jitter. *)
Definition jittered (backoff : Z) (u : Q) : Q := (inject_Z backoff + jitter (inject_Z backoff) u)%Q.

(** The world after a response with status 200. *)
Definition streaming (w : World) : World :=
  {| self := set_timeout (Some (S (fresh w)))
               (set_parser (Some (fresh w))
                  (set_rateBackoff rate_backoff
                     (set_httpBackoff http_backoff
                        (set_networkBackoff network_backoff (self w)))));
     timers := timers w ++ [(S (fresh w), close, timeoutInterval)];
     ticks := ticks w; fresh := S (S (fresh w));
     log := log w ++ [Emit connect_; SetTimeout (S (fresh w)) close timeoutInterval] |}.

(** The retry timers set in a stretch of the log, each with its identity and
    its delay. *)
Definition retry_timers (l : list Effect) : list (nat * Q) :=
  flat_map (fun e =>
    match e with
    | SetTimeout id response_retry d | SetTimeout id error_retry d => [(id, d)]
    | _ => []
    end) l.

(** The reconnect notifications emitted in a stretch of the log, each with
    its type and its delay. *)
Definition reconnects (l : list Effect) : list (string * Q) :=
  flat_map (fun e =>
    match e with
    | Emit (reconnect_ type _ d) => [(type, d)]
    | _ => []
    end) l.

(** A step that sets no retry timer, emits no reconnect notification and
    leaves the retry guard, the three backoff sequences and the tick queue
    as they were. *)
Definition calm (w w' : World) : Prop :=
  connectBackoff (self w') = connectBackoff (self w)
  /\ (networkBackoff (self w') = networkBackoff (self w)
      /\ httpBackoff (self w') = httpBackoff (self w)
      /\ rateBackoff (self w') = rateBackoff (self w))
  /\ ticks w' = ticks w
  /\ exists l, log w' = log w ++ l /\ retry_timers l = [] /\ reconnects l = [].

(** The world after [removeAllFilters(filter, r)]. *)
Definition removedAll (filter : Kind) (r : option bool) (w : World) : World :=
  let w' := with_self (fun t => set_stale true (with_kind filter ∅ t)) w in
  if default true r then reconnected w' else w'.

(** A closure of the sequence that starts as [b0]. *)
Definition in_sequence (b0 b : Backoff) : Prop :=
  max b = max b0 /\ step b = step b0 /\ (current b0 <= current b)%Z.

(** What the keyword object of a kind always satisfies: the stored counts
    are positive, [__proto__] is not stored, and there is one entry for each
    name. *)
Definition kept (m : Object) : Prop :=
  positive_counts m /\ m !! "__proto__" = None /\ NoDup (properties m).*1.

(** What every world between two turns of the event loop satisfies. *)
Definition sound (w : World) : Prop :=
  ticks w = []
  /\ (forall filter, kept (get_kind filter (_filters (self w))))
  /\ in_sequence network_backoff (networkBackoff (self w))
  /\ in_sequence http_backoff (httpBackoff (self w))
  /\ in_sequence rate_backoff (rateBackoff (self w)).

(** The worlds a new instance can be in after some turns. *)
Definition reachable (w : World) : Prop :=
  exists inputs, run inputs new_Twitter = Returned tt w.

(** A step that leaves the filters, the three backoff sequences and the tick
    queue as they were. *)
Definition stable (w w' : World) : Prop :=
  _filters (self w') = _filters (self w)
  /\ networkBackoff (self w') = networkBackoff (self w)
  /\ httpBackoff (self w') = httpBackoff (self w)
  /\ rateBackoff (self w') = rateBackoff (self w)
  /\ ticks w' = ticks w.

(** The kind a call writes to, if any. *)
Definition touches (m : Method) : option Kind :=
  match m with
  | AddFilter filter _ _ | RemoveFilter filter _ _ | RemoveAllFilters filter _ => Some filter
  | Reconnect | Connect | Abort => None
  end.

(** What [reconnect()] adds to the log of a stale instance. *)
Definition reconnect_effects (w : World) : list Effect :=
  (if bool_decide (is_Some (stream (self w))) then abort_effects (self w) else [])
  ++ (if hasFilters (self w) then [Post (fresh w) (form (self w))] else []).


(** The world after the body of [removeAllFilters], before it reconnects. *)
Definition cleared (filter : Kind) (w : World) : World :=
  with_self (fun t => set_stale true (with_kind filter ∅ t)) w.

(** The statuses other than 420 and 503 that [errorExplanation] explains. *)
Definition explained : list Z := [401; 403; 404; 406; 413; 416]%Z.

(** The sequence a response with status 420 or 503 draws from. *)
Definition retry_sequence (statusCode : Z) (t : Twitter) : Backoff :=
  if (statusCode =? 420)%Z then rateBackoff t else httpBackoff t.

(** The world after the ['data'] handler. *)
Definition rearmed (w : World) : World :=
  {| self := set_timeout (Some (fresh w)) (self w);
     timers := match timeout (self w) with
               | Some t => remove_timer t (timers w)
               | None => timers w
               end ++ [(fresh w, close, timeoutInterval)];
     ticks := ticks w; fresh := S (fresh w);
     log := log w
            ++ match timeout (self w) with Some t => [ClearTimeout t] | None => [] end
            ++ [SetTimeout (fresh w) close timeoutInterval] |}.

(** The world after the stall handler [close], before the tick queue runs. *)
Definition stalled (w : World) : World :=
  {| self := self (aborted w);
     timers := timers (aborted w);
     ticks := ticks w ++ [bound_connect];
     fresh := fresh w;
     log := log (aborted w) ++ [NextTick bound_connect; Emit (reconnect_ "stall" None 0)] |}.

(** The world a turn ends in when it returns, for each input. *)
Definition turned (i : Input) (w w' : World) : Prop :=
  match i with
  | Call m => invoke m w = Returned tt w'
  | Response statusCode u =>
      (statusCode <= 200)%Z /\ w' = streaming w
      \/ exists v b,
           (statusCode = 420%Z /\ next (rateBackoff (self w)) = inr (v, b)
            /\ w' = retry_scheduled response_retry "rate-limit" (errorExplanation 420)
                      (jittered v u) (aborted (with_self (set_rateBackoff b) w)))
           \/ (statusCode = 503%Z /\ next (httpBackoff (self w)) = inr (v, b)
               /\ w' = retry_scheduled response_retry "service-unavailable" (errorExplanation 503)
                         (jittered v u) (aborted (with_self (set_httpBackoff b) w)))
  | RequestError u =>
      exists v b, next (networkBackoff (self w)) = inr (v, b)
        /\ w' = retry_scheduled error_retry "network" None (jittered v u)
                  (with_self (set_networkBackoff b) (aborted w))
  | Data => w' = rearmed w
  | Line data => w' = with_log (fun l => l ++ emitted (classify_by_truthiness data)) w
  | Timer id =>
      match find_timer id (timers w) with
      | None => w' = w
      | Some response_retry =>
          w' = connected (with_self (set_connectBackoff 0) (with_timers (remove_timer id) w))
      | Some error_retry =>
          w' = connected (with_self (set_inConnectBackoff (Some 0%Q)) (with_timers (remove_timer id) w))
      | Some close =>
          w' = connected (with_ticks (fun _ => []) (stalled (with_timers (remove_timer id) w)))
      | Some bound_connect => w' = connected (with_timers (remove_timer id) w)
      end
  end.

(** The requests posted in a stretch of the log. *)
Definition posts (l : list Effect) : list (nat * Form.t) :=
  flat_map (fun e => match e with Post id f => [(id, f)] | _ => [] end) l.

(** What a turn posts: nothing, or one request that carries the form of the
    filters the turn ends with, is held in [this.stream], and has added one
    ['error'] listener. *)
Definition posted_once (w w' : World) : Prop :=
  exists l, log w' = log w ++ l
    /\ ((posts l = [] /\ onceError (self w') = onceError (self w))
        \/ exists id, posts l = [(id, form (self w'))]
             /\ hasFilters (self w') = true
             /\ stream (self w') = Some id
             /\ onceError (self w') = S (onceError (self w))).

(** No timer set by the ['response'] handler is pending. *)
Definition no_response_retry (ts : list (nat * Callback * Q)) : Prop :=
  Forall (fun t => snd (fst t) <> response_retry) ts.

(** A step that keeps the retry guard, sets no retry timer, and adds no
    pending timer other than stall timers. *)
Definition guard_kept (w w' : World) : Prop :=
  connectBackoff (self w') = connectBackoff (self w)
  /\ (forall t, In t (timers w') -> In t (timers w) \/ snd (fst t) = close)
  /\ exists l, log w' = log w ++ l /\ retry_timers l = [].

(** The effects that are neither a notification nor a timer nor a tick. *)
Definition silent (e : Effect) : bool :=
  match e with
  | Emit _ | SetTimeout _ _ _ | NextTick _ => false
  | Post _ _ | StreamAbort _ | ParserDestroy _ | ClearTimeout _ => true
  end.

(** A step whose effects are all silent. *)
Definition silently (w w' : World) : Prop :=
  exists l, log w' = log w ++ l /\ forallb silent l = true.

(** A filter call whose reconnect argument is [false]. *)
Definition deferred (m : Method) : Prop :=
  match m with
  | AddFilter _ _ (Some false) | RemoveFilter _ _ (Some false) | RemoveAllFilters _ (Some false) =>
      True
  | _ => False
  end.

(** A step that changes nothing but the filters and, upwards, [stale]. *)
Definition untouched (w w' : World) : Prop :=
  log w' = log w /\ timers w' = timers w /\ ticks w' = ticks w /\ fresh w' = fresh w
  /\ stream (self w') = stream (self w) /\ parser (self w') = parser (self w)
  /\ timeout (self w') = timeout (self w)
  /\ (stale (self w) = true -> stale (self w') = true).

Definition timer_id (t : nat * Callback * Q) : nat := fst (fst t).

Definition is_stall (t : nat * Callback * Q) : bool :=
  match snd (fst t) with close => true | _ => false end.

(** The identities of the pending stall timers. *)
Definition stall_ids (ts : list (nat * Callback * Q)) : list nat :=
  map timer_id (List.filter is_stall ts).

(** A world that is streaming with its stall timer armed: the only pending
    stall timer is the one in [this.timeout], and pending timers have
    distinct identities, all older than the next one. *)
Definition watched (w : World) : Prop :=
  ticks w = []
  /\ NoDup (map timer_id (timers w))
  /\ Forall (fun t => (timer_id t < fresh w)%nat) (timers w)
  /\ exists t, timeout (self w) = Some t /\ stall_ids (timers w) = [t].

(** * Properties *)

(** ** The model at work *)

(** [track('a')] on a new client posts a request for the keyword. *)
Example track_connects :
  exists w, run [Call (AddFilter FILTER_TYPE_TRACKING (keyword "a") None)] new_Twitter = Returned tt w
    /\ log w = [Post 0 {| Form.track := "a"; Form.locations := ""; Form.follow := "";
                          Form.language := "" |}]
    /\ stream (self w) = Some 0%nat /\ stale (self w) = false.
Proof. eexists. split; [vm_compute; reflexivity|]. repeat split. Qed.

(** Three decoded lines give three events, in the order of the lines. *)
Example lines_are_events :
  exists w,
    run [Line (JObject [("text", JString "hi")]);
         Line (JObject [("delete", JObject [("id", JNumber 1)])]);
         Line (JObject [("limit", JObject [("track", JNumber 5)])])] new_Twitter
    = Returned tt w
    /\ log w = [Emit (tweet (JObject [("text", JString "hi")]));
                Emit (delete_ (JObject [("id", JNumber 1)]));
                Emit (limit (JObject [("track", JNumber 5)]))].
Proof. eexists. split; [vm_compute; reflexivity|]. reflexivity. Qed.

(** A response with status 404 aborts the request, emits the ['error']
    event, and the listener of line 262 throws. *)
Example not_found_throws :
  exists w,
    run [Call (AddFilter FILTER_TYPE_TRACKING (keyword "a") None); Response 404 0] new_Twitter
    = Thrown (TypeError "Cannot read property 'long' of undefined") w
    /\ log w = [Post 0 {| Form.track := "a"; Form.locations := ""; Form.follow := "";
                          Form.language := "" |};
                StreamAbort 0;
                Emit (error_ "http" 404 (errorExplanation 404))].
Proof. eexists. split; [vm_compute; reflexivity|]. reflexivity. Qed.

(** ** Closed forms of the methods *)

Lemma abort_eq (w : World) : abort w = Returned tt (aborted w).
Proof.
  unfold abort, aborted, abort_effects, bind, this, clearTimeout, effect, assign, modify, ret.
  destruct w as [[fs st [s|] [p|] [t|] cb icb nb hb rb oe] ts q n l]; simpl;
    unfold with_self, with_log, with_timers; simpl;
    rewrite <- ?app_assoc, ?app_nil_r; reflexivity.
Qed.

Lemma connect_eq (w : World) : connect w = Returned tt (connected w).
Proof.
  unfold connect, connected, bind, this, assign, modify, new_id, effect, ret; simpl.
  change (hasFilters (set_stale false (self w))) with (hasFilters (self w)).
  destruct (hasFilters (self w)); reflexivity.
Qed.

Lemma reconnect_eq (w : World) : reconnect w = Returned tt (reconnected w).
Proof.
  unfold reconnect, reconnected, bind, this, when; simpl.
  destruct (stale (self w)); [|reflexivity].
  destruct (bool_decide _); [rewrite abort_eq|unfold ret]; apply connect_eq.
Qed.

(** ** Backoff sequences *)

Lemma next_cases (b : Backoff) :
  ((current b <= max b)%Z /\ next b = inr (current b, advance b))
  \/ ((current b > max b)%Z /\ next b = inl (Error "Exceeded twitter rate limit")).
Proof.
  unfold next, advance; cbv zeta.
  destruct (Z.gtb_spec (current b) (max b)); [right | left]; split; auto; lia.
Qed.

Lemma inflationary_advance (b : Backoff) : inflationary b -> inflationary (advance b).
Proof.
  unfold inflationary, advance; simpl; intros H x Hx.
  apply H. specialize (H (current b)). lia.
Qed.

Lemma returned_head (n : nat) (b : Backoff) (v : Z) (l : list Z) :
  returned n b = v :: l -> v = current b.
Proof.
  destruct n as [|n]; simpl; [discriminate|].
  destruct (next_cases b) as [[_ ->]|[_ ->]]; [|discriminate].
  now intros [= <- _].
Qed.

Lemma returned_sorted (n : nat) (b : Backoff) :
  inflationary b -> Sorted Z.le (returned n b).
Proof.
  revert b; induction n as [|n IH]; intros b Hb; simpl; [constructor|].
  destruct (next_cases b) as [[_ ->]|[_ ->]]; [|constructor].
  constructor; [apply IH, inflationary_advance, Hb|].
  destruct (returned n (advance b)) as [|v l] eqn:E; constructor.
  apply returned_head in E; subst v; simpl.
  apply Hb; lia.
Qed.

Lemma returned_bounded (n : nat) (b : Backoff) :
  Forall (fun v => (v <= max b)%Z) (returned n b).
Proof.
  revert b; induction n as [|n IH]; intros b; simpl; [constructor|].
  destruct (next_cases b) as [[Hle ->]|[_ ->]]; [|constructor].
  constructor; [exact Hle | apply (IH (advance b))].
Qed.

Lemma after_max (n : nat) (b : Backoff) : max (after n b) = max b.
Proof.
  revert b; induction n as [|n IH]; intros b; simpl; [reflexivity|].
  destruct (next_cases b) as [[_ ->]|[_ ->]]; [|reflexivity].
  now rewrite IH.
Qed.

(** Once a call has thrown, every later call throws. *)
Lemma exhausted_stays (n : nat) (b : Backoff) :
  (current b > max b)%Z -> after n b = b /\ returned n b = [].
Proof.
  intros H; destruct n as [|n]; simpl; [auto|].
  destruct (next_cases b) as [[Hle _]|[_ ->]]; [lia | auto].
Qed.

(** The three sequences return 65, 9 and 22 values before they throw. *)
Lemma sequences_exhaust :
  length (returned 100 network_backoff) = 65%nat
  /\ length (returned 100 http_backoff) = 9%nat
  /\ length (returned 100 rate_backoff) = 22%nat
  /\ throws_at 64 network_backoff = false /\ throws_at 65 network_backoff = true
  /\ throws_at 8 http_backoff = false /\ throws_at 9 http_backoff = true
  /\ throws_at 21 rate_backoff = false /\ throws_at 22 rate_backoff = true.
Proof. vm_compute. repeat split. Qed.

Lemma sequence_calls (b0 : Backoff) (n : nat) :
  inflationary b0 ->
  (((current (after n b0) <= max b0)%Z
    /\ next (after n b0) = inr (current (after n b0), advance (after n b0)))
   \/ ((current (after n b0) > max b0)%Z
       /\ next (after n b0) = inl (Error "Exceeded twitter rate limit")))
  /\ Sorted Z.le (returned n b0)
  /\ Forall (fun v => (v <= max b0)%Z) (returned n b0).
Proof.
  intros Hb; split; [|split].
  - rewrite <- (after_max n b0). apply next_cases.
  - now apply returned_sorted.
  - apply returned_bounded.
Qed.

(** C4: whatever calls came before, a call of one of the three backoff
    closures either returns the current value, which is then at most the
    ceiling, and advances the current value by the step function, or throws
    the exhaustion error, and it throws exactly when the current value
    exceeds the ceiling.  The values returned by any number of successive
    calls are non-decreasing and never exceed the ceiling. *)
Theorem backoff_next_bounded_nondecreasing :
  Forall (fun b0 : Backoff =>
    forall n : nat,
      let b := after n b0 in
      (((current b <= max b0)%Z /\ next b = inr (current b, advance b))
       \/ ((current b > max b0)%Z /\ next b = inl (Error "Exceeded twitter rate limit")))
      /\ Sorted Z.le (returned n b0)
      /\ Forall (fun v => (v <= max b0)%Z) (returned n b0))
    [network_backoff; http_backoff; rate_backoff].
Proof.
  repeat (apply List.Forall_cons; [intros n; apply sequence_calls; intros x; simpl; lia|]).
  apply List.Forall_nil.
Qed.

(** ** Jitter *)

(** The delay is the raw delay scaled by a factor between 3/4 and 5/4. *)
Lemma jittered_factor (R u : Q) : (R + jitter R u == R * ((3#4) + u * (1#2)))%Q.
Proof. unfold jitter. ring. Qed.

(** C6: for a raw delay [R >= 0] and a draw [0 <= u < 1], the jittered
    delay [R + (R*u*0.5 - R*0.25)] lies between [0.75 R] and [1.25 R]. *)
Theorem jittered_delay_bounds (R u : Q) :
  (0 <= R)%Q -> (0 <= u)%Q -> (u < 1)%Q ->
  ((3#4) * R <= R + jitter R u)%Q /\ (R + jitter R u <= (5#4) * R)%Q.
Proof.
  intros HR Hu0 Hu1. rewrite jittered_factor. split; nra.
Qed.

Lemma jittered_delay_bounds_witness :
  ((3#4) * 1000 <= 1000 + jitter 1000 (1#2))%Q
  /\ (1000 + jitter 1000 (1#2) <= (5#4) * 1000)%Q.
Proof.
  apply (jittered_delay_bounds 1000 (1#2)); vm_compute; congruence.
Defined.

(** A positive raw delay gives a delay that is not [0]; the raw delay [0]
    gives the delay [0]. *)
Lemma jittered_positive (R u : Q) :
  (0 < R)%Q -> (0 <= u)%Q -> Qeq_bool (R + jitter R u) 0 = false.
Proof.
  intros HR Hu. apply not_true_is_false. intros H%Qeq_bool_eq.
  rewrite jittered_factor in H. nra.
Qed.

Lemma jittered_zero (u : Q) : (0 + jitter 0 u == 0)%Q.
Proof. unfold jitter. ring. Qed.

(** ** Classification of decoded records *)

(** C8, as the code has it: for every decoded record (a parsed object),
    [_write] goes through text, delete, scrub_geo, limit, status_withheld,
    user_withheld, disconnect, warning in this order, emits exactly one
    event, that of the first field whose value is truthy, and emits nothing
    when none of the eight fields has a truthy value. *)
Theorem write_classifies_by_truthiness (fields : list (string * JSON)) (w : World) :
  _write (JObject fields) w
  = Returned tt (with_log (fun l => l ++ emitted (classify_by_truthiness (JObject fields))) w)
    /\ (length (emitted (classify_by_truthiness (JObject fields))) <= 1)%nat.
Proof.
  unfold classify_by_truthiness, priority, first_match, _write.
  repeat (destruct (truthy _); [split; [reflexivity | simpl; lia]|]).
  split; [|simpl; lia].
  unfold ret, with_log; simpl. rewrite app_nil_r. now destruct w.
Qed.

(** C8 as stated fails: a record whose [text] field is present but empty is
    classified as a tweet by presence, and [_write] emits nothing for it. *)
Lemma write_present_falsy_text :
  classify_by_presence (JObject [("text", JString "")])
  = Some (tweet (JObject [("text", JString "")]))
  /\ _write (JObject [("text", JString "")]) new_Twitter = Returned tt new_Twitter
  /\ _write (JObject [("text", JString "")]) new_Twitter
     <> Returned tt
          (with_log (fun l => l ++ emitted (classify_by_presence (JObject [("text", JString "")])))
             new_Twitter).
Proof.
  split; [reflexivity|]. split; [reflexivity|]. discriminate.
Qed.

(** Numbers, strings, booleans and arrays have none of the eight fields. *)
Lemma write_non_object (data : JSON) (w : World) :
  match data with JNull | JObject _ => False | _ => True end ->
  _write data w = Returned tt w.
Proof. destruct data; simpl; intros []; reflexivity. Qed.

(** ** Keyword objects *)

Lemma own_update_eq (ps : list (string * JsNumber)) (k : string) (n : JsNumber) :
  own (update ps k n) k = Some n.
Proof.
  induction ps as [|[k' n'] ps IH]; simpl.
  - now rewrite String.eqb_refl.
  - destruct (String.eqb_spec k' k) as [->|Hne]; simpl.
    + now rewrite String.eqb_refl.
    + destruct (String.eqb_spec k' k); [contradiction | exact IH].
Qed.

Lemma own_update_ne (ps : list (string * JsNumber)) (k j : string) (n : JsNumber) :
  k <> j -> own (update ps k n) j = own ps j.
Proof.
  intros Hne. induction ps as [|[k' n'] ps IH]; simpl.
  - destruct (String.eqb_spec k j); [contradiction | reflexivity].
  - destruct (String.eqb_spec k' k) as [->|Hk]; simpl.
    + destruct (String.eqb_spec k j); [contradiction | reflexivity].
    + destruct (String.eqb_spec k' j); [reflexivity | exact IH].
Qed.

(** Assigning the number a property already has changes nothing. *)
Lemma update_own (ps : list (string * JsNumber)) (k : string) (n : JsNumber) :
  own ps k = Some n -> update ps k n = ps.
Proof.
  induction ps as [|[k' n'] ps IH]; simpl; [discriminate|].
  destruct (String.eqb_spec k' k) as [->|Hk].
  - now intros [= ->].
  - intros H. now rewrite IH.
Qed.

Lemma update_update (ps : list (string * JsNumber)) (k : string) (n n' : JsNumber) :
  update (update ps k n') k n = update ps k n.
Proof.
  induction ps as [|[k' c] ps IH]; simpl.
  - now rewrite String.eqb_refl.
  - destruct (String.eqb_spec k' k) as [->|Hk]; simpl.
    + now rewrite String.eqb_refl.
    + destruct (String.eqb_spec k' k); [contradiction|]. now rewrite IH.
Qed.

Lemma own_filter_eq (ps : list (string * JsNumber)) (k : string) :
  own (List.filter (fun p => negb (String.eqb (fst p) k)) ps) k = None.
Proof.
  induction ps as [|[k' n'] ps IH]; simpl; [reflexivity|].
  destruct (String.eqb_spec k' k) as [->|Hk]; simpl; [exact IH|].
  destruct (String.eqb_spec k' k); [contradiction | exact IH].
Qed.

Lemma own_filter_ne (ps : list (string * JsNumber)) (k j : string) :
  k <> j -> own (List.filter (fun p => negb (String.eqb (fst p) k)) ps) j = own ps j.
Proof.
  intros Hne. induction ps as [|[k' n'] ps IH]; simpl; [reflexivity|].
  destruct (String.eqb_spec k' k) as [->|Hk]; simpl.
  - destruct (String.eqb_spec k j); [contradiction | exact IH].
  - destruct (String.eqb_spec k' j); [reflexivity | exact IH].
Qed.

(** Deleting a property that was created last, on an object that had none
    of that name, gives the object back. *)
Lemma filter_update_absent (ps : list (string * JsNumber)) (k : string) (n : JsNumber) :
  own ps k = None ->
  List.filter (fun p => negb (String.eqb (fst p) k)) (update ps k n) = ps.
Proof.
  induction ps as [|[k' n'] ps IH]; simpl.
  - now rewrite String.eqb_refl.
  - destruct (String.eqb_spec k' k) as [->|Hk]; [discriminate|]. simpl.
    destruct (String.eqb_spec k' k); [contradiction|]. simpl. intros H. now rewrite IH.
Qed.

Lemma own_names (ps : list (string * JsNumber)) (k : string) :
  In k ps.*1 <-> is_Some (own ps k).
Proof.
  induction ps as [|[k' n'] ps IH]; simpl.
  - split; [intros [] | intros [? [=]]].
  - destruct (String.eqb_spec k' k) as [->|Hk].
    + split; [eauto | now left].
    + rewrite <- IH. split; [intros [H|H]; [contradiction | exact H] | now right].
Qed.

Lemma lookup_empty_object (k : string) : (∅ : Object) !! k = None.
Proof. reflexivity. Qed.

Lemma lookup_set_property_ne (k j : string) (n : JsNumber) (o : Object) :
  k <> j -> set_property k n o !! j = o !! j.
Proof.
  intros Hne. unfold set_property. destruct (_ && _); [reflexivity|].
  apply own_update_ne, Hne.
Qed.

Lemma lookup_set_property_eq (k : string) (n : JsNumber) (o : Object) :
  String.eqb k "__proto__" && negb (bool_decide (is_Some (o !! k))) = false ->
  set_property k n o !! k = Some n.
Proof. intros H. unfold set_property. rewrite H. apply own_update_eq. Qed.

Lemma lookup_delete_property_eq (k : string) (o : Object) : delete_property k o !! k = None.
Proof. apply own_filter_eq. Qed.

Lemma lookup_delete_property_ne (k j : string) (o : Object) :
  k <> j -> delete_property k o !! j = o !! j.
Proof. apply own_filter_ne. Qed.

Lemma ordinary_assignable (k : string) (o : Object) :
  ordinary k -> String.eqb k "__proto__" && negb (bool_decide (is_Some (o !! k))) = false.
Proof.
  intros H. destruct (String.eqb_spec k "__proto__") as [->|_]; [discriminate | reflexivity].
Qed.


Lemma get_property_ordinary (o : Object) (k : string) :
  ordinary k ->
  get_property o k = match o !! k with Some n => number n | None => undefined end.
Proof. intros H. unfold get_property. now rewrite H. Qed.

Lemma update_NoDup (ps : list (string * JsNumber)) (k : string) (n : JsNumber) :
  NoDup ps.*1 -> NoDup (update ps k n).*1.
Proof.
  induction ps as [|[k' n'] ps IH]; simpl; intros H.
  - apply NoDup_singleton.
  - apply NoDup_cons in H as [Hk' H].
    destruct (String.eqb_spec k' k) as [->|Hne]; simpl.
    + now apply NoDup_cons.
    + apply NoDup_cons. split; [|now apply IH].
      rewrite list_elem_of_In, own_names, own_update_ne by congruence.
      now rewrite <- own_names, <- list_elem_of_In.
Qed.

Lemma filter_NoDup (ps : list (string * JsNumber)) (k : string) :
  NoDup ps.*1 -> NoDup (List.filter (fun p => negb (String.eqb (fst p) k)) ps).*1.
Proof.
  induction ps as [|[k' n'] ps IH]; simpl; intros H; [exact H|].
  apply NoDup_cons in H as [Hk' H].
  destruct (String.eqb_spec k' k) as [->|Hne]; simpl; [now apply IH|].
  apply NoDup_cons. split; [|now apply IH].
  rewrite list_elem_of_In, own_names, own_filter_ne by congruence.
  now rewrite <- own_names, <- list_elem_of_In.
Qed.

Lemma set_property_NoDup (k : string) (n : JsNumber) (o : Object) :
  NoDup (properties o).*1 -> NoDup (properties (set_property k n o)).*1.
Proof.
  intros H. unfold set_property. destruct (_ && _); [exact H|]. now apply update_NoDup.
Qed.

Lemma remove_dups_NoDup (l : list string) : NoDup l -> remove_dups l = l.
Proof.
  induction l as [|x l IH]; simpl; intros H; [reflexivity|].
  apply NoDup_cons in H as [Hx H].
  destruct (decide_rel elem_of x l); [contradiction|]. now rewrite IH.
Qed.

(** *** [Object.keys] *)

Lemma insert_ascending_Permutation (k : string) (l : list string) :
  Permutation (insert_ascending k l) (k :: l).
Proof.
  induction l as [|k' l IH]; simpl; [reflexivity|].
  destruct (_ <=? _)%N; [reflexivity|].
  rewrite IH. apply perm_swap.
Qed.

Lemma ascending_Permutation (l : list string) : Permutation (ascending l) l.
Proof.
  induction l as [|k l IH]; simpl; [reflexivity|].
  rewrite insert_ascending_Permutation. now constructor.
Qed.

Lemma filter_split_Permutation {A} (f : A -> bool) (l : list A) :
  Permutation (List.filter f l ++ List.filter (fun x => negb (f x)) l) l.
Proof.
  induction l as [|x l IH]; simpl; [reflexivity|].
  destruct (f x); simpl.
  - now constructor.
  - rewrite <- Permutation_middle. now constructor.
Qed.

Lemma keys_Permutation (o : Object) : Permutation (keys o) (remove_dups (properties o).*1).
Proof.
  unfold keys; cbv zeta. rewrite ascending_Permutation. apply filter_split_Permutation.
Qed.

Lemma keys_spec (m : Object) (k : string) : In k (keys m) <-> is_Some (m !! k).
Proof.
  rewrite <- !list_elem_of_In, keys_Permutation, elem_of_remove_dups, list_elem_of_In.
  apply own_names.
Qed.

Lemma keys_NoDup (m : Object) : NoDup (keys m).
Proof. rewrite keys_Permutation. apply NoDup_remove_dups. Qed.

Lemma keys_nil (m : Object) : keys m = [] <-> m = ∅.
Proof.
  split.
  - intros H. destruct m as [[|[k n] ps]]; [reflexivity|]. exfalso.
    assert (Hk : In k (keys {| properties := (k, n) :: ps |})).
    { apply keys_spec. unfold lookup, Object_lookup; simpl. rewrite String.eqb_refl. eauto. }
    rewrite H in Hk. destruct Hk.
  - intros ->. reflexivity.
Qed.

(** An object that is not empty has a property. *)
Lemma object_choose (m : Object) : m <> ∅ -> exists k, is_Some (m !! k).
Proof.
  intros H. destruct (keys m) as [|k l] eqn:E.
  - now apply keys_nil in E.
  - exists k. apply keys_spec. rewrite E. now left.
Qed.

(** ** Filter sets *)

Lemma get_set_kind (filter : Kind) (m : Object) (fs : Filters.t) :
  get_kind filter (set_kind filter m fs) = m.
Proof. now destruct filter. Qed.

Lemma set_set_kind (filter : Kind) (m m' : Object) (fs : Filters.t) :
  set_kind filter m (set_kind filter m' fs) = set_kind filter m fs.
Proof. now destruct filter. Qed.

Lemma get_set_kind_ne (f g : Kind) (m : Object) (fs : Filters.t) :
  f <> g -> get_kind f (set_kind g m fs) = get_kind f fs.
Proof. destruct f, g; simpl; congruence. Qed.

Lemma addFilter_each_eq (filter : Kind) (k : string) (a : bool) (w : World) :
  let m := get_kind filter (_filters (self w)) in
  addFilter_each filter k a w
  = Returned (a || is_fresh m k)
      (with_self (fun t => set_stale (stale t || is_fresh m k) (with_kind filter (add_count m k) t)) w).
Proof.
  cbv zeta. unfold addFilter_each, increment, read, is_fresh, add_count, with_kind, store,
    bind, this, assign, modify, ret.
  destruct w as [[fs st s p t cb icb nb hb rb oe] ts q n l]; simpl.
  destruct (truthy_value (get_property (get_kind filter fs) k)); simpl;
    unfold with_self; simpl; rewrite ?orb_false_r, ?orb_true_r, ?set_set_kind; reflexivity.
Qed.

Lemma forEach_addFilter (filter : Kind) (ks : list string) (a : bool) (w : World) :
  let r := add_all (get_kind filter (_filters (self w))) ks in
  forEach ks (addFilter_each filter) a w
  = Returned (a || snd r)
      (with_self (fun t => set_stale (stale t || snd r) (with_kind filter (fst r) t)) w).
Proof.
  revert a w; induction ks as [|k ks IH]; intros a w; cbv zeta.
  - destruct w as [[fs st s p t cb icb nb hb rb oe] ts q n l]; simpl.
    unfold ret, with_self, with_kind; simpl.
    rewrite !orb_false_r. do 3 f_equal. unfold set_filters; simpl. f_equal.
    destruct filter, fs; reflexivity.
  - simpl. unfold bind at 1. rewrite addFilter_each_eq. cbv zeta. rewrite IH. cbv zeta.
    destruct w as [[fs st s p t cb icb nb hb rb oe] ts q n l]; simpl.
    unfold with_self, with_kind; simpl.
    rewrite !get_set_kind, !set_set_kind, !orb_assoc. reflexivity.
Qed.

Lemma addFilter_eq (filter : Kind) (keywords : Keywords) (r : option bool) (w : World) :
  let a := add_all (get_kind filter (_filters (self w))) (list_of keywords) in
  let w' := with_self (fun t => set_stale (stale t || snd a) (with_kind filter (fst a) t)) w in
  addFilter filter keywords r w
  = Returned tt (if default true r && snd a then reconnected w' else w').
Proof.
  cbv zeta. unfold addFilter; cbv zeta. unfold bind.
  fold (list_of keywords). rewrite forEach_addFilter. cbv zeta. simpl.
  destruct (default true r && _); simpl; [apply reconnect_eq | reflexivity].
Qed.

Lemma removeFilter_eq (filter : Kind) (k : string) (r : option bool) (w : World) :
  let m := get_kind filter (_filters (self w)) in
  removeFilter filter k r w
  = Returned tt
      match decremented m k with
      | None => w
      | Some n =>
          let w' := with_self (with_kind filter (remove_count m k)) w in
          if is_zero n then
            let w'' := with_self (set_stale true) w' in
            if default true r then reconnected w'' else w''
          else w'
      end.
Proof.
  cbv zeta. unfold removeFilter, remove_count, decremented; cbv zeta.
  unfold bind at 1, read at 1, bind at 1, this at 1, ret at 1.
  destruct (is_undefined (get_property (get_kind filter (_filters (self w))) k)); [reflexivity|].
  unfold decrement, read, store, bind, this, assign, modify, when, ret.
  destruct w as [[fs st s p t cb icb nb hb rb oe] ts q n l]; simpl in *.
  destruct (is_zero _); simpl; unfold with_self, with_kind; simpl;
    rewrite ?get_set_kind, ?set_set_kind; [|reflexivity].
  destruct (default true r); [apply reconnect_eq | reflexivity].
Qed.






(** An ordinary keyword never seen before is fresh, a stored one is not. *)
Lemma is_fresh_represents (m : Object) (n : string -> nat) (k : string) :
  represents m n -> ordinary k -> is_fresh m k = (n k =? 0)%nat.
Proof.
  intros H Hk. unfold is_fresh. rewrite (get_property_ordinary _ _ Hk), (H k Hk).
  destruct (n k); simpl; [reflexivity|].
  now destruct (Z.eqb_spec (Z.pos (Pos.of_succ_nat n0)) 0).
Qed.

Lemma reconnected_filters (w : World) : _filters (self (reconnected w)) = _filters (self w).
Proof.
  unfold reconnected, connected, aborted.
  destruct (stale (self w)); [|reflexivity].
  destruct (bool_decide _); simpl; destruct (hasFilters _); reflexivity.
Qed.

Lemma addFilter_filters (filter : Kind) (keywords : Keywords) (r : option bool) (w : World) :
  exists w', addFilter filter keywords r w = Returned tt w'
    /\ forall g, get_kind g (_filters (self w'))
         = if decide (g = filter)
           then fst (add_all (get_kind filter (_filters (self w))) (list_of keywords))
           else get_kind g (_filters (self w)).
Proof.
  eexists; split; [apply addFilter_eq|]. cbv zeta. intros g.
  destruct (default true r && _); rewrite ?reconnected_filters; simpl;
    (case_decide; [subst; apply get_set_kind | now apply get_set_kind_ne]).
Qed.

Lemma removeFilter_filters (filter : Kind) (k : string) (r : option bool) (w : World) :
  exists w', removeFilter filter k r w = Returned tt w'
    /\ forall g, get_kind g (_filters (self w'))
         = if decide (g = filter)
           then remove_count (get_kind filter (_filters (self w))) k
           else get_kind g (_filters (self w)).
Proof.
  eexists; split; [apply removeFilter_eq|]. cbv zeta. intros g.
  unfold remove_count.
  destruct (decremented (get_kind filter (_filters (self w))) k) as [c|] eqn:E.
  - destruct (is_zero c); [destruct (default true r)|];
      rewrite ?reconnected_filters; simpl;
      (case_decide; [subst; apply get_set_kind | now apply get_set_kind_ne]).
  - case_decide; subst; reflexivity.
Qed.





(** ** One reconnect per add call *)

Lemma positive_ordinary (m : Object) (k : string) (v : JsNumber) :
  positive_counts m -> ordinary k -> m !! k = Some v -> exists c, v = num c /\ (0 < c)%Z.
Proof.
  intros H Hk E. specialize (H k v E). destruct v as [c|]; [eauto|].
  unfold ordinary in Hk. congruence.
Qed.

Lemma positive_set_property (m : Object) (k : string) (v : JsNumber) :
  positive_counts m ->
  match v with num c => (0 < c)%Z | NaN => inherited k = true end ->
  positive_counts (set_property k v m).
Proof.
  intros H Hv j n. destruct (decide (k = j)) as [<-|Hne].
  - unfold set_property. destruct (_ && _) eqn:G; [apply H|].
    change ({| properties := update (properties m) k v |} !! k) with (own (update (properties m) k v) k).
    rewrite own_update_eq. now intros [= <-].
  - rewrite lookup_set_property_ne by exact Hne. apply H.
Qed.

Lemma positive_delete_property (m : Object) (k : string) :
  (forall j n, k <> j -> m !! j = Some n ->
     match n with num c => (0 < c)%Z | NaN => inherited j = true end) ->
  positive_counts (delete_property k m).
Proof.
  intros H j n. destruct (decide (k = j)) as [<-|Hne].
  - now rewrite lookup_delete_property_eq.
  - rewrite lookup_delete_property_ne by exact Hne. now apply H.
Qed.


Lemma positive_remove_count (m : Object) (k : string) :
  positive_counts m -> positive_counts (remove_count m k).
Proof.
  intros H. unfold remove_count, decremented, get_property.
  destruct (m !! k) as [[c|]|] eqn:E; simpl.
  - specialize (H k _ E) as Hc. simpl in Hc.
    destruct (Z.eqb_spec (c + -1) 0).
    + apply positive_delete_property. intros j n Hne.
      rewrite lookup_set_property_ne by exact Hne. apply H.
    + apply positive_set_property; [exact H | lia].
  - specialize (H k _ E) as Hc. simpl in Hc. now apply positive_set_property.
  - destruct (inherited k) eqn:Hk; simpl; [|exact H]. now apply positive_set_property.
Qed.

Lemma positive_empty : positive_counts ∅.
Proof. intros k c. rewrite lookup_empty_object. discriminate. Qed.

Lemma is_fresh_absent (m : Object) (k : string) :
  positive_counts m -> ordinary k -> is_fresh m k = absent m k.
Proof.
  intros H Hk. unfold is_fresh, absent. rewrite (get_property_ordinary _ _ Hk).
  destruct (m !! k) as [v|] eqn:E.
  - destruct (positive_ordinary m k v H Hk E) as (c & -> & Hc).
    rewrite bool_decide_eq_false_2 by discriminate. simpl.
    destruct (Z.eqb_spec c 0); [lia | reflexivity].
  - now rewrite bool_decide_eq_true_2.
Qed.





Lemma hasFilters_stored (filter : Kind) (k : string) (t : Twitter) :
  is_Some (get_kind filter (_filters t) !! k) -> hasFilters t = true.
Proof.
  intros H%keys_spec.
  assert (L : (0 <? length (keys (get_kind filter (_filters t))))%nat = true).
  { destruct (keys _); [contradiction | reflexivity]. }
  unfold hasFilters, tracking, locations, following, languages.
  destruct filter; rewrite L, ?orb_true_r; reflexivity.
Qed.

Lemma form_filters (t t' : Twitter) : _filters t = _filters t' -> form t = form t'.
Proof. unfold form. now intros ->. Qed.






(** ** Connecting *)

(** [hasFilters()] is false exactly when all four kinds are empty. *)
Lemma hasFilters_false (t : Twitter) : hasFilters t = false <-> all_empty (_filters t).
Proof.
  unfold hasFilters, tracking, locations, following, languages, all_empty, get_kind.
  rewrite !orb_false_iff, !Nat.ltb_ge, <- !keys_nil.
  assert (L : forall l : list string, (length l <= 0)%nat <-> l = []).
  { intros [|x l]; simpl; split; (lia || discriminate || reflexivity). }
  rewrite !L. tauto.
Qed.

(** C2, as the code has it: [connect()] always clears [stale].  With all
    four filter kinds empty it does nothing else: no request is posted and
    the rest of the state is unchanged.  With at least one kind non-empty it
    posts one request whose form holds, for each kind, the keywords of that
    kind joined by commas, the empty string for an empty kind. *)
Theorem connect_clears_stale_and_posts (w : World) :
  exists w', connect w = Returned tt w'
    /\ stale (self w') = false
    /\ _filters (self w') = _filters (self w)
    /\ (if bool_decide (all_empty (_filters (self w))) then
          w' = with_self (set_stale false) w /\ log w' = log w
        else
          log w' = log w ++ [Post (fresh w) (form (self w))]
          /\ stream (self w') = Some (fresh w))
    /\ forall filter,
         form_field filter (form (self w))
         = match keys (get_kind filter (_filters (self w))) with
           | [] => ""%string
           | k :: ks => String.concat "," (k :: ks)
           end.
Proof.
  exists (connected w). split; [apply connect_eq|].
  unfold connected. split; [|split; [|split]].
  - destruct (hasFilters (self w)); reflexivity.
  - destruct (hasFilters (self w)); reflexivity.
  - case_bool_decide as He.
    + apply hasFilters_false in He. rewrite He. split; reflexivity.
    + destruct (hasFilters (self w)) eqn:Hf; [split; reflexivity|].
      now apply hasFilters_false in Hf.
  - intros []; simpl; destruct (keys _); reflexivity.
Qed.

(** C2 as stated fails: on an instance that is stale and has no filters,
    which two calls produce, [connect()] posts nothing but clears [stale]. *)
Lemma connect_without_filters_clears_stale :
  invoke_all [AddFilter FILTER_TYPE_TRACKING (keyword "a") (Some false);
              RemoveFilter FILTER_TYPE_TRACKING "a" (Some false)] new_Twitter
  = Returned tt stale_without_filters
  /\ all_empty (_filters (self stale_without_filters))
  /\ hasFilters (self stale_without_filters) = false
  /\ stale (self stale_without_filters) = true
  /\ connect stale_without_filters = Returned tt new_Twitter
  /\ connect stale_without_filters <> Returned tt stale_without_filters.
Proof.
  repeat split; try reflexivity. discriminate.
Qed.

(** ** Failures and retries *)

Lemma retry_tail_eq (cb : Callback) (type : string) (explain : option Explanation) (d : Q) (w : World) :
  (let! pending := this connectBackoff in
   when (Qeq_bool pending 0)
     (assign (set_connectBackoff d) >>
      let! _ := setTimeout cb d in ret tt) >>
   let! delay := this connectBackoff in
   emit (reconnect_ type explain delay)) w
  = Returned tt (retry_scheduled cb type explain d w).
Proof.
  unfold retry_scheduled, bind, this, when, assign, setTimeout, new_id, emit, effect, modify, ret, bind.
  destruct w as [[fs st s p t cb' icb nb hb rb oe] ts q n l]; simpl.
  destruct (Qeq_bool cb' 0); simpl; unfold with_log; simpl; rewrite <- ?app_assoc; reflexivity.
Qed.

Lemma on_error_eq (u : Q) (w : World) :
  on_error u w
  = match next (networkBackoff (self w)) with
    | inl e => Thrown e (aborted w)
    | inr (v, b) =>
        Returned tt (retry_scheduled error_retry "network" None (jittered v u)
                       (with_self (set_networkBackoff b) (aborted w)))
    end.
Proof.
  unfold on_error. unfold bind at 1. rewrite abort_eq.
  unfold bind at 1, call. change (networkBackoff (self (aborted w))) with (networkBackoff (self w)).
  destruct (next (networkBackoff (self w))) as [e|[v b]]; [reflexivity|].
  cbv zeta. apply retry_tail_eq.
Qed.

Lemma on_response_420_eq (u : Q) (w : World) :
  on_response 420 u w
  = match next (rateBackoff (self w)) with
    | inl e => Thrown e w
    | inr (v, b) =>
        Returned tt (retry_scheduled response_retry "rate-limit" (errorExplanation 420) (jittered v u)
                       (aborted (with_self (set_rateBackoff b) w)))
    end.
Proof.
  unfold on_response. cbn [Z.eqb Pos.eqb orb].
  unfold bind at 1, call.
  destruct (next (rateBackoff (self w))) as [e|[v b]]; [reflexivity|].
  unfold bind at 1. rewrite abort_eq. cbv zeta. apply retry_tail_eq.
Qed.

Lemma on_response_503_eq (u : Q) (w : World) :
  on_response 503 u w
  = match next (httpBackoff (self w)) with
    | inl e => Thrown e w
    | inr (v, b) =>
        Returned tt (retry_scheduled response_retry "service-unavailable" (errorExplanation 503)
                       (jittered v u) (aborted (with_self (set_httpBackoff b) w)))
    end.
Proof.
  unfold on_response. cbn [Z.eqb Pos.eqb orb].
  unfold bind at 1, call.
  destruct (next (httpBackoff (self w))) as [e|[v b]]; [reflexivity|].
  unfold bind at 1. rewrite abort_eq. cbv zeta. apply retry_tail_eq.
Qed.

Lemma on_response_200_eq (u : Q) (w : World) :
  on_response 200 u w = Returned tt (streaming w).
Proof.
  unfold on_response. cbn [Z.eqb Pos.eqb orb Z.gtb Z.compare Pos.compare Pos.compare_cont].
  unfold streaming, backoffs, bind, assign, emit, effect, setTimeout, new_id, modify, ret.
  destruct w as [[fs st s p t cb' icb nb hb rb oe] ts q n l]; simpl.
  unfold with_log; simpl. rewrite <- !app_assoc. reflexivity.
Qed.

Lemma retry_scheduled_backoffs (cb : Callback) (type : string) (explain : option Explanation)
    (d : Q) (w : World) :
  networkBackoff (self (retry_scheduled cb type explain d w)) = networkBackoff (self w)
  /\ httpBackoff (self (retry_scheduled cb type explain d w)) = httpBackoff (self w)
  /\ rateBackoff (self (retry_scheduled cb type explain d w)) = rateBackoff (self w).
Proof. unfold retry_scheduled. destruct (Qeq_bool _ 0); repeat split. Qed.

(** C5: a response with status 200 puts the three backoff closures back to
    their initial values (network: 0, step [x + 250], ceiling 16000;
    http-error: 1000, step [x * 2], ceiling 320000; rate-limit: 1000, step
    [x * 2], ceiling 2147483647).  After a network failure, which advances
    the network sequence, and a successful connection, the next network
    failure draws the raw delay 0, and its jittered delay is 0. *)
Theorem success_resets_backoffs (w w1 : World) (u1 u2 u3 : Q) :
  on_error u1 w = Returned tt w1 ->
  exists w2 w3,
    on_response 200 u2 w1 = Returned tt w2
    /\ on_error u3 w2 = Returned tt w3
    /\ networkBackoff (self w1) = advance (networkBackoff (self w))
    /\ networkBackoff (self w2) = backoff 0 16000 (fun x => x + 250)%Z
    /\ httpBackoff (self w2) = backoff 1000 320000 (fun x => x * 2)%Z
    /\ rateBackoff (self w2) = backoff 1000 2147483647 (fun x => x * 2)%Z
    /\ next (networkBackoff (self w2)) = inr (0%Z, advance (networkBackoff (self w2)))
    /\ w3 = retry_scheduled error_retry "network" None (jittered 0 u3)
              (with_self (set_networkBackoff (advance (networkBackoff (self w2)))) (aborted w2))
    /\ (jittered 0 u3 == 0)%Q.
Proof.
  intros E1. rewrite on_error_eq in E1.
  destruct (next_cases (networkBackoff (self w))) as [[_ N]|[_ N]]; rewrite N in E1; [|discriminate].
  injection E1 as <-.
  do 2 eexists. split; [apply on_response_200_eq|].
  split; [rewrite on_error_eq; reflexivity|].
  split; [apply retry_scheduled_backoffs|].
  split; [reflexivity|]. split; [reflexivity|]. split; [reflexivity|].
  split; [reflexivity|]. split; [reflexivity|].
  unfold jittered. apply jittered_zero.
Qed.

Lemma success_resets_backoffs_witness :
  exists w1 w2 w3,
    on_error (1#2) new_Twitter = Returned tt w1
    /\ current (networkBackoff (self w1)) = 250%Z
    /\ on_response 200 0 w1 = Returned tt w2
    /\ on_error (1#2) w2 = Returned tt w3
    /\ next (networkBackoff (self w2)) = inr (0%Z, advance (networkBackoff (self w2))).
Proof.
  assert (E1 : exists w1, on_error (1#2) new_Twitter = Returned tt w1
                 /\ current (networkBackoff (self w1)) = 250%Z).
  { eexists. split; [vm_compute; reflexivity | reflexivity]. }
  destruct E1 as (w1 & E1 & C).
  destruct (success_resets_backoffs new_Twitter w1 (1#2) 0 (1#2) E1)
    as (w2 & w3 & E2 & E3 & _ & _ & _ & _ & N & _).
  exists w1, w2, w3. auto.
Defined.

(** ** Coalescing of retry timers *)

Lemma removeAllFilters_eq (filter : Kind) (r : option bool) (w : World) :
  removeAllFilters filter r w = Returned tt (removedAll filter r w).
Proof.
  unfold removeAllFilters, removedAll; cbv zeta.
  unfold bind, this, assign, modify, when, with_kind; simpl.
  destruct (default true r); [apply reconnect_eq | reflexivity].
Qed.

Lemma calm_refl (w : World) : calm w w.
Proof. repeat split. exists []. now rewrite app_nil_r. Qed.

Lemma calm_trans (w1 w2 w3 : World) : calm w1 w2 -> calm w2 w3 -> calm w1 w3.
Proof.
  intros (C & (N & H & R) & T & l & L & Lt & Lr) (C' & (N' & H' & R') & T' & l' & L' & Lt' & Lr').
  repeat split; try congruence.
  exists (l ++ l'). rewrite L', L, <- app_assoc. split; [reflexivity|].
  unfold retry_timers, reconnects in *. now rewrite !flat_map_app, Lt, Lr, Lt', Lr'.
Qed.

Lemma abort_effects_calm (t : Twitter) :
  retry_timers (abort_effects t) = [] /\ reconnects (abort_effects t) = [].
Proof. unfold abort_effects. destruct (parser t), (timeout t), (stream t); split; reflexivity. Qed.

Lemma calm_aborted (w : World) : calm w (aborted w).
Proof.
  repeat split. exists (abort_effects (self w)). split; [reflexivity|]. apply abort_effects_calm.
Qed.

Lemma calm_connected (w : World) : calm w (connected w).
Proof.
  unfold connected. destruct (hasFilters (self w)).
  - repeat split. eexists. split; [reflexivity|]. split; reflexivity.
  - repeat split. exists []. simpl. now rewrite app_nil_r.
Qed.

Lemma calm_reconnected (w : World) : calm w (reconnected w).
Proof.
  unfold reconnected. destruct (stale (self w)); [|apply calm_refl].
  destruct (bool_decide _).
  - eapply calm_trans; [apply calm_aborted | apply calm_connected].
  - apply calm_connected.
Qed.

Lemma calm_with_self (f : Twitter -> Twitter) (w : World) :
  (forall t, connectBackoff (f t) = connectBackoff t
             /\ networkBackoff (f t) = networkBackoff t
             /\ httpBackoff (f t) = httpBackoff t
             /\ rateBackoff (f t) = rateBackoff t) ->
  calm w (with_self f w).
Proof.
  intros H. destruct (H (self w)) as (C & N & H' & R).
  repeat split; simpl; auto. exists []. now rewrite app_nil_r.
Qed.

(** No call of the user sets a retry timer or emits a reconnect
    notification, and none throws. *)
Lemma invoke_calm (m : Method) (w : World) :
  exists w', invoke m w = Returned tt w' /\ calm w w'.
Proof.
  destruct m as [filter keywords r|filter k r|filter r| | |]; simpl.
  - eexists; split; [apply addFilter_eq|]. cbv zeta.
    destruct (default true r && _).
    + eapply calm_trans; [|apply calm_reconnected]. now apply calm_with_self.
    + now apply calm_with_self.
  - eexists; split; [apply removeFilter_eq|]. cbv zeta.
    destruct (decremented _ k) as [c|]; [|apply calm_refl].
    assert (C1 : calm w (with_self (with_kind filter
                   (remove_count (get_kind filter (_filters (self w))) k)) w))
      by now apply calm_with_self.
    destruct (is_zero c); [|exact C1].
    assert (C2 : calm w (with_self (set_stale true) (with_self (with_kind filter
                   (remove_count (get_kind filter (_filters (self w))) k)) w)))
      by (eapply calm_trans; [exact C1 | now apply calm_with_self]).
    destruct (default true r); [|exact C2].
    eapply calm_trans; [exact C2 | apply calm_reconnected].
  - eexists; split; [apply removeAllFilters_eq|]. unfold removedAll; cbv zeta.
    destruct (default true r).
    + eapply calm_trans; [|apply calm_reconnected]. now apply calm_with_self.
    + now apply calm_with_self.
  - eexists; split; [apply reconnect_eq | apply calm_reconnected].
  - eexists; split; [apply connect_eq | apply calm_connected].
  - eexists; split; [apply abort_eq | apply calm_aborted].
Qed.

Lemma run_ticks_empty (w : World) : ticks w = [] -> run_ticks w = Returned tt w.
Proof.
  intros E. unfold run_ticks, bind, get, modify. rewrite E. simpl.
  unfold ret, with_ticks. destruct w; simpl in *. now subst.
Qed.

Lemma run_app (l1 l2 : list Input) (w : World) :
  run (l1 ++ l2) w = (run l1 >> run l2) w.
Proof.
  revert w; induction l1 as [|i l1 IH]; intros w; simpl; [reflexivity|].
  unfold bind in *. destruct (turn i w); [apply IH | reflexivity].
Qed.

Lemma run_calls_calm (ms : list Method) (w : World) :
  ticks w = [] -> exists w', run (map Call ms) w = Returned tt w' /\ calm w w'.
Proof.
  revert w; induction ms as [|m ms IH]; intros w T; simpl.
  - exists w. split; [reflexivity | apply calm_refl].
  - destruct (invoke_calm m w) as (w1 & E1 & C1).
    assert (T1 : ticks w1 = []) by (destruct C1 as (_ & _ & -> & _); exact T).
    destruct (IH w1 T1) as (w' & E' & C').
    exists w'. split; [|eapply calm_trans; eauto].
    unfold bind, turn, bind. simpl handle. rewrite E1, run_ticks_empty by exact T1. exact E'.
Qed.

Lemma inject_Z_pos (z : Z) : (0 < z)%Z -> (0 < inject_Z z)%Q.
Proof. intros H. unfold Qlt; simpl. lia. Qed.

(** One response with status 420 whose draw from the rate-limit sequence
    succeeds: the retry timer is set only if [connectBackoff] is [0], the
    notification is emitted in both cases. *)
Lemma response_420_turn (w : World) (u : Q) :
  let b := rateBackoff (self w) in
  ticks w = [] -> (current b <= max b)%Z ->
  exists w' l,
    turn (Response 420 u) w = Returned tt w'
    /\ ticks w' = []
    /\ rateBackoff (self w') = advance b
    /\ log w' = log w ++ l
    /\ if Qeq_bool (connectBackoff (self w)) 0 then
         connectBackoff (self w') = jittered (current b) u
         /\ retry_timers l = [(fresh w, jittered (current b) u)]
         /\ reconnects l = [("rate-limit"%string, jittered (current b) u)]
       else
         connectBackoff (self w') = connectBackoff (self w)
         /\ retry_timers l = []
         /\ reconnects l = [("rate-limit"%string, connectBackoff (self w))].
Proof.
  cbv zeta. intros T Hle.
  unfold turn, bind. simpl handle. rewrite on_response_420_eq.
  destruct (next_cases (rateBackoff (self w))) as [[_ N]|[Hgt _]]; [rewrite N | lia].
  unfold retry_scheduled.
  change (connectBackoff (self (aborted (with_self (set_rateBackoff (advance (rateBackoff (self w)))) w))))
    with (connectBackoff (self w)).
  pose proof (abort_effects_calm (self w)) as [At Ar].
  destruct (Qeq_bool (connectBackoff (self w)) 0).
  - rewrite run_ticks_empty by exact T.
    eexists. exists (abort_effects (self w)
                     ++ [SetTimeout (fresh w) response_retry (jittered (current (rateBackoff (self w))) u);
                         Emit (reconnect_ "rate-limit" (errorExplanation 420)
                                 (jittered (current (rateBackoff (self w))) u))]).
    split; [reflexivity|]. split; [exact T|]. split; [reflexivity|].
    split; [simpl; now rewrite <- app_assoc|].
    split; [reflexivity|].
    unfold retry_timers, reconnects in *. rewrite !flat_map_app, At, Ar. split; reflexivity.
  - rewrite run_ticks_empty by exact T.
    eexists. exists (abort_effects (self w)
                     ++ [Emit (reconnect_ "rate-limit" (errorExplanation 420) (connectBackoff (self w)))]).
    split; [reflexivity|]. split; [exact T|]. split; [reflexivity|].
    split; [simpl; now rewrite <- app_assoc|].
    split; [reflexivity|].
    unfold retry_timers, reconnects in *. rewrite !flat_map_app, At, Ar. split; reflexivity.
Qed.

(** ** Network failures *)

(** One network failure whose draw from the network sequence succeeds: the
    request is aborted and the notification is emitted in both cases; the
    retry timer is set only if [connectBackoff] is [0]. *)
Lemma network_failure_turn (w : World) (u : Q) :
  let b := networkBackoff (self w) in
  ticks w = [] -> (current b <= max b)%Z ->
  exists w',
    turn (RequestError u) w = Returned tt w'
    /\ stream (self w') = None
    /\ networkBackoff (self w') = advance b
    /\ log w' = log w ++ abort_effects (self w) ++
         if Qeq_bool (connectBackoff (self w)) 0 then
           [SetTimeout (fresh w) error_retry (jittered (current b) u);
            Emit (reconnect_ "network" None (jittered (current b) u))]
         else [Emit (reconnect_ "network" None (connectBackoff (self w)))].
Proof.
  cbv zeta. intros T Hle.
  unfold turn, bind. simpl handle. rewrite on_error_eq.
  destruct (next_cases (networkBackoff (self w))) as [[_ N]|[Hgt _]]; [rewrite N | lia].
  unfold retry_scheduled.
  change (connectBackoff (self (with_self (set_networkBackoff (advance (networkBackoff (self w))))
                                  (aborted w))))
    with (connectBackoff (self w)).
  destruct (Qeq_bool (connectBackoff (self w)) 0);
    rewrite run_ticks_empty by exact T;
    eexists; (split; [reflexivity|]); (split; [reflexivity|]); (split; [reflexivity|]);
    simpl; now rewrite <- app_assoc.
Qed.

(** When the timer set by the ['error'] handler fires, [connectBackoff]
    keeps its value: the callback assigns [inConnectBackoff]. *)
Lemma error_retry_keeps_guard (w : World) (id : nat) :
  find_timer id (timers w) = Some error_retry ->
  exists w', fire id w = Returned tt w'
    /\ connectBackoff (self w') = connectBackoff (self w)
    /\ inConnectBackoff (self w') = Some 0%Q.
Proof.
  intros F. unfold fire, bind, get. rewrite F. unfold modify. simpl run_callback.
  unfold bind, assign, modify. rewrite connect_eq.
  eexists; split; [reflexivity|]. unfold connected; simpl.
  destruct (hasFilters _); split; reflexivity.
Qed.

(** When the timer set by the ['response'] handler fires, [connectBackoff]
    is [0] again. *)
Lemma response_retry_clears_guard (w : World) (id : nat) :
  find_timer id (timers w) = Some response_retry ->
  exists w', fire id w = Returned tt w' /\ connectBackoff (self w') = 0%Q.
Proof.
  intros F. unfold fire, bind, get. rewrite F. unfold modify. simpl run_callback.
  unfold bind, assign, modify. rewrite connect_eq.
  eexists; split; [reflexivity|]. unfold connected; simpl.
  destruct (hasFilters _); reflexivity.
Qed.

(** C1 fails on the code: a client that tracks one keyword meets three
    network failures, each after the previous retry timer has fired and a
    new request was posted.  The first two failures set a retry timer (with
    delays 0 and 250, for the draw 1/2).  When the third failure arrives no
    timer is pending, yet it sets none: it only aborts the request and emits
    the notification, so the client is left without a request and without a
    retry. *)
Theorem network_retry_not_rescheduled :
  exists w2 w3,
    run [Call (AddFilter FILTER_TYPE_TRACKING (keyword "a") None);
         RequestError (1#2); Timer 1; RequestError (1#2); Timer 3] new_Twitter
    = Returned tt w2
    /\ retry_timers (log w2) = [(1%nat, jittered 0 (1#2)); (3%nat, jittered 250 (1#2))]
    /\ timers w2 = []
    /\ stream (self w2) = Some 4%nat
    /\ turn (RequestError (1#2)) w2 = Returned tt w3
    /\ log w3 = log w2 ++ [StreamAbort 4; Emit (reconnect_ "network" None (jittered 250 (1#2)))]
    /\ timers w3 = []
    /\ stream (self w3) = None.
Proof.
  do 2 eexists. split; [vm_compute; reflexivity|].
  split; [vm_compute; reflexivity|].
  split; [reflexivity|]. split; [reflexivity|].
  split; [vm_compute; reflexivity|].
  split; [vm_compute; reflexivity|].
  split; reflexivity.
Qed.

(** ** The stall watchdog *)

(** C9: when the stall timer fires, the request is aborted, a reconnect
    notification with reason stall and delay 0 is emitted, and [connect()]
    runs from the [process.nextTick] queue as soon as the handler has
    returned, whatever the value of [stale]: with a filter set, a new request
    is posted even when [stale] is false, whereas [reconnect()] does nothing
    when [stale] is false. *)
Theorem stall_forces_reconnect (w : World) (id : nat) :
  find_timer id (timers w) = Some close ->
  ticks w = [] ->
  exists w',
    turn (Timer id) w = Returned tt w'
    /\ log w' = log w ++ abort_effects (self w)
                ++ [NextTick bound_connect; Emit (reconnect_ "stall" None 0)]
                ++ (if hasFilters (self w) then [Post (fresh w) (form (self w))] else [])
    /\ (forall s, stream (self w) = Some s -> In (StreamAbort s) (abort_effects (self w)))
    /\ stream (self w') = (if hasFilters (self w) then Some (fresh w) else None)
    /\ stale (self w') = false
    /\ ticks w' = []
    /\ (stale (self w) = false -> reconnect w = Returned tt w).
Proof.
  intros F T.
  unfold turn, bind at 1. simpl handle. unfold fire, bind at 1, get. rewrite F.
  unfold bind at 1, modify. simpl run_callback. unfold bind at 1. rewrite abort_eq.
  unfold bind at 1, nextTick, bind at 1, modify, effect, modify, emit, effect, modify.
  unfold run_ticks, bind at 1, get, bind at 1, modify. simpl ticks. rewrite T. simpl run_each.
  unfold bind at 1. rewrite connect_eq. unfold ret.
  eexists. split; [reflexivity|].
  unfold connected.
  change (hasFilters (self _)) with (hasFilters (self w)).
  split; [|split; [|split; [|split; [|split]]]].
  - destruct (hasFilters (self w)); simpl; rewrite <- ?app_assoc; reflexivity.
  - intros s E. unfold abort_effects. rewrite E. rewrite !in_app_iff. right; right. now left.
  - destruct (hasFilters (self w)); reflexivity.
  - destruct (hasFilters (self w)); reflexivity.
  - destruct (hasFilters (self w)); reflexivity.
  - intros E. rewrite reconnect_eq. unfold reconnected. now rewrite E.
Qed.

Lemma stall_forces_reconnect_witness :
  exists w0 w',
    run [Call (AddFilter FILTER_TYPE_TRACKING (keyword "a") None); Response 200 0] new_Twitter
    = Returned tt w0
    /\ stale (self w0) = false
    /\ turn (Timer 2) w0 = Returned tt w'
    /\ log w' = log w0
         ++ [ParserDestroy 1; ClearTimeout 2; StreamAbort 0;
             NextTick bound_connect; Emit (reconnect_ "stall" None 0);
             Post 3 {| Form.track := "a"; Form.locations := ""; Form.follow := "";
                       Form.language := "" |}].
Proof.
  assert (E0 : exists w0,
             run [Call (AddFilter FILTER_TYPE_TRACKING (keyword "a") None); Response 200 0] new_Twitter
             = Returned tt w0
             /\ stale (self w0) = false
             /\ find_timer 2 (timers w0) = Some close
             /\ ticks w0 = []
             /\ abort_effects (self w0) = [ParserDestroy 1; ClearTimeout 2; StreamAbort 0]
             /\ hasFilters (self w0) = true
             /\ fresh w0 = 3%nat
             /\ form (self w0) = {| Form.track := "a"; Form.locations := ""; Form.follow := "";
                                    Form.language := "" |}).
  { eexists. split; [vm_compute; reflexivity|]. repeat split. }
  destruct E0 as (w0 & E0 & S0 & F0 & T0 & A0 & H0 & N0 & Fm0).
  destruct (stall_forces_reconnect w0 2 F0 T0) as (w' & E & L & _).
  exists w0, w'. split; [exact E0|]. split; [exact S0|]. split; [exact E|].
  rewrite L, A0, H0, N0, Fm0. reflexivity.
Defined.

(** ** Invariants of the reachable worlds *)

Lemma stable_refl (w : World) : stable w w.
Proof. repeat split. Qed.

Lemma stable_trans (w1 w2 w3 : World) : stable w1 w2 -> stable w2 w3 -> stable w1 w3.
Proof. intros (F & N & H & R & T) (F' & N' & H' & R' & T'). repeat split; congruence. Qed.

Lemma stable_aborted (w : World) : stable w (aborted w).
Proof. repeat split. Qed.

Lemma stable_connected (w : World) : stable w (connected w).
Proof. unfold connected. destruct (hasFilters (self w)); repeat split. Qed.

Lemma stable_reconnected (w : World) : stable w (reconnected w).
Proof.
  unfold reconnected. destruct (stale (self w)); [|apply stable_refl].
  destruct (bool_decide _).
  - eapply stable_trans; [apply stable_aborted | apply stable_connected].
  - apply stable_connected.
Qed.

Lemma stable_retry_scheduled (cb : Callback) (type : string) (explain : option Explanation)
    (d : Q) (w : World) :
  stable w (retry_scheduled cb type explain d w).
Proof. unfold retry_scheduled. destruct (Qeq_bool _ 0); repeat split. Qed.

Lemma sound_stable (w w' : World) : sound w -> stable w w' -> sound w'.
Proof.
  intros (T & P & N & H & R) (F' & N' & H' & R' & T').
  unfold sound. rewrite F', N', H', R', T'. auto.
Qed.

Lemma in_sequence_advance (b0 b : Backoff) :
  in_sequence b0 b -> (forall x, (current b0 <= x)%Z -> (x <= step b0 x)%Z) ->
  in_sequence b0 (advance b).
Proof.
  intros (M & S & C) Hinf. unfold in_sequence, advance; simpl.
  repeat split; auto. rewrite S. specialize (Hinf (current b) C). lia.
Qed.

Lemma in_sequence_next (b0 b b' : Backoff) (v : Z) :
  in_sequence b0 b -> (forall x, (current b0 <= x)%Z -> (x <= step b0 x)%Z) ->
  next b = inr (v, b') -> in_sequence b0 b'.
Proof.
  intros Hb Hinf N. destruct (next_cases b) as [[_ E]|[_ E]]; rewrite E in N; [|discriminate].
  injection N as _ <-. now apply in_sequence_advance.
Qed.

Lemma kept_set_property (m : Object) (k : string) (v : JsNumber) :
  kept m ->
  match v with num c => (0 < c)%Z | NaN => inherited k = true end ->
  kept (set_property k v m).
Proof.
  intros (H & Hp & Hn) Hv. split; [now apply positive_set_property|].
  split; [|now apply set_property_NoDup].
  destruct (String.eqb_spec k "__proto__") as [->|Hne].
  - unfold set_property. rewrite Hp.
    rewrite (bool_decide_eq_false_2 (is_Some None)) by (intros [? [=]]). exact Hp.
  - now rewrite lookup_set_property_ne.
Qed.

Lemma kept_add_count (m : Object) (k : string) : kept m -> kept (add_count m k).
Proof.
  intros Hm. pose proof Hm as (H & Hp & Hn). unfold add_count, get_property.
  destruct (m !! k) as [[c|]|] eqn:E; cbn [truthy_value ToNumber plus].
  - specialize (H k _ E) as Hc. simpl in Hc.
    destruct (Z.eqb_spec c 0); [lia|]. cbn [negb]. apply kept_set_property; [exact Hm | lia].
  - apply kept_set_property; [exact Hm | lia].
  - destruct (inherited k) eqn:Hk; cbn [truthy_value ToNumber plus];
      (apply kept_set_property; [exact Hm|]); [exact Hk | lia].
Qed.

Lemma kept_add_all (ks : list string) (m : Object) : kept m -> kept (fst (add_all m ks)).
Proof.
  revert m; induction ks as [|k ks IH]; intros m H; simpl; [exact H|].
  apply IH, kept_add_count, H.
Qed.

Lemma kept_remove_count (m : Object) (k : string) : kept m -> kept (remove_count m k).
Proof.
  intros Hm. split; [apply positive_remove_count, Hm|].
  destruct Hm as (_ & Hp & Hn). unfold remove_count.
  destruct (decremented m k) as [n|]; [|now split].
  assert (Hs : set_property k n m !! "__proto__" = None).
  { destruct (String.eqb_spec k "__proto__") as [->|Hne].
    - unfold set_property. rewrite Hp.
      rewrite (bool_decide_eq_false_2 (is_Some None)) by (intros [? [=]]). exact Hp.
    - now rewrite lookup_set_property_ne. }
  pose proof (set_property_NoDup k n m Hn) as Hn'.
  destruct (is_zero n); [|now split].
  split; [|now apply filter_NoDup].
  destruct (String.eqb_spec k "__proto__") as [->|Hne].
  - apply lookup_delete_property_eq.
  - now rewrite lookup_delete_property_ne.
Qed.

Lemma kept_empty : kept ∅.
Proof. split; [apply positive_empty|]. split; [reflexivity | apply NoDup_nil_2]. Qed.

(** The calls of the user keep every stored count positive, and store
    nothing under [__proto__]. *)
Lemma invoke_kept (m : Method) (w w' : World) :
  invoke m w = Returned tt w' ->
  (forall filter, kept (get_kind filter (_filters (self w)))) ->
  forall filter, kept (get_kind filter (_filters (self w'))).
Proof.
  intros E P g. destruct m as [filter keywords r|filter k r|filter r| | |]; simpl in E.
  - destruct (addFilter_filters filter keywords r w) as (w1 & E1 & F1).
    rewrite E1 in E. injection E as <-. rewrite F1.
    case_decide; [apply kept_add_all|]; apply P.
  - destruct (removeFilter_filters filter k r w) as (w1 & E1 & F1).
    rewrite E1 in E. injection E as <-. rewrite F1.
    case_decide; [apply kept_remove_count|]; apply P.
  - rewrite removeAllFilters_eq in E. injection E as <-. unfold removedAll; cbv zeta.
    destruct (default true r); rewrite ?reconnected_filters; simpl;
      (destruct (decide (g = filter)) as [->|Hne];
       [rewrite get_set_kind; apply kept_empty
       |rewrite get_set_kind_ne by exact Hne; apply P]).
  - rewrite reconnect_eq in E. injection E as <-. rewrite reconnected_filters. apply P.
  - rewrite connect_eq in E. injection E as <-.
    destruct (stable_connected w) as (-> & _). apply P.
  - rewrite abort_eq in E. injection E as <-. apply P.
Qed.

Lemma on_response_ok_eq (statusCode : Z) (u : Q) (w : World) :
  (statusCode <= 200)%Z -> on_response statusCode u w = Returned tt (streaming w).
Proof.
  intros H. unfold on_response.
  destruct (Z.eqb_spec statusCode 420); [lia|].
  destruct (Z.eqb_spec statusCode 503); [lia|].
  destruct (Z.gtb_spec statusCode 200); [lia|]. cbn [orb].
  rewrite <- (on_response_200_eq u w). unfold on_response.
  cbn [Z.eqb Pos.eqb orb Z.gtb Z.compare Pos.compare Pos.compare_cont]. reflexivity.
Qed.

(** Any other status above 200 ends in an exception, thrown while the
    ['error'] event is emitted. *)
Lemma on_response_fatal (statusCode : Z) (u : Q) (w : World) :
  (200 < statusCode)%Z -> statusCode <> 420%Z -> statusCode <> 503%Z ->
  exists e w', on_response statusCode u w = Thrown e w'
    /\ log w' = log w ++ abort_effects (self w)
                ++ [Emit (error_ "http" statusCode (errorExplanation statusCode))].
Proof.
  intros H H420 H503. unfold on_response.
  destruct (Z.eqb_spec statusCode 420); [contradiction|].
  destruct (Z.eqb_spec statusCode 503); [contradiction|].
  destruct (Z.gtb_spec statusCode 200); [|lia]. cbn [orb].
  unfold bind at 1. rewrite abort_eq.
  unfold emit_error, bind, emit, effect, modify, this, assign, modify, throw.
  simpl. destruct (onceError (self w)); do 2 eexists; (split; [reflexivity|]);
    simpl; now rewrite <- app_assoc.
Qed.

Lemma on_data_stable (w : World) : exists w', on_data w = Returned tt w' /\ stable w w'.
Proof.
  unfold on_data, bind, this, clearTimeout, setTimeout, new_id, assign, effect, modify, bind, ret.
  destruct (timeout (self w)); eexists; (split; [reflexivity|]); repeat split.
Qed.

(** A decoded line never makes the instance throw. *)
Lemma deliver_eq (data : JSON) (w : World) :
  deliver data w
  = Returned tt (with_log (fun l => l ++ emitted (classify_by_truthiness data)) w).
Proof.
  unfold deliver, classify_by_truthiness, priority, first_match, _write, emit, effect, modify, ret.
  destruct data;
    repeat (destruct (truthy _); [reflexivity|]);
    destruct w; unfold with_log; simpl; now rewrite app_nil_r.
Qed.

Lemma deliver_stable (data : JSON) (w : World) :
  stable w (with_log (fun l => l ++ emitted (classify_by_truthiness data)) w).
Proof. repeat split. Qed.

Lemma run_ticks_connect (w : World) :
  ticks w = [bound_connect] ->
  run_ticks w = Returned tt (connected (with_ticks (fun _ => []) w)).
Proof.
  intros E. unfold run_ticks, bind, get, modify. rewrite E. simpl.
  unfold bind. now rewrite connect_eq.
Qed.

(** A timer that fires: either the tick queue is as it was, or the stall
    handler has queued [connect]. *)
Lemma fire_stable (id : nat) (w : World) :
  exists w0 w', fire id w = Returned tt w'
    /\ stable w w0
    /\ _filters (self w') = _filters (self w0)
    /\ networkBackoff (self w') = networkBackoff (self w0)
    /\ httpBackoff (self w') = httpBackoff (self w0)
    /\ rateBackoff (self w') = rateBackoff (self w0)
    /\ (ticks w' = ticks w \/ ticks w' = ticks w ++ [bound_connect]).
Proof.
  unfold fire, bind, get. destruct (find_timer id (timers w)) as [[| | |]|]; simpl;
    unfold modify, bind, assign, modify; rewrite ?connect_eq, ?abort_eq.
  - do 2 eexists. split; [reflexivity|]. split; [apply stable_refl|].
    unfold connected; simpl. destruct (hasFilters _); repeat split; now left.
  - do 2 eexists. split; [reflexivity|]. split; [apply stable_refl|].
    unfold connected; simpl. destruct (hasFilters _); repeat split; now left.
  - unfold nextTick, bind, modify, emit, effect, modify.
    do 2 eexists. split; [reflexivity|]. split; [apply stable_refl|].
    repeat split. now right.
  - do 2 eexists. split; [reflexivity|]. split; [apply stable_refl|].
    unfold connected; simpl. destruct (hasFilters _); repeat split; now left.
  - exists w, w. unfold ret. repeat split. now left.
Qed.

Lemma sound_connected (w : World) : sound w -> sound (connected w).
Proof. intros H. eapply sound_stable; [exact H | apply stable_connected]. Qed.

(** Every turn of the event loop that returns keeps the invariant. *)
Lemma sound_turn (i : Input) (w w' : World) :
  sound w -> turn i w = Returned tt w' -> sound w'.
Proof.
  intros S E. pose proof S as (T & P & N & H & R).
  unfold turn, bind in E. destruct i as [m|statusCode u|u| |data|id]; simpl handle in E.
  - destruct (invoke_calm m w) as (w1 & E1 & C1). rewrite E1 in E.
    pose proof (invoke_kept m w w1 E1 P) as P1.
    destruct C1 as (_ & (N1 & H1 & R1) & T1 & _).
    rewrite run_ticks_empty in E by congruence. injection E as <-.
    unfold sound. rewrite N1, H1, R1, T1. auto.
  - destruct (Z.eq_dec statusCode 420%Z) as [->|H420];
      [|destruct (Z.eq_dec statusCode 503%Z) as [->|H503];
        [|destruct (Z_le_gt_dec statusCode 200%Z) as [Hle|Hgt]]].
    + rewrite on_response_420_eq in E.
      destruct (next (rateBackoff (self w))) as [e|[v b]] eqn:Nx; [discriminate|].
      rewrite run_ticks_empty in E by (unfold retry_scheduled; destruct (Qeq_bool _ 0); exact T).
      injection E as <-.
      eapply sound_stable; [|apply stable_retry_scheduled].
      unfold sound; simpl. repeat split; try apply N; try apply H; try apply P; auto.
      all: try (eapply in_sequence_next; [exact R| |exact Nx]; intros x; simpl; lia).
    + rewrite on_response_503_eq in E.
      destruct (next (httpBackoff (self w))) as [e|[v b]] eqn:Nx; [discriminate|].
      rewrite run_ticks_empty in E by (unfold retry_scheduled; destruct (Qeq_bool _ 0); exact T).
      injection E as <-.
      eapply sound_stable; [|apply stable_retry_scheduled].
      unfold sound; simpl. repeat split; try apply N; try apply R; try apply P; auto.
      all: try (eapply in_sequence_next; [exact H| |exact Nx]; intros x; simpl; lia).
    + rewrite on_response_ok_eq in E by exact Hle.
      rewrite run_ticks_empty in E by exact T. injection E as <-.
      unfold sound; simpl. repeat split; try apply P; auto; lia.
    + destruct (on_response_fatal statusCode u w) as (e & w1 & E1 & _); [lia|auto|auto|].
      rewrite E1 in E. discriminate.
  - rewrite on_error_eq in E.
    destruct (next (networkBackoff (self w))) as [e|[v b]] eqn:Nx; [discriminate|].
    rewrite run_ticks_empty in E by (unfold retry_scheduled; destruct (Qeq_bool _ 0); exact T).
    injection E as <-.
    eapply sound_stable; [|apply stable_retry_scheduled].
    unfold sound; simpl. repeat split; try apply H; try apply R; try apply P; auto.
    all: try (eapply in_sequence_next; [exact N| |exact Nx]; intros x; simpl; lia).
  - destruct (on_data_stable w) as (w1 & E1 & S1). rewrite E1 in E.
    rewrite run_ticks_empty in E by (destruct S1 as (_ & _ & _ & _ & ->); exact T).
    injection E as <-. now apply (sound_stable w).
  - rewrite deliver_eq in E. rewrite run_ticks_empty in E by exact T.
    injection E as <-. eapply sound_stable; [exact S | apply deliver_stable].
  - destruct (fire_stable id w) as (w0 & w1 & E1 & S0 & F1 & N1 & H1 & R1 & [T1|T1]);
      rewrite E1 in E.
    + rewrite run_ticks_empty in E by congruence. injection E as <-.
      pose proof (sound_stable w w0 S S0) as (T0 & P0 & N0 & H0 & R0).
      unfold sound. rewrite F1, N1, H1, R1, T1. auto.
    + rewrite T in T1. rewrite run_ticks_connect in E by exact T1. injection E as <-.
      apply sound_connected.
      pose proof (sound_stable w w0 S S0) as (T0 & P0 & N0 & H0 & R0).
      unfold sound; simpl. rewrite F1, N1, H1, R1. auto.
Qed.

Lemma sound_new : sound new_Twitter.
Proof.
  unfold sound, in_sequence; simpl.
  split; [reflexivity|]. split; [intros []; apply kept_empty|].
  repeat split; lia.
Qed.

Lemma sound_run (inputs : list Input) (w w' : World) :
  sound w -> run inputs w = Returned tt w' -> sound w'.
Proof.
  revert w; induction inputs as [|i inputs IH]; intros w S E; simpl in E.
  - now injection E as <-.
  - unfold bind in E. destruct (turn i w) as [[] w1|e w1] eqn:E1; [|discriminate].
    eapply IH; [|exact E]. eapply sound_turn; eauto.
Qed.

(** In every reachable world the tick queue is empty, every stored count is
    positive and the three backoff closures are those of [backoffs],
    advanced some number of times. *)
Lemma reachable_sound (w : World) : reachable w -> sound w.
Proof. intros [inputs E]. eapply sound_run; [apply sound_new | exact E]. Qed.

(** ** Two rate-limited responses *)

(** C3, as the code has it: in a world the client can reach, when a
    response with status 420 arrives while [connectBackoff] is 0, so that it
    sets a retry timer, and a second one arrives before that timer has fired
    (the user may have made any calls in between, which is how a second
    request comes to exist), and neither finds the rate-limit sequence
    exhausted, exactly one retry timer is set and exactly two reconnect
    notifications are emitted, both with the classification rate-limit and
    the delay of the timer that the first response set. *)
Theorem two_rate_limits_one_timer (w : World) (u1 u2 : Q) (ms : list Method) :
  let b := rateBackoff (self w) in
  reachable w ->
  Qeq_bool (connectBackoff (self w)) 0 = true ->
  (step b (current b) <= max b)%Z ->
  (0 <= u1)%Q ->
  exists w' l,
    run (Response 420 u1 :: map Call ms ++ [Response 420 u2]) w = Returned tt w'
    /\ log w' = log w ++ l
    /\ retry_timers l = [(fresh w, jittered (current b) u1)]
    /\ reconnects l = [("rate-limit"%string, jittered (current b) u1);
                       ("rate-limit"%string, jittered (current b) u1)].
Proof.
  cbv zeta. intros Hr Hcb Hle' Hu.
  destruct (reachable_sound w Hr) as (T & _ & _ & _ & (Mr & Sr & Cr)).
  assert (Hpos : (0 < current (rateBackoff (self w)))%Z) by (simpl in Cr; lia).
  assert (Hle : (current (rateBackoff (self w)) <= max (rateBackoff (self w)))%Z).
  { rewrite Sr in Hle'. simpl in Hle'. lia. }
  destruct (response_420_turn w u1 T Hle) as (w1 & l1 & E1 & T1 & R1 & L1 & H1).
  rewrite Hcb in H1. destruct H1 as (C1 & Lt1 & Lr1).
  destruct (run_calls_calm ms w1 T1) as (w2 & E2 & C2 & (_ & _ & R2) & T2 & l2 & L2 & Lt2 & Lr2).
  rewrite T1 in T2.
  destruct (response_420_turn w2 u2 T2) as (w3 & l3 & E3 & T3 & R3 & L3 & H3).
  { rewrite R2, R1. exact Hle'. }
  assert (Hd : Qeq_bool (connectBackoff (self w2)) 0 = false).
  { rewrite C2, C1. apply jittered_positive; [now apply inject_Z_pos | exact Hu]. }
  rewrite Hd in H3. destruct H3 as (C3 & Lt3 & Lr3).
  exists w3, (l1 ++ l2 ++ l3). split; [|split; [|split]].
  - change (Response 420 u1 :: map Call ms ++ [Response 420 u2])
      with ([Response 420 u1] ++ map Call ms ++ [Response 420 u2]).
    rewrite run_app. unfold bind at 1. simpl run at 1. unfold bind at 1. rewrite E1.
    unfold ret at 1. rewrite run_app. unfold bind at 1. rewrite E2.
    simpl run. unfold bind at 1. rewrite E3. reflexivity.
  - rewrite L3, L2, L1, <- !app_assoc. reflexivity.
  - unfold retry_timers in *. rewrite !flat_map_app, Lt1, Lt2, Lt3. reflexivity.
  - unfold reconnects in *. rewrite !flat_map_app, Lr1, Lr2, Lr3, C2, C1. reflexivity.
Qed.

Lemma two_rate_limits_one_timer_witness :
  exists w w' l,
    run [Call (AddFilter FILTER_TYPE_TRACKING (keyword "a") None)] new_Twitter = Returned tt w
    /\ run (Response 420 (1#2) :: map Call [AddFilter FILTER_TYPE_TRACKING (keyword "b") None]
               ++ [Response 420 0]) w = Returned tt w'
    /\ log w' = log w ++ l
    /\ retry_timers l = [(1%nat, jittered 1000 (1#2))]
    /\ reconnects l = [("rate-limit"%string, jittered 1000 (1#2));
                       ("rate-limit"%string, jittered 1000 (1#2))].
Proof.
  assert (E : exists w,
             run [Call (AddFilter FILTER_TYPE_TRACKING (keyword "a") None)] new_Twitter
             = Returned tt w
             /\ Qeq_bool (connectBackoff (self w)) 0 = true
             /\ rateBackoff (self w) = rate_backoff
             /\ fresh w = 1%nat).
  { eexists. split; [vm_compute; reflexivity|]. repeat split. }
  destruct E as (w & E & G & R & F).
  destruct (two_rate_limits_one_timer w (1#2) 0 [AddFilter FILTER_TYPE_TRACKING (keyword "b") None])
    as (w' & l & E' & L & Lt & Lr).
  - eexists. exact E.
  - exact G.
  - rewrite R. simpl. lia.
  - discriminate.
  - exists w, w', l. rewrite R, F in *. auto.
Defined.

(** C3 as stated fails: a client that tracks one keyword is rate-limited 21
    times, each time after the previous retry timer has fired and a new
    request was posted.  The 22nd response with status 420 sets the retry
    timer 43 and is notified.  A second response with status 420 that
    arrives while that timer is pending (on the request that a further
    [track] has posted) finds the rate-limit sequence exhausted: the handler
    throws, and no second notification is emitted. *)
Lemma exhausted_rate_limit_not_notified :
  exists w w',
    run (Call (AddFilter FILTER_TYPE_TRACKING (keyword "a") None) :: rate_limited 21 1) new_Twitter
    = Returned tt w
    /\ Qeq_bool (connectBackoff (self w)) 0 = true
    /\ timers w = []
    /\ run [Response 420 0; Call (AddFilter FILTER_TYPE_TRACKING (keyword "b") None);
            Response 420 0] w
       = Thrown (Error "Exceeded twitter rate limit") w'
    /\ timers w' = [(43%nat, response_retry, jittered 2097152000 0)]
    /\ retry_timers (skipn (length (log w)) (log w')) = [(43%nat, jittered 2097152000 0)]
    /\ reconnects (skipn (length (log w)) (log w'))
       = [("rate-limit"%string, jittered 2097152000 0)].
Proof.
  do 2 eexists. split; [vm_compute; reflexivity|].
  split; [reflexivity|]. split; [reflexivity|].
  split; [vm_compute; reflexivity|].
  split; [vm_compute; reflexivity|].
  split; vm_compute; reflexivity.
Qed.

(** * Further properties of the methods *)

(** ** Kinds are independent *)

(** X1: no call changes the keywords of a kind other than the one it is
    made on: [addFilter], [removeFilter] and [removeAllFilters] leave the
    three other kinds as they were, and [reconnect], [connect] and [abort]
    leave all four. *)
Theorem calls_leave_other_kinds (m : Method) (g : Kind) (w : World) :
  touches m <> Some g ->
  exists w', invoke m w = Returned tt w'
    /\ get_kind g (_filters (self w')) = get_kind g (_filters (self w)).
Proof.
  intros Hg. destruct m as [filter keywords r|filter k r|filter r| | |]; simpl in *.
  - destruct (addFilter_filters filter keywords r w) as (w' & E & F).
    exists w'. split; [exact E|]. rewrite F. rewrite decide_False; [reflexivity | congruence].
  - destruct (removeFilter_filters filter k r w) as (w' & E & F).
    exists w'. split; [exact E|]. rewrite F. rewrite decide_False; [reflexivity | congruence].
  - eexists. split; [apply removeAllFilters_eq|]. unfold removedAll; cbv zeta.
    destruct (default true r); rewrite ?reconnected_filters; simpl;
      apply get_set_kind_ne; congruence.
  - eexists. split; [apply reconnect_eq|]. now rewrite reconnected_filters.
  - eexists. split; [apply connect_eq|]. now destruct (stable_connected w) as (-> & _).
  - eexists. split; [apply abort_eq | reflexivity].
Qed.

Lemma calls_leave_other_kinds_witness :
  exists w',
    invoke (RemoveAllFilters FILTER_TYPE_FOLLOW None) new_Twitter = Returned tt w'
    /\ get_kind FILTER_TYPE_TRACKING (_filters (self w'))
       = get_kind FILTER_TYPE_TRACKING (_filters (self new_Twitter)).
Proof.
  apply (calls_leave_other_kinds (RemoveAllFilters FILTER_TYPE_FOLLOW None)
           FILTER_TYPE_TRACKING new_Twitter).
  simpl. discriminate.
Defined.

(** ** Snapshots *)

(** X2: the accessors [tracking()], [locations()], [following()] and
    [languages()] list exactly the keywords stored for their kind, each one
    once however often it was added, and [hasFilters()] is true exactly when
    some kind stores some keyword. *)
Theorem accessors_list_stored_keywords (t : Twitter) :
  (NoDup (tracking t) /\ NoDup (locations t) /\ NoDup (following t) /\ NoDup (languages t))
  /\ (forall k,
        (In k (tracking t) <-> is_Some (Filters.tracking (_filters t) !! k))
        /\ (In k (locations t) <-> is_Some (Filters.location (_filters t) !! k))
        /\ (In k (following t) <-> is_Some (Filters.follow (_filters t) !! k))
        /\ (In k (languages t) <-> is_Some (Filters.language (_filters t) !! k)))
  /\ (hasFilters t = true <-> exists filter k, is_Some (get_kind filter (_filters t) !! k)).
Proof.
  split; [|split].
  - unfold tracking, locations, following, languages.
    repeat split; apply keys_NoDup.
  - intros k. unfold tracking, locations, following, languages; simpl.
    repeat split; apply keys_spec.
  - split.
    + intros H. destruct (decide (all_empty (_filters t))) as [He|Hne].
      * apply hasFilters_false in He. congruence.
      * unfold all_empty in Hne.
        assert (Hex : exists filter, get_kind filter (_filters t) <> ∅).
        { destruct (decide (Filters.tracking (_filters t) = ∅)) as [E1|N1];
            [|now exists FILTER_TYPE_TRACKING].
          destruct (decide (Filters.location (_filters t) = ∅)) as [E2|N2];
            [|now exists FILTER_TYPE_LOCATION].
          destruct (decide (Filters.follow (_filters t) = ∅)) as [E3|N3];
            [|now exists FILTER_TYPE_FOLLOW].
          destruct (decide (Filters.language (_filters t) = ∅)) as [E4|N4];
            [|now exists FILTER_TYPE_LANGUAGE].
          tauto. }
        destruct Hex as (filter & Hf). exists filter.
        destruct (object_choose _ Hf) as (k & Hk). exists k. exact Hk.
    + intros (filter & k & Hk). eapply hasFilters_stored, Hk.
Qed.

(** ** Reconnecting after a removal *)

Lemma reconnected_when_stale (w : World) :
  stale (self w) = true ->
  log (reconnected w) = log w ++ reconnect_effects w
  /\ stale (self (reconnected w)) = false
  /\ stream (self (reconnected w)) = (if hasFilters (self w) then Some (fresh w) else None)
  /\ _filters (self (reconnected w)) = _filters (self w).
Proof.
  intros Hs. unfold reconnected, reconnect_effects, connected. rewrite Hs.
  destruct (stream (self w)) as [s|] eqn:Es.
  - rewrite bool_decide_eq_true_2 by eauto.
    change (hasFilters (self (aborted w))) with (hasFilters (self w)).
    destruct (hasFilters (self w)); simpl; rewrite <- ?app_assoc, ?app_nil_r; repeat split.
  - rewrite bool_decide_eq_false_2 by (intros [? [=]]).
    destruct (hasFilters (self w)); simpl; rewrite ?app_nil_r; repeat split; auto.
Qed.

Lemma set_kind_get_kind (filter : Kind) (fs : Filters.t) :
  set_kind filter (get_kind filter fs) fs = fs.
Proof. destruct filter, fs; reflexivity. Qed.


(** X4: [removeAllFilters] empties the kind and marks the instance stale
    even when the kind was empty already.  With the reconnect flag true (or
    absent) it therefore always runs [reconnect()]: the active request, if
    any, is aborted, and a request with the keywords of the other kinds is
    posted, or none when they are empty too.  With the flag false nothing is
    aborted or posted and the instance stays stale. *)
Theorem removeAllFilters_always_reconnects (filter : Kind) (r : option bool) (w : World) :
  exists w', removeAllFilters filter r w = Returned tt w'
    /\ get_kind filter (_filters (self w')) = ∅
    /\ form_field filter (form (self w')) = ""%string
    /\ log w' = log w ++ (if default true r then reconnect_effects (cleared filter w) else [])
    /\ stale (self w') = negb (default true r)
    /\ stream (self w')
       = (if default true r
          then (if hasFilters (self (cleared filter w)) then Some (fresh w) else None)
          else stream (self w)).
Proof.
  eexists. split; [apply removeAllFilters_eq|].
  unfold removedAll; cbv zeta. fold (cleared filter w).
  assert (Hs : stale (self (cleared filter w)) = true) by reflexivity.
  destruct (reconnected_when_stale _ Hs) as (L & S & St & F).
  assert (He : get_kind filter (_filters (self (cleared filter w))) = ∅)
    by (simpl; apply get_set_kind).
  assert (Hf : forall t, get_kind filter (_filters t) = ∅ -> form_field filter (form t) = ""%string).
  { intros t Ht. destruct filter; unfold form, form_field;
      cbn [Form.track Form.locations Form.follow Form.language]; rewrite Ht; reflexivity. }
  destruct (default true r); simpl negb.
  - rewrite L, S, St. split; [now rewrite F|]. split; [apply Hf; now rewrite F|]. repeat split.
  - rewrite app_nil_r. split; [exact He|]. split; [now apply Hf|]. repeat split.
Qed.

(** ** [reconnect] and [abort] *)

(** X5: [reconnect()] leaves the instance not stale, does nothing at all
    when the instance is not stale, and so a second [reconnect()] right after
    the first changes nothing: no second abort, no second request. *)
Theorem reconnect_twice_is_once (w : World) :
  exists w', reconnect w = Returned tt w'
    /\ stale (self w') = false
    /\ (if stale (self w) then log w' = log w ++ reconnect_effects w else w' = w)
    /\ reconnect w' = Returned tt w'
    /\ (reconnect >> reconnect) w = reconnect w.
Proof.
  exists (reconnected w). split; [apply reconnect_eq|].
  assert (Hs : stale (self (reconnected w)) = false).
  { destruct (stale (self w)) eqn:E; [now apply reconnected_when_stale|].
    unfold reconnected. now rewrite E. }
  assert (Hr : reconnect (reconnected w) = Returned tt (reconnected w)).
  { rewrite reconnect_eq. unfold reconnected at 1. now rewrite Hs. }
  split; [exact Hs|]. split; [|split; [exact Hr|]].
  - destruct (stale (self w)) eqn:E; [now apply reconnected_when_stale|].
    unfold reconnected. now rewrite E.
  - unfold bind. now rewrite reconnect_eq, Hr.
Qed.

Lemma remove_timer_twice (id : nat) (ts : list (nat * Callback * Q)) :
  remove_timer id (remove_timer id ts) = remove_timer id ts.
Proof.
  unfold remove_timer. induction ts as [|t ts IH]; simpl; [reflexivity|].
  destruct (negb (fst (fst t) =? id)%nat) eqn:E; simpl; rewrite ?E, IH; reflexivity.
Qed.

Lemma find_timer_removed (id : nat) (ts : list (nat * Callback * Q)) :
  find_timer id (remove_timer id ts) = None.
Proof.
  unfold find_timer, remove_timer. induction ts as [|t ts IH]; simpl; [reflexivity|].
  destruct (fst (fst t) =? id)%nat eqn:E; simpl; rewrite ?E; exact IH.
Qed.

(** X6: after [abort()] the instance has no request and its stall timer is
    not pending.  A second [abort()] changes neither the instance nor the
    pending timers and aborts no request; [parser] and [timeout] are never
    cleared, so it destroys the same parser and clears the same timer
    again. *)
Theorem abort_twice (w : World) :
  exists w1 w2,
    abort w = Returned tt w1
    /\ abort w1 = Returned tt w2
    /\ stream (self w1) = None
    /\ (forall t, timeout (self w) = Some t -> find_timer t (timers w1) = None)
    /\ self w2 = self w1
    /\ timers w2 = timers w1
    /\ parser (self w1) = parser (self w) /\ timeout (self w1) = timeout (self w)
    /\ log w2 = log w1
         ++ match parser (self w) with Some p => [ParserDestroy p] | None => [] end
         ++ match timeout (self w) with Some t => [ClearTimeout t] | None => [] end.
Proof.
  exists (aborted w), (aborted (aborted w)).
  split; [apply abort_eq|]. split; [apply abort_eq|].
  split; [reflexivity|]. split; [|split; [reflexivity|]].
  - intros t E. simpl. rewrite E. apply find_timer_removed.
  - split; [|split; [reflexivity|split; [reflexivity|]]].
    + simpl. destruct (timeout (self w)); [apply remove_timer_twice | reflexivity].
    + simpl. unfold abort_effects; simpl.
      destruct (parser (self w)), (timeout (self w)); simpl; rewrite ?app_nil_r; reflexivity.
Qed.

(** ** Responses that are not retried *)

(** X7: a response with a status above 200 other than 420 and 503 is not
    retried: the request is aborted, the ['error'] event is emitted with the
    status and its explanation (none unless the status is 401, 403, 404, 406,
    413 or 416), no timer is set and the retry guard and the three backoff
    sequences stay as they were.  The handler does not return: the listener
    that [connect] registered reads [explain.long] of the instance and
    throws. *)
Theorem fatal_status_is_not_retried (statusCode : Z) (u : Q) (w : World) :
  (200 < statusCode)%Z -> statusCode <> 420%Z -> statusCode <> 503%Z ->
  exists e w',
    on_response statusCode u w = Thrown e w'
    /\ log w' = log w ++ abort_effects (self w)
                ++ [Emit (error_ "http" statusCode (errorExplanation statusCode))]
    /\ (errorExplanation statusCode = None <-> ~ In statusCode explained)
    /\ e = match onceError (self w) with
           | S _ => TypeError "Cannot read property 'long' of undefined"
           | O => Error "Unhandled error"
           end
    /\ stream (self w') = None
    /\ timers w' = timers (aborted w)
    /\ connectBackoff (self w') = connectBackoff (self w)
    /\ networkBackoff (self w') = networkBackoff (self w)
    /\ httpBackoff (self w') = httpBackoff (self w)
    /\ rateBackoff (self w') = rateBackoff (self w).
Proof.
  intros H H420 H503.
  assert (Hex : errorExplanation statusCode = None <-> ~ In statusCode explained).
  { unfold errorExplanation, explained.
    repeat match goal with
           | |- context [(statusCode =? ?c)%Z] =>
               destruct (Z.eqb_spec statusCode c) as [->|?];
               [split; [discriminate | intros Hn; exfalso; (contradiction || (apply Hn; simpl; auto 10))]|]
           end.
    split; [|reflexivity]. intros _ Hn. simpl in Hn. intuition congruence. }
  unfold on_response.
  destruct (Z.eqb_spec statusCode 420); [contradiction|].
  destruct (Z.eqb_spec statusCode 503); [contradiction|].
  destruct (Z.gtb_spec statusCode 200); [|lia]. cbn [orb].
  unfold bind at 1. rewrite abort_eq.
  unfold emit_error, bind, emit, effect, modify, this, assign, modify, throw. simpl.
  destruct (onceError (self w)); do 2 eexists; (split; [reflexivity|]); simpl;
    rewrite <- app_assoc; repeat split; apply Hex.
Qed.

Lemma fatal_status_is_not_retried_witness :
  exists e w',
    on_response 404 0 new_Twitter = Thrown e w'
    /\ log w' = [Emit (error_ "http" 404 (errorExplanation 404))].
Proof.
  destruct (fatal_status_is_not_retried 404 0 new_Twitter) as (e & w' & E & L & _);
    [lia | lia | lia |].
  exists e, w'. split; [exact E|]. rewrite L. reflexivity.
Defined.

(** ** Overloaded server *)

(** X8: a response with status 503 draws from the http-error sequence and
    from no other: the rate-limit and network sequences stay as they were,
    as the http-error sequence does under a response with status 420.  The
    request is aborted and the notification has the type service-unavailable
    with its explanation; the retry timer is set, for the jittered draw, only
    when the retry guard is 0. *)
Theorem overloaded_draws_http_backoff (u : Q) (w : World) :
  (current (httpBackoff (self w)) <= max (httpBackoff (self w)))%Z ->
  exists w',
    on_response 503 u w = Returned tt w'
    /\ httpBackoff (self w') = advance (httpBackoff (self w))
    /\ rateBackoff (self w') = rateBackoff (self w)
    /\ networkBackoff (self w') = networkBackoff (self w)
    /\ stream (self w') = None
    /\ log w' = log w ++ abort_effects (self w) ++
         (let d := jittered (current (httpBackoff (self w))) u in
          let explain :=
            Some {| type := "service-unavailable";
                    long := "A streaming server is temporarily overloaded." |} in
          if Qeq_bool (connectBackoff (self w)) 0 then
            [SetTimeout (fresh w) response_retry d;
             Emit (reconnect_ "service-unavailable" explain d)]
          else [Emit (reconnect_ "service-unavailable" explain (connectBackoff (self w)))])
    /\ match on_response 420 u w with
       | Returned _ w'' | Thrown _ w'' => httpBackoff (self w'') = httpBackoff (self w)
       end.
Proof.
  intros Hle. rewrite on_response_503_eq, on_response_420_eq.
  destruct (next_cases (httpBackoff (self w))) as [[_ N]|[Hgt _]]; [rewrite N | lia].
  eexists. split; [reflexivity|].
  unfold retry_scheduled.
  change (connectBackoff (self (aborted (with_self (set_httpBackoff (advance (httpBackoff (self w)))) w))))
    with (connectBackoff (self w)).
  split; [destruct (Qeq_bool _ 0); reflexivity|].
  split; [destruct (Qeq_bool _ 0); reflexivity|].
  split; [destruct (Qeq_bool _ 0); reflexivity|].
  split; [destruct (Qeq_bool _ 0); reflexivity|].
  split.
  - cbv zeta. destruct (Qeq_bool _ 0); simpl; now rewrite <- app_assoc.
  - destruct (next (rateBackoff (self w))) as [e|[v b]]; [reflexivity|].
    unfold retry_scheduled. destruct (Qeq_bool _ 0); reflexivity.
Qed.

Lemma overloaded_draws_http_backoff_witness :
  exists w',
    on_response 503 (1#2) new_Twitter = Returned tt w'
    /\ current (httpBackoff (self w')) = 2000%Z
    /\ current (rateBackoff (self w')) = 1000%Z.
Proof.
  destruct (overloaded_draws_http_backoff (1#2) new_Twitter) as (w' & E & H & R & _).
  - simpl. lia.
  - exists w'. split; [exact E|]. rewrite H, R. split; reflexivity.
Defined.

(** ** Exhausted sequences *)

(** X9: when the network sequence is exhausted (its current value exceeds
    16000, which takes 65 draws without a success in between), a network
    failure still aborts the request but then throws: no notification is
    emitted and no retry timer is set. *)
Theorem exhausted_network_failure_throws (u : Q) (w : World) :
  (current (networkBackoff (self w)) > max (networkBackoff (self w)))%Z ->
  exists w',
    on_error u w = Thrown (Error "Exceeded twitter rate limit") w'
    /\ stream (self w') = None
    /\ log w' = log w ++ abort_effects (self w)
    /\ retry_timers (abort_effects (self w)) = []
    /\ reconnects (abort_effects (self w)) = []
    /\ networkBackoff (self w') = networkBackoff (self w)
    /\ connectBackoff (self w') = connectBackoff (self w).
Proof.
  intros Hgt. rewrite on_error_eq.
  destruct (next_cases (networkBackoff (self w))) as [[Hle _]|[_ N]]; [lia | rewrite N].
  exists (aborted w). destruct (abort_effects_calm (self w)) as [At Ar].
  repeat split; assumption.
Qed.

Lemma exhausted_network_failure_throws_witness :
  exists w w',
    run (repeat (RequestError 0) 65) new_Twitter = Returned tt w
    /\ on_error 0 w = Thrown (Error "Exceeded twitter rate limit") w'.
Proof.
  assert (E : exists w, run (repeat (RequestError 0) 65) new_Twitter = Returned tt w
                /\ (current (networkBackoff (self w)) > max (networkBackoff (self w)))%Z).
  { eexists. split; [vm_compute; reflexivity|]. vm_compute. reflexivity. }
  destruct E as (w & E & Hgt).
  destruct (exhausted_network_failure_throws 0 w Hgt) as (w' & T & _).
  exists w, w'. split; [exact E | exact T].
Defined.

(** X10: when the sequence that a response with status 420 or 503 draws from
    is exhausted, the handler throws before anything else happens: the
    request is not aborted, nothing is emitted and no timer is set. *)
Theorem exhausted_response_throws (statusCode : Z) (u : Q) (w : World) :
  statusCode = 420%Z \/ statusCode = 503%Z ->
  (current (retry_sequence statusCode (self w)) > max (retry_sequence statusCode (self w)))%Z ->
  on_response statusCode u w = Thrown (Error "Exceeded twitter rate limit") w.
Proof.
  intros [->| ->] Hgt; unfold retry_sequence in Hgt; simpl in Hgt.
  - rewrite on_response_420_eq.
    destruct (next_cases (rateBackoff (self w))) as [[Hle _]|[_ N]]; [lia | now rewrite N].
  - rewrite on_response_503_eq.
    destruct (next_cases (httpBackoff (self w))) as [[Hle _]|[_ N]]; [lia | now rewrite N].
Qed.

Lemma exhausted_response_throws_witness :
  exists w,
    run (repeat (Response 503 0) 9) new_Twitter = Returned tt w
    /\ on_response 503 0 w = Thrown (Error "Exceeded twitter rate limit") w.
Proof.
  assert (E : exists w, run (repeat (Response 503 0) 9) new_Twitter = Returned tt w
                /\ (current (retry_sequence 503 (self w)) > max (retry_sequence 503 (self w)))%Z).
  { eexists. split; [vm_compute; reflexivity|]. vm_compute. reflexivity. }
  destruct E as (w & E & Hgt).
  exists w. split; [exact E|].
  apply (exhausted_response_throws 503 0 w); [now right | exact Hgt].
Defined.

(** ** Failures that are not coalesced *)

Lemma retry_scheduled_ticks (cb : Callback) (type : string) (explain : option Explanation)
    (d : Q) (w : World) :
  ticks (retry_scheduled cb type explain d w) = ticks w.
Proof. unfold retry_scheduled. destruct (Qeq_bool _ 0); reflexivity. Qed.

Lemma network_failure_world (w : World) (u : Q) :
  ticks w = [] ->
  (current (networkBackoff (self w)) <= max (networkBackoff (self w)))%Z ->
  turn (RequestError u) w
  = Returned tt
      (retry_scheduled error_retry "network" None (jittered (current (networkBackoff (self w))) u)
         (with_self (set_networkBackoff (advance (networkBackoff (self w)))) (aborted w))).
Proof.
  intros T Hle. unfold turn, bind. simpl handle. rewrite on_error_eq.
  destruct (next_cases (networkBackoff (self w))) as [[_ N]|[Hgt _]]; [rewrite N | lia].
  apply run_ticks_empty. now rewrite retry_scheduled_ticks.
Qed.

Lemma jittered_zero_guard (u : Q) : Qeq_bool (jittered 0 u) 0 = true.
Proof. apply Qeq_bool_iff. unfold jittered. apply jittered_zero. Qed.

(** X11: the retry guard is the delay itself, and the first delay of the
    network sequence is 0.  So on an instance whose network sequence is at
    its start (a new instance, or after a success) and whose guard is 0, the
    first network failure sets a retry timer and leaves the guard at 0, and a
    second failure before that timer fires sets a second retry timer: the two
    failures are not coalesced. *)
Theorem first_network_failures_not_coalesced (w : World) (u1 u2 : Q) :
  ticks w = [] ->
  networkBackoff (self w) = network_backoff ->
  Qeq_bool (connectBackoff (self w)) 0 = true ->
  exists w1 w2 l,
    turn (RequestError u1) w = Returned tt w1
    /\ Qeq_bool (connectBackoff (self w1)) 0 = true
    /\ turn (RequestError u2) w1 = Returned tt w2
    /\ log w2 = log w ++ l
    /\ retry_timers l = [(fresh w, jittered 0 u1); (S (fresh w), jittered 250 u2)]
    /\ reconnects l = [("network"%string, jittered 0 u1); ("network"%string, jittered 250 u2)].
Proof.
  intros T N G.
  pose proof (network_failure_world w u1 T) as E1. rewrite N in E1.
  specialize (E1 ltac:(simpl; lia)). simpl current in E1.
  unfold retry_scheduled in E1.
  change (connectBackoff (self (with_self (set_networkBackoff (advance network_backoff)) (aborted w))))
    with (connectBackoff (self w)) in E1.
  rewrite G in E1.
  eexists. 
  match type of E1 with _ = Returned tt ?x => set (w1 := x) in * end.
  assert (T1 : ticks w1 = []) by exact T.
  pose proof (network_failure_world w1 u2 T1) as E2.
  specialize (E2 ltac:(simpl; lia)). simpl current in E2.
  unfold retry_scheduled in E2.
  change (connectBackoff (self (with_self (set_networkBackoff (advance (networkBackoff (self w1))))
                                  (aborted w1))))
    with (jittered 0 u1) in E2.
  rewrite jittered_zero_guard in E2.
  destruct (abort_effects_calm (self w)) as [At Ar].
  destruct (abort_effects_calm (self w1)) as [At1 Ar1].
  eexists. exists (abort_effects (self w)
             ++ [SetTimeout (fresh w) error_retry (jittered 0 u1);
                 Emit (reconnect_ "network" None (jittered 0 u1))]
             ++ abort_effects (self w1)
             ++ [SetTimeout (S (fresh w)) error_retry (jittered 250 u2);
                 Emit (reconnect_ "network" None (jittered 250 u2))]).
  split; [exact E1|]. split; [apply jittered_zero_guard|]. split; [exact E2|].
  split; [simpl; now rewrite <- !app_assoc|].
  unfold retry_timers, reconnects in *.
  rewrite !flat_map_app, At, Ar, At1, Ar1. split; reflexivity.
Qed.

Lemma first_network_failures_not_coalesced_witness :
  exists w1 w2 l,
    turn (RequestError (1#2)) new_Twitter = Returned tt w1
    /\ Qeq_bool (connectBackoff (self w1)) 0 = true
    /\ turn (RequestError (1#2)) w1 = Returned tt w2
    /\ log w2 = log new_Twitter ++ l
    /\ retry_timers l = [(0%nat, jittered 0 (1#2)); (1%nat, jittered 250 (1#2))]
    /\ reconnects l = [("network"%string, jittered 0 (1#2)); ("network"%string, jittered 250 (1#2))].
Proof.
  apply (first_network_failures_not_coalesced new_Twitter (1#2) (1#2)); reflexivity.
Defined.

(** ** The turns of the event loop, one input at a time *)

Lemma on_data_eq (w : World) : on_data w = Returned tt (rearmed w).
Proof.
  unfold on_data, rearmed, bind, this, clearTimeout, setTimeout, new_id, assign, effect, modify,
    bind, ret.
  destruct w as [[fs st s p [t|] cb icb nb hb rb oe] ts q n l]; simpl;
    unfold with_self, with_log, with_timers; simpl; rewrite <- ?app_assoc; reflexivity.
Qed.

Lemma with_ticks_nil (w : World) : ticks w = [] -> with_ticks (fun _ => []) w = w.
Proof. intros E. destruct w; simpl in *. now subst. Qed.

(** Every turn that starts with an empty tick queue and returns ends in the
    world [turned] gives, with an empty tick queue again. *)
Lemma turn_turned (i : Input) (w w' : World) :
  ticks w = [] -> turn i w = Returned tt w' -> turned i w w' /\ ticks w' = [].
Proof.
  intros T E. unfold turn, bind in E.
  destruct i as [m|statusCode u|u| |data|id]; simpl handle in E; simpl turned.
  - destruct (invoke_calm m w) as (w1 & E1 & C1). rewrite E1 in E.
    assert (T1 : ticks w1 = []) by (destruct C1 as (_ & _ & -> & _); exact T).
    rewrite run_ticks_empty in E by exact T1. injection E as <-. auto.
  - destruct (Z.eq_dec statusCode 420%Z) as [->|H420];
      [|destruct (Z.eq_dec statusCode 503%Z) as [->|H503];
        [|destruct (Z_le_gt_dec statusCode 200%Z) as [Hle|Hgt]]].
    + rewrite on_response_420_eq in E.
      destruct (next (rateBackoff (self w))) as [e|[v b]] eqn:Nx; [discriminate|].
      rewrite run_ticks_empty in E by (now rewrite retry_scheduled_ticks).
      injection E as <-. rewrite retry_scheduled_ticks. split; [|exact T].
      right. exists v, b. left. auto.
    + rewrite on_response_503_eq in E.
      destruct (next (httpBackoff (self w))) as [e|[v b]] eqn:Nx; [discriminate|].
      rewrite run_ticks_empty in E by (now rewrite retry_scheduled_ticks).
      injection E as <-. rewrite retry_scheduled_ticks. split; [|exact T].
      right. exists v, b. right. auto.
    + rewrite on_response_ok_eq in E by exact Hle.
      rewrite run_ticks_empty in E by exact T. injection E as <-. auto.
    + destruct (on_response_fatal statusCode u w) as (e & w1 & E1 & _); [lia|auto|auto|].
      rewrite E1 in E. discriminate.
  - rewrite on_error_eq in E.
    destruct (next (networkBackoff (self w))) as [e|[v b]] eqn:Nx; [discriminate|].
    rewrite run_ticks_empty in E by (now rewrite retry_scheduled_ticks).
    injection E as <-. rewrite retry_scheduled_ticks. split; [|exact T]. eauto.
  - rewrite on_data_eq in E. rewrite run_ticks_empty in E by exact T.
    injection E as <-. auto.
  - rewrite deliver_eq in E. rewrite run_ticks_empty in E by exact T.
    injection E as <-. auto.
  - unfold fire, bind, get in E.
    destruct (find_timer id (timers w)) as [[| | |]|]; unfold modify in E; simpl run_callback in E.
    + unfold bind, assign, modify in E. rewrite connect_eq in E.
      rewrite run_ticks_empty in E
        by (destruct (stable_connected (with_self (set_connectBackoff 0)
                        (with_timers (remove_timer id) w))) as (_ & _ & _ & _ & ->); exact T).
      injection E as <-. split; [reflexivity|].
      destruct (stable_connected (with_self (set_connectBackoff 0)
                  (with_timers (remove_timer id) w))) as (_ & _ & _ & _ & ->). exact T.
    + unfold bind, assign, modify in E. rewrite connect_eq in E.
      rewrite run_ticks_empty in E
        by (destruct (stable_connected (with_self (set_inConnectBackoff (Some 0%Q))
                        (with_timers (remove_timer id) w))) as (_ & _ & _ & _ & ->); exact T).
      injection E as <-. split; [reflexivity|].
      destruct (stable_connected (with_self (set_inConnectBackoff (Some 0%Q))
                  (with_timers (remove_timer id) w))) as (_ & _ & _ & _ & ->). exact T.
    + unfold bind at 1 in E. rewrite abort_eq in E.
      unfold bind, nextTick, bind, modify, emit, effect, modify in E.
      rewrite run_ticks_connect in E by (simpl; now rewrite T).
      injection E as E.
      assert (E' : w' = connected (with_ticks (fun _ => [])
                          (stalled (with_timers (remove_timer id) w)))).
      { rewrite <- E. f_equal. unfold stalled, with_ticks, with_log, aborted; simpl.
        rewrite <- !app_assoc. reflexivity. }
      split; [exact E'|]. rewrite E'.
      destruct (stable_connected (with_ticks (fun _ => [])
                  (stalled (with_timers (remove_timer id) w)))) as (_ & _ & _ & _ & ->).
      reflexivity.
    + rewrite connect_eq in E.
      rewrite run_ticks_empty in E
        by (destruct (stable_connected (with_timers (remove_timer id) w)) as (_ & _ & _ & _ & ->);
            exact T).
      injection E as <-. split; [reflexivity|].
      destruct (stable_connected (with_timers (remove_timer id) w)) as (_ & _ & _ & _ & ->). exact T.
    + unfold ret in E. rewrite run_ticks_empty in E by exact T. injection E as <-. auto.
Qed.

(** ** Requests posted *)

Lemma posts_app (l l' : list Effect) : posts (l ++ l') = posts l ++ posts l'.
Proof. apply flat_map_app. Qed.

Lemma posts_abort_effects (t : Twitter) : posts (abort_effects t) = [].
Proof. unfold abort_effects. destruct (parser t), (timeout t), (stream t); reflexivity. Qed.

Lemma posted_none (w w' : World) (l : list Effect) :
  log w' = log w ++ l -> posts l = [] -> onceError (self w') = onceError (self w) ->
  posted_once w w'.
Proof. intros L P O. exists l. split; [exact L|]. now left. Qed.

Lemma posted_connected (w x : World) (pre : list Effect) :
  log x = log w ++ pre -> posts pre = [] -> onceError (self x) = onceError (self w) ->
  posted_once w (connected x).
Proof.
  intros L P O. unfold connected. destruct (hasFilters (self x)) eqn:Hf.
  - exists (pre ++ [Post (fresh x) (form (self x))]). simpl.
    split; [now rewrite L, <- app_assoc|]. right. exists (fresh x).
    rewrite posts_app, P. simpl. repeat split; [exact Hf | now rewrite O].
  - exists pre. split; [exact L|]. left. auto.
Qed.

Lemma posted_reconnected (w x : World) (pre : list Effect) :
  log x = log w ++ pre -> posts pre = [] -> onceError (self x) = onceError (self w) ->
  posted_once w (reconnected x).
Proof.
  intros L P O. unfold reconnected. destruct (stale (self x)).
  - destruct (bool_decide _).
    + apply (posted_connected w (aborted x) (pre ++ abort_effects (self x))).
      * simpl. now rewrite L, <- app_assoc.
      * now rewrite posts_app, P, posts_abort_effects.
      * exact O.
    + now apply (posted_connected w x pre).
  - now apply (posted_none w x pre).
Qed.

Lemma posted_retry_scheduled (w x : World) (pre : list Effect) (cb : Callback) (type : string)
    (explain : option Explanation) (d : Q) :
  log x = log w ++ pre -> posts pre = [] -> onceError (self x) = onceError (self w) ->
  posted_once w (retry_scheduled cb type explain d x).
Proof.
  intros L P O. unfold retry_scheduled. destruct (Qeq_bool _ 0).
  - apply (posted_none _ _ (pre ++ [SetTimeout (fresh x) cb d; Emit (reconnect_ type explain d)])).
    + simpl. now rewrite L, <- app_assoc.
    + rewrite posts_app, P. reflexivity.
    + exact O.
  - apply (posted_none _ _ (pre ++ [Emit (reconnect_ type explain (connectBackoff (self x)))])).
    + simpl. now rewrite L, <- app_assoc.
    + rewrite posts_app, P. reflexivity.
    + exact O.
Qed.

Lemma posted_invoke (m : Method) (w w' : World) :
  invoke m w = Returned tt w' -> posted_once w w'.
Proof.
  intros E. destruct m as [filter keywords r|filter k r|filter r| | |]; simpl in E.
  - rewrite addFilter_eq in E. cbv zeta in E. injection E as <-.
    destruct (default true r && _).
    + apply (posted_reconnected w _ []); [simpl; now rewrite app_nil_r | reflexivity | reflexivity].
    + apply (posted_none w _ []); [simpl; now rewrite app_nil_r | reflexivity | reflexivity].
  - rewrite removeFilter_eq in E. cbv zeta in E. injection E as <-.
    destruct (decremented _ k) as [c|].
    + destruct (is_zero c); [destruct (default true r)|].
      * apply (posted_reconnected w _ []); [simpl; now rewrite app_nil_r | reflexivity | reflexivity].
      * apply (posted_none w _ []); [simpl; now rewrite app_nil_r | reflexivity | reflexivity].
      * apply (posted_none w _ []); [simpl; now rewrite app_nil_r | reflexivity | reflexivity].
    + apply (posted_none w _ []); [now rewrite app_nil_r | reflexivity | reflexivity].
  - rewrite removeAllFilters_eq in E. injection E as <-. unfold removedAll; cbv zeta.
    destruct (default true r).
    + apply (posted_reconnected w _ []); [simpl; now rewrite app_nil_r | reflexivity | reflexivity].
    + apply (posted_none w _ []); [simpl; now rewrite app_nil_r | reflexivity | reflexivity].
  - rewrite reconnect_eq in E. injection E as <-.
    apply (posted_reconnected w _ []); [now rewrite app_nil_r | reflexivity | reflexivity].
  - rewrite connect_eq in E. injection E as <-.
    apply (posted_connected w _ []); [now rewrite app_nil_r | reflexivity | reflexivity].
  - rewrite abort_eq in E. injection E as <-.
    apply (posted_none w _ (abort_effects (self w)));
      [reflexivity | apply posts_abort_effects | reflexivity].
Qed.

Lemma posted_turned (i : Input) (w w' : World) : turned i w w' -> posted_once w w'.
Proof.
  destruct i as [m|statusCode u|u| |data|id]; simpl.
  - apply posted_invoke.
  - intros [[_ ->]|(v & b & [(_ & _ & ->)|(_ & _ & ->)])].
    + apply (posted_none _ _ [Emit connect_; SetTimeout (S (fresh w)) close timeoutInterval]);
        reflexivity.
    + apply (posted_retry_scheduled w _ (abort_effects (self w)));
        [reflexivity | apply posts_abort_effects | reflexivity].
    + apply (posted_retry_scheduled w _ (abort_effects (self w)));
        [reflexivity | apply posts_abort_effects | reflexivity].
  - intros (v & b & _ & ->).
    apply (posted_retry_scheduled w _ (abort_effects (self w)));
      [reflexivity | apply posts_abort_effects | reflexivity].
  - intros ->. eapply posted_none; [reflexivity| |reflexivity].
    simpl. destruct (timeout (self w)); reflexivity.
  - intros ->. eapply posted_none; [reflexivity| |reflexivity].
    destruct (classify_by_truthiness data); reflexivity.
  - destruct (find_timer id (timers w)) as [[| | |]|]; intros ->.
    + apply (posted_connected w _ []); [simpl; now rewrite app_nil_r | reflexivity | reflexivity].
    + apply (posted_connected w _ []); [simpl; now rewrite app_nil_r | reflexivity | reflexivity].
    + apply (posted_connected w _
               (abort_effects (self w) ++ [NextTick bound_connect; Emit (reconnect_ "stall" None 0)])).
      * simpl. now rewrite <- app_assoc.
      * now rewrite posts_app, posts_abort_effects.
      * reflexivity.
    + apply (posted_connected w _ []); [simpl; now rewrite app_nil_r | reflexivity | reflexivity].
    + apply (posted_none w _ []); [now rewrite app_nil_r | reflexivity | reflexivity].
Qed.

(** X12: a turn of the event loop, whatever its input, posts at most one
    request.  A request that is posted carries the form of the filters the
    instance has at the end of the turn, is never posted while all kinds are
    empty, is the request the instance holds in [this.stream] afterwards, and
    has added one ['error'] listener to the instance. *)
Theorem turn_posts_current_filters (i : Input) (w w' : World) :
  ticks w = [] ->
  turn i w = Returned tt w' ->
  exists l, log w' = log w ++ l
    /\ ((posts l = [] /\ onceError (self w') = onceError (self w))
        \/ exists id, posts l = [(id, form (self w'))]
             /\ hasFilters (self w') = true
             /\ stream (self w') = Some id
             /\ onceError (self w') = S (onceError (self w))).
Proof.
  intros T E. apply (posted_turned i), (turn_turned i w w' T E).
Qed.

Lemma turn_posts_current_filters_witness :
  exists w' l,
    turn (Call (AddFilter FILTER_TYPE_TRACKING (keyword "a") None)) new_Twitter = Returned tt w'
    /\ log w' = log new_Twitter ++ l
    /\ (posts l = [] \/ exists id, posts l = [(id, form (self w'))]).
Proof.
  assert (E : exists w', turn (Call (AddFilter FILTER_TYPE_TRACKING (keyword "a") None)) new_Twitter
                         = Returned tt w').
  { eexists. vm_compute. reflexivity. }
  destruct E as (w' & E).
  destruct (turn_posts_current_filters _ new_Twitter w' eq_refl E) as (l & L & H).
  exists w', l. split; [exact E|]. split; [exact L|].
  destruct H as [[P _]|(id & P & _)]; [now left | right; now exists id].
Defined.

Lemma listeners_run (inputs : list Input) (w w' : World) :
  ticks w = [] ->
  onceError (self w) = length (posts (log w)) ->
  run inputs w = Returned tt w' ->
  ticks w' = [] /\ onceError (self w') = length (posts (log w')).
Proof.
  revert w; induction inputs as [|i inputs IH]; intros w T O E; simpl in E.
  - injection E as <-. auto.
  - unfold bind in E. destruct (turn i w) as [[] w1|e w1] eqn:E1; [|discriminate].
    destruct (turn_turned i w w1 T E1) as [Ht T1].
    apply (IH w1 T1); [|exact E].
    destruct (posted_turned i w w1 Ht) as (l & L & [[P O1]|(id & P & _ & _ & O1)]);
      rewrite L, posts_app, length_app, P, O1, O; simpl; lia.
Qed.

(** X13: every request posted registers one more ['error'] listener on the
    instance, and nothing but a response that is not retried (which ends in
    an exception) removes one: in every reachable world the number of
    registered listeners is the number of requests posted so far. *)
Theorem listeners_grow_with_requests (w : World) :
  reachable w -> onceError (self w) = length (posts (log w)).
Proof.
  intros [inputs E]. eapply (listeners_run inputs new_Twitter w); [reflexivity | reflexivity | exact E].
Qed.

Lemma listeners_grow_with_requests_witness :
  exists w,
    run [Call (AddFilter FILTER_TYPE_TRACKING (keyword "a") None);
         Call (AddFilter FILTER_TYPE_TRACKING (keyword "b") None);
         Response 420 0; Timer 2] new_Twitter = Returned tt w
    /\ onceError (self w) = length (posts (log w))
    /\ onceError (self w) = 3%nat.
Proof.
  assert (E : exists w,
             run [Call (AddFilter FILTER_TYPE_TRACKING (keyword "a") None);
                  Call (AddFilter FILTER_TYPE_TRACKING (keyword "b") None);
                  Response 420 0; Timer 2] new_Twitter = Returned tt w
             /\ onceError (self w) = 3%nat).
  { eexists. split; [vm_compute; reflexivity | reflexivity]. }
  destruct E as (w & E & O).
  exists w. split; [exact E|]. split; [|exact O].
  apply listeners_grow_with_requests. eexists. exact E.
Defined.

(** ** The retry guard *)

Lemma find_timer_In (id : nat) (ts : list (nat * Callback * Q)) (cb : Callback) :
  find_timer id ts = Some cb -> exists d, In (id, cb, d) ts.
Proof.
  unfold find_timer. destruct (List.find _ ts) as [[[i c] d]|] eqn:E; [|discriminate].
  intros [= <-]. apply find_some in E as [Hin Hid]. simpl in *.
  apply Nat.eqb_eq in Hid. subst. now exists d.
Qed.

Lemma remove_timer_In (id : nat) (ts : list (nat * Callback * Q)) (t : nat * Callback * Q) :
  In t (remove_timer id ts) -> In t ts.
Proof. unfold remove_timer. now intros [H _]%filter_In. Qed.

Lemma guard_kept_refl (w : World) : guard_kept w w.
Proof. repeat split; auto. exists []. now rewrite app_nil_r. Qed.

Lemma guard_kept_trans (w1 w2 w3 : World) : guard_kept w1 w2 -> guard_kept w2 w3 -> guard_kept w1 w3.
Proof.
  intros (C & I & l & L & R) (C' & I' & l' & L' & R'). split; [congruence|]. split.
  - intros t [H|H]%I'; [apply I, H | now right].
  - exists (l ++ l'). rewrite L', L, <- app_assoc. split; [reflexivity|].
    unfold retry_timers in *. now rewrite flat_map_app, R, R'.
Qed.

Lemma guard_kept_aborted (w : World) : guard_kept w (aborted w).
Proof.
  split; [reflexivity|]. split.
  - intros t H. left. simpl in H. destruct (timeout (self w)); [eapply remove_timer_In|]; exact H.
  - exists (abort_effects (self w)). split; [reflexivity | apply abort_effects_calm].
Qed.

Lemma guard_kept_connected (w : World) : guard_kept w (connected w).
Proof.
  unfold connected. destruct (hasFilters (self w)).
  - split; [reflexivity|]. split; [auto|]. eexists. split; reflexivity.
  - split; [reflexivity|]. split; [auto|]. exists []. simpl. now rewrite app_nil_r.
Qed.

Lemma guard_kept_reconnected (w : World) : guard_kept w (reconnected w).
Proof.
  unfold reconnected. destruct (stale (self w)); [|apply guard_kept_refl].
  destruct (bool_decide _).
  - eapply guard_kept_trans; [apply guard_kept_aborted | apply guard_kept_connected].
  - apply guard_kept_connected.
Qed.

Lemma guard_kept_with_self (f : Twitter -> Twitter) (w : World) :
  (forall t, connectBackoff (f t) = connectBackoff t) -> guard_kept w (with_self f w).
Proof.
  intros H. split; [apply H|]. split; [auto|]. exists []. simpl. now rewrite app_nil_r.
Qed.

Lemma guard_kept_invoke (m : Method) (w w' : World) :
  invoke m w = Returned tt w' -> guard_kept w w'.
Proof.
  intros E. destruct m as [filter keywords r|filter k r|filter r| | |]; simpl in E.
  - rewrite addFilter_eq in E. cbv zeta in E. injection E as <-.
    destruct (default true r && _).
    + eapply guard_kept_trans; [|apply guard_kept_reconnected]. now apply guard_kept_with_self.
    + now apply guard_kept_with_self.
  - rewrite removeFilter_eq in E. cbv zeta in E. injection E as <-.
    destruct (decremented _ k) as [c|]; [|apply guard_kept_refl].
    destruct (is_zero c); [destruct (default true r)|].
    + eapply guard_kept_trans; [|apply guard_kept_reconnected].
      eapply guard_kept_trans; now apply guard_kept_with_self.
    + eapply guard_kept_trans; now apply guard_kept_with_self.
    + now apply guard_kept_with_self.
  - rewrite removeAllFilters_eq in E. injection E as <-. unfold removedAll; cbv zeta.
    destruct (default true r).
    + eapply guard_kept_trans; [|apply guard_kept_reconnected]. now apply guard_kept_with_self.
    + now apply guard_kept_with_self.
  - rewrite reconnect_eq in E. injection E as <-. apply guard_kept_reconnected.
  - rewrite connect_eq in E. injection E as <-. apply guard_kept_connected.
  - rewrite abort_eq in E. injection E as <-. apply guard_kept_aborted.
Qed.

Lemma guard_kept_retry_scheduled (cb : Callback) (type : string) (explain : option Explanation)
    (d : Q) (w : World) :
  Qeq_bool (connectBackoff (self w)) 0 = false ->
  guard_kept w (retry_scheduled cb type explain d w).
Proof.
  intros G. unfold retry_scheduled. rewrite G.
  split; [reflexivity|]. split; [auto|]. eexists. split; reflexivity.
Qed.

Lemma guard_kept_remove (id : nat) (w : World) : guard_kept w (with_timers (remove_timer id) w).
Proof.
  split; [reflexivity|]. split.
  - intros t H. left. eapply remove_timer_In, H.
  - exists []. simpl. now rewrite app_nil_r.
Qed.

Lemma guard_kept_turned (i : Input) (w w' : World) :
  Qeq_bool (connectBackoff (self w)) 0 = false ->
  no_response_retry (timers w) ->
  turned i w w' -> guard_kept w w'.
Proof.
  intros G NR. destruct i as [m|statusCode u|u| |data|id]; simpl.
  - apply guard_kept_invoke.
  - intros [[_ ->]|(v & b & [(_ & _ & ->)|(_ & _ & ->)])].
    + split; [reflexivity|]. split.
      * intros t [H|[<-|[]]]%in_app_iff; [now left | now right].
      * eexists. split; reflexivity.
    + eapply guard_kept_trans; [|apply guard_kept_retry_scheduled; exact G].
      eapply guard_kept_trans; [|apply guard_kept_aborted]. now apply guard_kept_with_self.
    + eapply guard_kept_trans; [|apply guard_kept_retry_scheduled; exact G].
      eapply guard_kept_trans; [|apply guard_kept_aborted]. now apply guard_kept_with_self.
  - intros (v & b & _ & ->).
    eapply guard_kept_trans; [|apply guard_kept_retry_scheduled; exact G].
    eapply guard_kept_trans; [apply guard_kept_aborted | now apply guard_kept_with_self].
  - intros ->. split; [reflexivity|]. split.
    + intros t [H|[<-|[]]]%in_app_iff; [left | now right].
      destruct (timeout (self w)); [eapply remove_timer_In|]; exact H.
    + eexists. split; [reflexivity|]. simpl. destruct (timeout (self w)); reflexivity.
  - intros ->. split; [reflexivity|]. split; [auto|]. eexists. split; [reflexivity|].
    destruct (classify_by_truthiness data); reflexivity.
  - destruct (find_timer id (timers w)) as [[| | |]|] eqn:F; intros ->.
    + exfalso. destruct (find_timer_In _ _ _ F) as (d & Hin).
      unfold no_response_retry in NR. rewrite List.Forall_forall in NR.
      now apply (NR _ Hin).
    + eapply guard_kept_trans; [|apply guard_kept_connected].
      eapply guard_kept_trans; [apply guard_kept_remove | now apply guard_kept_with_self].
    + eapply guard_kept_trans; [|apply guard_kept_connected].
      eapply guard_kept_trans; [apply guard_kept_remove|].
      split; [reflexivity|]. split.
      * intros t H. left. simpl in H.
        destruct (timeout (self w)); [eapply remove_timer_In|]; exact H.
      * exists (abort_effects (self w) ++ [NextTick bound_connect; Emit (reconnect_ "stall" None 0)]).
        split; [simpl; now rewrite <- app_assoc|].
        unfold retry_timers. rewrite flat_map_app.
        destruct (abort_effects_calm (self w)) as [At _]. unfold retry_timers in At.
        now rewrite At.
    + eapply guard_kept_trans; [apply guard_kept_remove | apply guard_kept_connected].
    + apply guard_kept_refl.
Qed.

Lemma guard_kept_run (inputs : list Input) (w w' : World) :
  ticks w = [] ->
  Qeq_bool (connectBackoff (self w)) 0 = false ->
  no_response_retry (timers w) ->
  run inputs w = Returned tt w' ->
  guard_kept w w'.
Proof.
  revert w; induction inputs as [|i inputs IH]; intros w T G NR E; simpl in E.
  - injection E as <-. apply guard_kept_refl.
  - unfold bind in E. destruct (turn i w) as [[] w1|e w1] eqn:E1; [|discriminate].
    destruct (turn_turned i w w1 T E1) as [Ht T1].
    pose proof (guard_kept_turned i w w1 G NR Ht) as K.
    eapply guard_kept_trans; [exact K|].
    destruct K as (C & I & _).
    apply IH; [exact T1 | now rewrite C | | exact E].
    unfold no_response_retry in *. rewrite List.Forall_forall in *.
    intros t [H|H]%I; [now apply NR | rewrite H; discriminate].
Qed.

(** X14: the retry guard [connectBackoff] is set to 0 again only by the
    callback of a timer that the ['response'] handler set.  From a world in
    which the guard is not 0 and no such timer is pending (as after the timer
    of a network failure has fired), no sequence of calls, responses,
    failures, chunks, lines and timers changes the guard, and no retry timer
    is ever set again: every later failure is only notified. *)
Theorem stuck_guard_never_retries (inputs : list Input) (w w' : World) :
  ticks w = [] ->
  Qeq_bool (connectBackoff (self w)) 0 = false ->
  no_response_retry (timers w) ->
  run inputs w = Returned tt w' ->
  connectBackoff (self w') = connectBackoff (self w)
  /\ exists l, log w' = log w ++ l /\ retry_timers l = [].
Proof.
  intros T G NR E. destruct (guard_kept_run inputs w w' T G NR E) as (C & _ & l & L & R).
  split; [exact C|]. now exists l.
Qed.

Lemma stuck_guard_never_retries_witness :
  exists w w' l,
    run [Call (AddFilter FILTER_TYPE_TRACKING (keyword "a") None);
         RequestError (1#2); Timer 1; RequestError (1#2); Timer 3] new_Twitter = Returned tt w
    /\ run [Response 200 0; Data; RequestError 0; Response 420 0; Response 503 0;
            Call (AddFilter FILTER_TYPE_TRACKING (keyword "b") None); RequestError 0] w
       = Returned tt w'
    /\ log w' = log w ++ l /\ retry_timers l = [].
Proof.
  assert (E : exists w w',
             run [Call (AddFilter FILTER_TYPE_TRACKING (keyword "a") None);
                  RequestError (1#2); Timer 1; RequestError (1#2); Timer 3] new_Twitter
             = Returned tt w
             /\ run [Response 200 0; Data; RequestError 0; Response 420 0; Response 503 0;
                     Call (AddFilter FILTER_TYPE_TRACKING (keyword "b") None); RequestError 0] w
                = Returned tt w'
             /\ ticks w = [] /\ Qeq_bool (connectBackoff (self w)) 0 = false /\ timers w = []).
  { do 2 eexists. split; [vm_compute; reflexivity|]. split; [vm_compute; reflexivity|].
    repeat split. }
  destruct E as (w & w' & E & E' & T & G & Ts).
  assert (NR : no_response_retry (timers w)) by (rewrite Ts; constructor).
  destruct (stuck_guard_never_retries _ w w' T G NR E') as (_ & l & L & R).
  exists w, w', l. auto.
Defined.

(** ** Retrying beside an active request *)

(** X15: [connect()] never aborts.  When a retry timer fires while the
    instance holds an active request (the user has reconnected in the
    meantime, or a response with status 200 has arrived) and has filters, a
    second request is posted and takes the place of the first in
    [this.stream]; the first is not aborted, and no other timer is touched,
    so its stall timer stays pending. *)
Theorem retry_posts_beside_active_request (w : World) (id s : nat) (cb : Callback) :
  ticks w = [] ->
  find_timer id (timers w) = Some cb ->
  cb = response_retry \/ cb = error_retry ->
  stream (self w) = Some s ->
  hasFilters (self w) = true ->
  exists w',
    turn (Timer id) w = Returned tt w'
    /\ log w' = log w ++ [Post (fresh w) (form (self w))]
    /\ stream (self w') = Some (fresh w)
    /\ timers w' = remove_timer id (timers w)
    /\ timeout (self w') = timeout (self w).
Proof.
  intros T F Hcb Es Hf.
  unfold turn, bind at 1. simpl handle. unfold fire, bind at 1, get. rewrite F.
  unfold bind at 1, modify.
  destruct Hcb as [-> | ->]; simpl run_callback;
    unfold bind at 1, assign, modify; rewrite connect_eq;
    match goal with
    | |- context [connected ?x] =>
        assert (Hx : hasFilters (self x) = true) by exact Hf;
        unfold connected; rewrite Hx
    end;
    (rewrite run_ticks_empty by exact T);
    eexists; (split; [reflexivity|]); repeat split.
Qed.

Lemma retry_posts_beside_active_request_witness :
  exists w w',
    run [Call (AddFilter FILTER_TYPE_TRACKING (keyword "a") None); Response 420 0;
         Call (AddFilter FILTER_TYPE_TRACKING (keyword "b") None); Response 200 0] new_Twitter
    = Returned tt w
    /\ stream (self w) = Some 2%nat
    /\ turn (Timer 1) w = Returned tt w'
    /\ log w' = log w ++ [Post 5 (form (self w))]
    /\ stream (self w') = Some 5%nat.
Proof.
  assert (E : exists w,
             run [Call (AddFilter FILTER_TYPE_TRACKING (keyword "a") None); Response 420 0;
                  Call (AddFilter FILTER_TYPE_TRACKING (keyword "b") None); Response 200 0]
               new_Twitter = Returned tt w
             /\ ticks w = [] /\ find_timer 1 (timers w) = Some response_retry
             /\ stream (self w) = Some 2%nat /\ hasFilters (self w) = true
             /\ fresh w = 5%nat).
  { eexists. split; [vm_compute; reflexivity|]. repeat split. }
  destruct E as (w & E & T & F & Es & Hf & N).
  destruct (retry_posts_beside_active_request w 1 2 response_retry T F (or_introl eq_refl) Es Hf)
    as (w' & E' & L & S' & _).
  exists w, w'. rewrite N in L, S'. auto.
Defined.

(** ** What the user's calls do to the environment *)

Lemma silently_refl (w : World) : silently w w.
Proof. exists []. now rewrite app_nil_r. Qed.

Lemma silently_trans (w1 w2 w3 : World) : silently w1 w2 -> silently w2 w3 -> silently w1 w3.
Proof.
  intros (l & L & S) (l' & L' & S'). exists (l ++ l').
  rewrite L', L, <- app_assoc, forallb_app, S, S'. auto.
Qed.

Lemma silently_aborted (w : World) : silently w (aborted w).
Proof.
  exists (abort_effects (self w)). split; [reflexivity|].
  unfold abort_effects. destruct (parser (self w)), (timeout (self w)), (stream (self w)); reflexivity.
Qed.

Lemma silently_connected (w : World) : silently w (connected w).
Proof.
  unfold connected. destruct (hasFilters (self w)).
  - eexists. split; reflexivity.
  - exists []. simpl. now rewrite app_nil_r.
Qed.

Lemma silently_reconnected (w : World) : silently w (reconnected w).
Proof.
  unfold reconnected. destruct (stale (self w)); [|apply silently_refl].
  destruct (bool_decide _).
  - eapply silently_trans; [apply silently_aborted | apply silently_connected].
  - apply silently_connected.
Qed.

Lemma silently_with_self (f : Twitter -> Twitter) (w : World) : silently w (with_self f w).
Proof. exists []. simpl. now rewrite app_nil_r. Qed.

(** X16: no method a user calls throws, emits a notification, sets a timer
    or queues a tick: whatever the arguments and the state, [addFilter],
    [removeFilter], [removeAllFilters], [reconnect], [connect] and [abort]
    return, and all they do to the environment is to destroy the parser,
    clear the stall timer, abort the request and post a request.  In
    particular a reconnect that the user causes is not notified. *)
Theorem calls_are_silent (m : Method) (w : World) :
  exists w' l,
    invoke m w = Returned tt w'
    /\ log w' = log w ++ l
    /\ forallb silent l = true
    /\ ticks w' = ticks w.
Proof.
  assert (H : exists w', invoke m w = Returned tt w' /\ silently w w').
  { destruct m as [filter keywords r|filter k r|filter r| | |]; simpl.
    - eexists; split; [apply addFilter_eq|]. cbv zeta.
      destruct (default true r && _).
      + eapply silently_trans; [apply silently_with_self | apply silently_reconnected].
      + apply silently_with_self.
    - eexists; split; [apply removeFilter_eq|]. cbv zeta.
      destruct (decremented _ k) as [c|]; [|apply silently_refl].
      destruct (is_zero c); [destruct (default true r)|].
      + eapply silently_trans; [|apply silently_reconnected].
        eapply silently_trans; apply silently_with_self.
      + eapply silently_trans; apply silently_with_self.
      + apply silently_with_self.
    - eexists; split; [apply removeAllFilters_eq|]. unfold removedAll; cbv zeta.
      destruct (default true r).
      + eapply silently_trans; [apply silently_with_self | apply silently_reconnected].
      + apply silently_with_self.
    - eexists; split; [apply reconnect_eq | apply silently_reconnected].
    - eexists; split; [apply connect_eq | apply silently_connected].
    - eexists; split; [apply abort_eq | apply silently_aborted]. }
  destruct H as (w' & E & l & L & S).
  destruct (invoke_calm m w) as (w'' & E' & _ & _ & T & _).
  rewrite E in E'. injection E' as <-.
  exists w', l. auto.
Qed.

(** ** Adding and removing again *)

Lemma remove_add_count (m : Object) (k : string) :
  positive_counts m -> ordinary k -> remove_count (add_count m k) k = m.
Proof.
  intros H Hk. unfold remove_count, decremented, add_count.
  rewrite !(get_property_ordinary _ _ Hk).
  destruct (m !! k) as [v|] eqn:E.
  - destruct (positive_ordinary m k v H Hk E) as (c & -> & Hc). cbn [truthy_value].
    destruct (Z.eqb_spec c 0) as [->|_]; [lia|]. cbn [negb ToNumber plus].
    rewrite lookup_set_property_eq by now apply ordinary_assignable.
    cbn [is_undefined ToNumber plus is_zero].
    destruct (Z.eqb_spec (c + 1 + -1) 0) as [E0|_]; [lia|].
    unfold set_property. rewrite !ordinary_assignable by exact Hk.
    destruct m as [ps]. cbn [properties]. f_equal.
    rewrite update_update. apply update_own.
    replace (c + 1 + -1)%Z with c by lia. exact E.
  - cbn [truthy_value].
    rewrite lookup_set_property_eq by now apply ordinary_assignable.
    cbn [is_undefined ToNumber plus is_zero Z.add Z.eqb Z.pos_sub].
    unfold set_property, delete_property. rewrite !ordinary_assignable by exact Hk.
    destruct m as [ps]. cbn [properties]. f_equal.
    rewrite update_update. now apply filter_update_absent.
Qed.

(** X17: adding a keyword that names no member of [Object.prototype] and
    removing it again, both without reconnecting, gives back the filters as
    they were, in the same order, whether the keyword was stored before or
    not, and posts nothing.  The instance is left stale if the keyword was
    not stored before, although its filters have not changed: the next
    [reconnect()] then posts the same filters again. *)
Theorem add_then_remove_restores_filters (filter : Kind) (k : string) (w : World) :
  positive_counts (get_kind filter (_filters (self w))) ->
  ordinary k ->
  exists w',
    invoke_all [AddFilter filter (keyword k) (Some false); RemoveFilter filter k (Some false)] w
    = Returned tt w'
    /\ _filters (self w') = _filters (self w)
    /\ stale (self w') = stale (self w) || absent (get_kind filter (_filters (self w))) k
    /\ log w' = log w
    /\ stream (self w') = stream (self w)
    /\ timers w' = timers w.
Proof.
  intros Hpos Hk. simpl invoke_all. unfold bind at 1. simpl invoke.
  rewrite addFilter_eq. cbv zeta. simpl default. cbn [andb].
  unfold bind at 1. rewrite removeFilter_eq. cbv zeta. simpl default.
  unfold ret. simpl list_of. simpl add_all.
  set (m := get_kind filter (_filters (self w))) in *.
  assert (Hrm := remove_add_count m k Hpos Hk).
  assert (Hfr := is_fresh_absent m k Hpos Hk).
  simpl _filters. rewrite !get_set_kind.
  assert (Hdec : decremented (add_count m k) k = Some (num (count m k + 1 + -1))).
  { unfold decremented, add_count, count. rewrite !(get_property_ordinary _ _ Hk).
    destruct (m !! k) as [v|] eqn:E.
    - destruct (positive_ordinary m k v Hpos Hk E) as (c & -> & Hc). cbn [truthy_value].
      destruct (Z.eqb_spec c 0); [lia|]. cbn [negb ToNumber plus].
      now rewrite lookup_set_property_eq by now apply ordinary_assignable.
    - cbn [truthy_value].
      now rewrite lookup_set_property_eq by now apply ordinary_assignable. }
  rewrite Hdec.
  assert (Hlast : is_zero (num (count m k + 1 + -1)) = absent m k).
  { unfold count, absent, is_zero. destruct (m !! k) as [v|] eqn:E.
    - destruct (positive_ordinary m k v Hpos Hk E) as (c & -> & Hc).
      rewrite bool_decide_eq_false_2 by discriminate.
      destruct (Z.eqb_spec (c + 1 + -1) 0); [lia | reflexivity].
    - now rewrite bool_decide_eq_true_2. }
  rewrite Hlast. rewrite orb_false_r, Hfr.
  destruct (absent m k); eexists; (split; [reflexivity|]); simpl;
    rewrite ?get_set_kind, ?set_set_kind, Hrm; unfold m; rewrite set_kind_get_kind;
    rewrite ?orb_true_r, ?orb_false_r; repeat split.
Qed.

Lemma add_then_remove_restores_filters_witness :
  exists w',
    invoke_all [AddFilter FILTER_TYPE_FOLLOW (keyword "12") (Some false);
                RemoveFilter FILTER_TYPE_FOLLOW "12" (Some false)] new_Twitter
    = Returned tt w'
    /\ _filters (self w') = _filters (self new_Twitter)
    /\ stale (self w') = true.
Proof.
  destruct (add_then_remove_restores_filters FILTER_TYPE_FOLLOW "12" new_Twitter)
    as (w' & E & F & S & _).
  - apply positive_empty.
  - reflexivity.
  - exists w'. split; [exact E|]. split; [exact F|]. rewrite S. reflexivity.
Defined.

(** ** Calls that do not reconnect *)

Lemma untouched_refl (w : World) : untouched w w.
Proof. repeat split; auto. Qed.

Lemma untouched_trans (w1 w2 w3 : World) : untouched w1 w2 -> untouched w2 w3 -> untouched w1 w3.
Proof.
  intros (L & Ts & Tk & F & S & P & To & St) (L' & Ts' & Tk' & F' & S' & P' & To' & St').
  repeat split; try congruence. auto.
Qed.

Lemma deferred_untouched (m : Method) (w : World) :
  deferred m -> exists w', invoke m w = Returned tt w' /\ untouched w w'.
Proof.
  destruct m as [filter keywords [[|]|]|filter k [[|]|]|filter [[|]|]| | |]; simpl;
    try contradiction; intros _.
  - eexists; split; [apply addFilter_eq|]. cbv zeta. cbn [default andb].
    unfold untouched; simpl. repeat split. intros Hs. now rewrite Hs.
  - eexists; split; [apply removeFilter_eq|]. cbv zeta. cbn [default].
    destruct (decremented _ k) as [c|]; [|apply untouched_refl].
    destruct (is_zero c); unfold untouched; simpl; repeat split; auto.
  - eexists; split; [apply removeAllFilters_eq|]. unfold removedAll; cbv zeta. cbn [default].
    unfold untouched; simpl. repeat split.
Qed.

(** X18: filter calls made with the reconnect argument [false] post
    nothing, abort nothing and touch no timer, however many they are, and
    they never take back a [stale] that is set.  The change reaches the
    server with the next [reconnect()], which posts one request for all of
    them if the instance is stale and has filters, after aborting the active
    request, if any. *)
Theorem deferred_calls_wait_for_reconnect (ms : list Method) (w : World) :
  Forall deferred ms ->
  exists w1 w2,
    invoke_all ms w = Returned tt w1
    /\ log w1 = log w
    /\ timers w1 = timers w
    /\ stream (self w1) = stream (self w)
    /\ (stale (self w) = true -> stale (self w1) = true)
    /\ reconnect w1 = Returned tt w2
    /\ log w2 = log w ++ (if stale (self w1) then reconnect_effects w1 else [])
    /\ stale (self w2) = false.
Proof.
  intros Hd.
  assert (H : exists w1, invoke_all ms w = Returned tt w1 /\ untouched w w1).
  { revert w; induction Hd as [|m ms Hm _ IH]; intros w; simpl.
    - exists w. split; [reflexivity | apply untouched_refl].
    - destruct (deferred_untouched m w Hm) as (w0 & E0 & U0).
      destruct (IH w0) as (w1 & E1 & U1).
      exists w1. unfold bind. rewrite E0. split; [exact E1 | eapply untouched_trans; eauto]. }
  destruct H as (w1 & E1 & L & Ts & _ & _ & S & _ & _ & St).
  exists w1, (reconnected w1). split; [exact E1|].
  split; [exact L|]. split; [exact Ts|]. split; [exact S|]. split; [exact St|].
  split; [apply reconnect_eq|].
  destruct (stale (self w1)) eqn:Es.
  - destruct (reconnected_when_stale w1 Es) as (Lr & Sr & _). rewrite Lr, L. auto.
  - unfold reconnected. rewrite Es, app_nil_r. auto.
Qed.

Lemma deferred_calls_wait_for_reconnect_witness :
  exists w1 w2,
    invoke_all [AddFilter FILTER_TYPE_TRACKING (array ["a"; "b"]) (Some false);
                AddFilter FILTER_TYPE_LANGUAGE (keyword "en") (Some false);
                RemoveFilter FILTER_TYPE_TRACKING "a" (Some false)] new_Twitter
    = Returned tt w1
    /\ log w1 = []
    /\ reconnect w1 = Returned tt w2
    /\ stale (self w2) = false.
Proof.
  destruct (deferred_calls_wait_for_reconnect
              [AddFilter FILTER_TYPE_TRACKING (array ["a"; "b"]) (Some false);
               AddFilter FILTER_TYPE_LANGUAGE (keyword "en") (Some false);
               RemoveFilter FILTER_TYPE_TRACKING "a" (Some false)] new_Twitter)
    as (w1 & w2 & E1 & L1 & _ & _ & _ & E2 & _ & S2).
  - repeat (apply List.Forall_cons; [exact I|]). apply List.Forall_nil.
  - exists w1, w2. split; [exact E1|]. split; [exact L1|]. split; [exact E2 | exact S2].
Defined.

(** ** Reachable worlds *)

(** X19: in every world a new instance can reach, every stored number is a
    count of at least 1, or [NaN] under a keyword that names a member of
    [Object.prototype]; so a stored keyword that names no such member is
    always found by the truthiness test of [addFilter].  Nothing is ever
    stored under [__proto__], and each keyword object has one property for
    each name, so that its accessor lists the array indices among the names,
    ascending, followed by the other names in the order of the properties.
    The [process.nextTick] queue is empty between turns, and the three backoff
    closures keep the ceiling and the step [backoffs] gave them, with a
    current value of at least 0 for the network sequence and at least 1000
    for the other two. *)
Theorem reachable_worlds_are_sound (w : World) :
  reachable w ->
  (forall filter k n, get_kind filter (_filters (self w)) !! k = Some n ->
     match n with
     | num c => (1 <= c)%Z
     | NaN => inherited k = true
     end)
  /\ (forall filter k, ordinary k ->
        (is_Some (get_kind filter (_filters (self w)) !! k)
         <-> truthy_value (get_property (get_kind filter (_filters (self w))) k) = true))
  /\ (forall filter, get_kind filter (_filters (self w)) !! "__proto__" = None)
  /\ (forall filter,
        let names := (properties (get_kind filter (_filters (self w)))).*1 in
        NoDup names
        /\ keys (get_kind filter (_filters (self w)))
           = ascending (List.filter is_index names)
             ++ List.filter (fun k => negb (is_index k)) names)
  /\ ticks w = []
  /\ (max (networkBackoff (self w)) = 16000%Z /\ (0 <= current (networkBackoff (self w)))%Z
      /\ forall x, step (networkBackoff (self w)) x = (x + 250)%Z)
  /\ (max (httpBackoff (self w)) = 320000%Z /\ (1000 <= current (httpBackoff (self w)))%Z
      /\ forall x, step (httpBackoff (self w)) x = (x * 2)%Z)
  /\ (max (rateBackoff (self w)) = 2147483647%Z /\ (1000 <= current (rateBackoff (self w)))%Z
      /\ forall x, step (rateBackoff (self w)) x = (x * 2)%Z).
Proof.
  intros Hr. destruct (reachable_sound w Hr) as (T & P & (Mn & Sn & Cn) & (Mh & Sh & Ch) & (Mr & Sr & Cr)).
  split; [|split; [|split; [|split; [|split; [exact T|]]]]].
  - intros filter k n E. destruct (P filter) as [Pp _]. specialize (Pp k n E).
    destruct n; [lia | exact Pp].
  - intros filter k Hk. destruct (P filter) as [Pp _].
    rewrite (get_property_ordinary _ _ Hk).
    destruct (_ !! k) as [v|] eqn:E.
    + destruct (positive_ordinary _ k v Pp Hk E) as (c & -> & Hc). cbn [truthy_value].
      destruct (Z.eqb_spec c 0); [lia|]. split; eauto.
    + split; [intros [? [=]] | discriminate].
  - intros filter. now destruct (P filter) as (_ & Hp & _).
  - intros filter. cbv zeta. destruct (P filter) as (_ & _ & Hn).
    split; [exact Hn|]. unfold keys; cbv zeta. now rewrite remove_dups_NoDup.
  - repeat split; try assumption; intros x; (rewrite Sn || rewrite Sh || rewrite Sr); reflexivity.
Qed.

Lemma reachable_worlds_are_sound_witness :
  exists w,
    run [Call (AddFilter FILTER_TYPE_TRACKING (array ["a"; "a"]) None);
         Call (RemoveFilter FILTER_TYPE_TRACKING "a" None); Response 503 0] new_Twitter
    = Returned tt w
    /\ ticks w = []
    /\ (1000 <= current (httpBackoff (self w)))%Z.
Proof.
  assert (E : exists w,
             run [Call (AddFilter FILTER_TYPE_TRACKING (array ["a"; "a"]) None);
                  Call (RemoveFilter FILTER_TYPE_TRACKING "a" None); Response 503 0] new_Twitter
             = Returned tt w).
  { eexists. vm_compute. reflexivity. }
  destruct E as (w & E).
  destruct (reachable_worlds_are_sound w) as (_ & _ & _ & _ & T & _ & (_ & H & _) & _).
  - eexists. exact E.
  - exists w. auto.
Defined.

(** ** The stall timer under chunks *)

Lemma stall_ids_remove (id : nat) (ts : list (nat * Callback * Q)) :
  stall_ids (remove_timer id ts) = List.filter (fun i => negb (i =? id)%nat) (stall_ids ts).
Proof.
  unfold stall_ids, remove_timer. induction ts as [|t ts IH]; simpl; [reflexivity|].
  fold (timer_id t).
  destruct (negb (timer_id t =? id)%nat) eqn:E, (is_stall t) eqn:S; simpl;
    rewrite ?S, ?E; simpl; rewrite IH; reflexivity.
Qed.

Lemma same_id_same_timer (ts : list (nat * Callback * Q)) (x y : nat * Callback * Q) :
  NoDup (map timer_id ts) -> In x ts -> In y ts -> timer_id x = timer_id y -> x = y.
Proof.
  induction ts as [|t ts IH]; simpl; [contradiction|].
  intros [Hn Hd]%NoDup_cons [<-|Hx] [<-|Hy] E; auto.
  - exfalso. apply Hn. rewrite E. apply list_elem_of_In, in_map, Hy.
  - exfalso. apply Hn. rewrite <- E. apply list_elem_of_In, in_map, Hx.
Qed.

Lemma stall_id_In (ts : list (nat * Callback * Q)) (t : nat) :
  In t (stall_ids ts) -> exists x, In x ts /\ timer_id x = t /\ snd (fst x) = close.
Proof.
  unfold stall_ids. intros (x & <- & [Hx Hs]%filter_In)%in_map_iff.
  exists x. repeat split; auto. unfold is_stall in Hs. now destruct (snd (fst x)).
Qed.

Lemma watched_rearmed (w : World) :
  watched w ->
  watched (rearmed w)
  /\ forall x, In x (timers w) -> snd (fst x) <> close -> In x (timers (rearmed w)).
Proof.
  intros (T & Nd & Fr & t & Et & Es). unfold watched, rearmed.
  cbn [timers ticks self fresh timeout set_timeout]. rewrite Et.
  assert (Hsub : forall x, In x (remove_timer t (timers w)) -> In x (timers w))
    by (intros x; apply remove_timer_In).
  split; [split; [exact T|split; [|split]]|].
  - rewrite List.map_app. simpl. apply NoDup_app. split; [|split].
    + unfold remove_timer. clear -Nd. induction (timers w) as [|x ts IH]; simpl; [constructor|].
      apply NoDup_cons in Nd as [Hn Hd].
      destruct (negb _); simpl; [|now apply IH].
      apply NoDup_cons. split; [|now apply IH].
      intros Hin. apply Hn. apply list_elem_of_In in Hin. apply list_elem_of_In.
      apply in_map_iff in Hin as (y & Ey & [Hy _]%filter_In). apply in_map_iff. eauto.
    + intros i Hi Hj. apply list_elem_of_In in Hi. apply list_elem_of_In in Hj.
      simpl in Hj. destruct Hj as [Hj|[]].
      apply in_map_iff in Hi as (y & Ey & Hy%Hsub).
      rewrite List.Forall_forall in Fr. specialize (Fr y Hy).
      unfold timer_id in *. simpl in *. lia.
    + apply NoDup_singleton.
  - apply List.Forall_forall. rewrite List.Forall_forall in Fr.
    intros x [Hx%Hsub|[<-|[]]]%in_app_iff; [specialize (Fr x Hx); lia | unfold timer_id; simpl; lia].
  - exists (fresh w). split; [reflexivity|].
    unfold stall_ids. rewrite List.filter_app, List.map_app. fold (stall_ids (remove_timer t (timers w))).
    rewrite stall_ids_remove, Es. simpl. now rewrite Nat.eqb_refl.
  - intros x Hx Hc. apply in_app_iff. left. unfold remove_timer. apply filter_In.
    split; [exact Hx|]. apply negb_true_iff, Nat.eqb_neq. intros Hid.
    destruct (stall_id_In (timers w) t) as (y & Hy & Ey & Cy); [rewrite Es; now left|].
    assert (x = y) by (eapply same_id_same_timer; eauto; unfold timer_id in *; congruence).
    subst y. contradiction.
Qed.

(** X20: while the instance is streaming with its stall timer armed, every
    chunk of the response body replaces the stall timer by a new one: after
    any number of chunks exactly one stall timer is pending, the one in
    [this.timeout].  The chunks cancel no other timer (a pending retry timer
    stays pending) and leave the request, the filters, [stale] and the retry
    guard as they were. *)
Theorem chunks_keep_one_stall_timer (n : nat) (w : World) :
  watched w ->
  exists w',
    run (repeat Data n) w = Returned tt w'
    /\ watched w'
    /\ (forall x, In x (timers w) -> snd (fst x) <> close -> In x (timers w'))
    /\ stream (self w') = stream (self w)
    /\ _filters (self w') = _filters (self w)
    /\ stale (self w') = stale (self w)
    /\ connectBackoff (self w') = connectBackoff (self w).
Proof.
  revert w; induction n as [|n IH]; intros w Hw; simpl.
  - exists w. unfold ret. split; [reflexivity|]. split; [exact Hw|]. repeat split; auto.
  - destruct (watched_rearmed w Hw) as [Hw1 Hk1].
    destruct (IH (rearmed w) Hw1) as (w' & E & Hw' & Hk & S & F & St & C).
    exists w'. unfold bind, turn, bind. simpl handle. rewrite on_data_eq.
    rewrite run_ticks_empty by (destruct Hw as (T & _); exact T).
    split; [exact E|]. split; [exact Hw'|]. split; [|auto].
    intros x Hx Hc. apply Hk; [now apply Hk1 | exact Hc].
Qed.

Lemma chunks_keep_one_stall_timer_witness :
  exists w w',
    run [Call (AddFilter FILTER_TYPE_TRACKING (keyword "a") None); Response 420 0;
         Call (AddFilter FILTER_TYPE_TRACKING (keyword "b") None); Response 200 0] new_Twitter
    = Returned tt w
    /\ run (repeat Data 3) w = Returned tt w'
    /\ watched w'
    /\ In (1%nat, response_retry, jittered 1000 0) (timers w').
Proof.
  assert (E : exists w,
             run [Call (AddFilter FILTER_TYPE_TRACKING (keyword "a") None); Response 420 0;
                  Call (AddFilter FILTER_TYPE_TRACKING (keyword "b") None); Response 200 0]
               new_Twitter = Returned tt w
             /\ ticks w = [] /\ timeout (self w) = Some 4%nat /\ fresh w = 5%nat
             /\ timers w = [(1%nat, response_retry, jittered 1000 0);
                            (4%nat, close, timeoutInterval)]).
  { eexists. split; [vm_compute; reflexivity|]. repeat split. }
  destruct E as (w & E & T & To & Fr & Ts).
  assert (Hw : watched w).
  { unfold watched. rewrite T, Ts, To, Fr. split; [reflexivity|]. split; [|split].
    - unfold timer_id; simpl. apply NoDup_cons. split; [|apply NoDup_singleton].
      intros H. apply list_elem_of_In in H. simpl in H. intuition lia.
    - repeat (apply List.Forall_cons; [unfold timer_id; simpl; lia|]). apply List.Forall_nil.
    - exists 4%nat. split; reflexivity. }
  destruct (chunks_keep_one_stall_timer 3 w Hw) as (w' & E' & Hw' & Hk & _).
  exists w, w'. split; [exact E|]. split; [exact E'|]. split; [exact Hw'|].
  apply Hk; [rewrite Ts; now left | discriminate].
Defined.

(** ** Keywords that name members of [Object.prototype] *)

Lemma inherited_assignable (k : string) (o : Object) :
  k <> "__proto__"%string ->
  String.eqb k "__proto__" && negb (bool_decide (is_Some (o !! k))) = false.
Proof. intros H. now destruct (String.eqb_spec k "__proto__"). Qed.

(** X21: a keyword that names a method of [Object.prototype] (such as
    [constructor] or [toString]) and is not stored is found on the prototype
    by [addFilter] and by [removeFilter] alike: either call stores [NaN]
    under it, so that the accessor lists it, and leaves [stale], the request
    and the log as they were, whatever the reconnect flag.  Adding the
    keyword once more finds [NaN], which is falsy: the count becomes 1,
    [stale] is set, and [reconnect()] runs unless the flag is false. *)
Theorem inherited_method_name_stores_NaN (filter : Kind) (k : string) (r : option bool) (w : World) :
  inherited k = true -> k <> "__proto__"%string ->
  get_kind filter (_filters (self w)) !! k = None ->
  exists w1 w2,
    addFilter filter (keyword k) r w = Returned tt w1
    /\ removeFilter filter k r w = Returned tt w1
    /\ get_kind filter (_filters (self w1)) !! k = Some NaN
    /\ In k (keys (get_kind filter (_filters (self w1))))
    /\ stale (self w1) = stale (self w)
    /\ stream (self w1) = stream (self w)
    /\ log w1 = log w
    /\ addFilter filter (keyword k) r w1 = (if default true r then reconnect else ret tt) w2
    /\ get_kind filter (_filters (self w2)) !! k = Some (num 1)
    /\ stale (self w2) = true
    /\ log w2 = log w.
Proof.
  intros Hi Hp E.
  set (m := get_kind filter (_filters (self w))) in *.
  assert (Hg : get_property m k = member) by (unfold get_property; now rewrite E, Hi).
  assert (Hm1 : set_property k NaN m !! k = Some NaN)
    by now apply lookup_set_property_eq, inherited_assignable.
  assert (Hg1 : get_property (set_property k NaN m) k = number NaN)
    by (unfold get_property; now rewrite Hm1).
  exists (with_self (with_kind filter (set_property k NaN m)) w).
  exists (with_self (fun t => set_stale true
            (with_kind filter (set_property k (num 1) (set_property k NaN m)) t)) w).
  split; [|split; [|split; [|split; [|split; [|split; [|split; [|split; [|split; [|split]]]]]]]]].
  - rewrite addFilter_eq. cbv zeta. simpl list_of. simpl add_all.
    unfold is_fresh, add_count. fold m. rewrite Hg. cbn [truthy_value negb orb ToNumber plus fst snd].
    rewrite andb_false_r. f_equal.
    destruct w as [[fs st s p t cb icb nb hb rb oe] ts q n l]. unfold with_self; simpl.
    now rewrite orb_false_r.
  - rewrite removeFilter_eq. cbv zeta. fold m. unfold remove_count, decremented.
    rewrite Hg. reflexivity.
  - simpl. rewrite get_set_kind. exact Hm1.
  - apply keys_spec. simpl. rewrite get_set_kind, Hm1. eauto.
  - reflexivity.
  - reflexivity.
  - reflexivity.
  - rewrite addFilter_eq. cbv zeta. simpl list_of. simpl add_all.
    simpl _filters. rewrite get_set_kind.
    unfold is_fresh, add_count. rewrite Hg1. cbn [truthy_value negb orb].
    rewrite andb_true_r.
    assert (Ew : with_self (fun t => set_stale (stale t || true)
                            (with_kind filter (set_property k (num 1) (set_property k NaN m)) t))
                   (with_self (with_kind filter (set_property k NaN m)) w)
                 = with_self (fun t => set_stale true
                     (with_kind filter (set_property k (num 1) (set_property k NaN m)) t)) w).
    { destruct w as [[fs st s p t cb icb nb hb rb oe] ts q n l].
      unfold with_self, with_kind; simpl. now rewrite orb_true_r, set_set_kind. }
    cbn [fst snd]. rewrite Ew.
    destruct (default true r); [now rewrite reconnect_eq | reflexivity].
  - simpl. rewrite get_set_kind.
    apply lookup_set_property_eq, inherited_assignable, Hp.
  - reflexivity.
  - reflexivity.
Qed.

Lemma inherited_method_name_stores_NaN_witness :
  exists w1 w2,
    addFilter FILTER_TYPE_TRACKING (keyword "toString") None new_Twitter = Returned tt w1
    /\ tracking (self w1) = ["toString"]
    /\ log w1 = []
    /\ addFilter FILTER_TYPE_TRACKING (keyword "toString") None w1 = reconnect w2
    /\ stale (self w2) = true.
Proof.
  destruct (inherited_method_name_stores_NaN FILTER_TYPE_TRACKING "toString" None new_Twitter)
    as (w1 & w2 & E1 & _ & _ & _ & _ & _ & L1 & E2 & _ & S2 & _);
    [reflexivity | discriminate | reflexivity |].
  exists w1, w2. split; [exact E1|]. split; [|split; [exact L1|split; [exact E2 | exact S2]]].
  rewrite addFilter_eq in E1. injection E1 as <-. reflexivity.
Defined.

(** X22: with no property of its own by that name, the keyword [__proto__]
    is found on the prototype and the assignment to it is ignored: adding or
    removing it changes nothing at all, whatever the reconnect flag. *)
Theorem proto_keyword_is_ignored (filter : Kind) (r : option bool) (w : World) :
  get_kind filter (_filters (self w)) !! "__proto__" = None ->
  addFilter filter (keyword "__proto__") r w = Returned tt w
  /\ removeFilter filter "__proto__" r w = Returned tt w.
Proof.
  intros E.
  set (m := get_kind filter (_filters (self w))) in *.
  assert (Hg : get_property m "__proto__" = member) by (unfold get_property; now rewrite E).
  assert (Hs : forall n, set_property "__proto__" n m = m).
  { intros n. unfold set_property. rewrite E.
    now rewrite (bool_decide_eq_false_2 (is_Some None)) by (intros [? [=]]). }
  assert (E1 : with_self (fun t => set_stale (stale t || false) (with_kind filter m t)) w = w).
  { unfold m. destruct w as [[fs st s p t cb icb nb hb rb oe] ts q n l].
    unfold with_self, with_kind; simpl. now rewrite orb_false_r, set_kind_get_kind. }
  assert (E2 : with_self (with_kind filter m) w = w).
  { unfold m. destruct w as [[fs st s p t cb icb nb hb rb oe] ts q n l].
    unfold with_self, with_kind; simpl. now rewrite set_kind_get_kind. }
  split.
  - rewrite addFilter_eq. cbv zeta. simpl list_of. simpl add_all.
    unfold is_fresh, add_count. fold m. rewrite Hg. cbn [truthy_value negb orb ToNumber plus].
    cbn [fst snd]. rewrite andb_false_r, Hs, E1. reflexivity.
  - rewrite removeFilter_eq. cbv zeta. fold m. unfold remove_count, decremented.
    rewrite Hg. cbn [is_undefined ToNumber plus is_zero]. now rewrite Hs, E2.
Qed.

Lemma proto_keyword_is_ignored_witness :
  addFilter FILTER_TYPE_TRACKING (keyword "__proto__") None new_Twitter = Returned tt new_Twitter
  /\ removeFilter FILTER_TYPE_TRACKING "__proto__" None new_Twitter = Returned tt new_Twitter.
Proof.
  apply (proto_keyword_is_ignored FILTER_TYPE_TRACKING None new_Twitter). reflexivity.
Defined.
